(** * rnnmorph: vectorisation, training orchestration, evaluation and decoding

    A shallow embedding of [rnnmorph/char_embeddings_model.py] and
    [rnnmorph/model.py].  Python lists and numpy arrays are lists, numpy
    integer cells are [Z], numpy floating cells and Python floats are
    binary64 primitive floats, exceptions are [None] (pure code) or a value
    of [exn] (stateful code).  The Keras network is an opaque collaborator:
    its calls are recorded as events and its numeric answers are taken as
    parameters. *)

From Stdlib Require Import ZArith QArith List Lia.
From Stdlib Require Import Floats.PrimFloat Floats.SpecFloat Floats.FloatOps.
From stdpp Require Import gmap strings list.

(** ** Python and numpy primitives used by the two files *)

Module Py.

(** Normalisation of one bound of a slice [l[a:]] or [l[:b]] on a sequence
    of length [n]: a negative bound counts from the end, and the result is
    clipped to [0..n]. *)
Definition slice_index (n : nat) (i : Z) : nat :=
  if (i <? 0)%Z then Z.to_nat (Z.max 0 (i + Z.of_nat n))
  else Nat.min (Z.to_nat i) n.

(** [l[a:]] *)
Definition slice_from {A} (l : list A) (a : Z) : list A :=
  drop (slice_index (length l) a) l.

(** [l[:b]] *)
Definition slice_upto {A} (l : list A) (b : Z) : list A :=
  take (slice_index (length l) b) l.

(** numpy broadcasting of a one-dimensional value onto [k] cells: the value
    has [k] cells, or it has one cell which is repeated; anything else is a
    [ValueError]. *)
Definition np_broadcast {A} (k : nat) (v : list A) : option (list A) :=
  if decide (length v = k) then Some v
  else match v with
       | [x] => Some (replicate k x)
       | _ => None
       end.

(** [row[a:] = v] on a one-dimensional array [row]. *)
Definition np_set_from {A} (row : list A) (a : Z) (v : list A)
  : option (list A) :=
  let s := slice_index (length row) a in
  new ← np_broadcast (length row - s) v;
  Some (take s row ++ new).

(** numpy broadcasting of a list of rows onto a block of [k] rows of width
    [G].  The empty list converts to an array of shape (0,), which only
    fits a block of width 0; a ragged list is rejected. *)
Definition np_broadcast2 {A} (k G : nat) (v : list (list A))
  : option (list (list A)) :=
  match v with
  | [] => if decide (G = 0) then Some (replicate k []) else None
  | r :: _ =>
      if forallb (λ r', length r' =? length r) v
      then rows ← np_broadcast k v; mapM (np_broadcast G) rows
      else None
  end.

(** [block[a:] = v] on a two-dimensional array [block] of width [G]. *)
Definition np_set_rows_from {A} (G : nat) (block : list (list A)) (a : Z)
    (v : list (list A)) : option (list (list A)) :=
  let s := slice_index (length block) a in
  new ← np_broadcast2 (length block - s) G v;
  Some (take s block ++ new).

(** [np.argmax] on a one-dimensional floating array, as numpy's argmax
    loop: the first cell starts as the maximum, a later cell replaces it
    when it is not [<=] the current maximum, and a nan ends the scan.  An
    empty array is a [ValueError]. *)
Fixpoint argmax_scan (mp : float) (max_ind i : nat) (l : list float) : nat :=
  match l with
  | [] => max_ind
  | x :: l' =>
      if negb (PrimFloat.leb x mp)
      then if PrimFloat.is_nan x then i else argmax_scan x i (S i) l'
      else argmax_scan mp max_ind (S i) l'
  end.

Definition np_argmax (l : list float) : option nat :=
  match l with
  | [] => None
  | x :: l' => Some (if PrimFloat.is_nan x then 0 else argmax_scan x 0 1 l')
  end.

(** [int(f)] on a Python float: truncation toward zero; nan and the
    infinities raise. *)
Definition py_int (f : float) : option Z :=
  match Prim2SF f with
  | S754_zero _ => Some 0%Z
  | S754_finite s m e =>
      let a := match e with
               | Z0 => Z.pos m
               | Zpos p => (Z.pos m * 2 ^ Z.pos p)%Z
               | Zneg p => (Z.pos m / 2 ^ Z.pos p)%Z
               end in
      Some (if s then (- a)%Z else a)
  | S754_infinity _ | S754_nan => None
  end.

(** Conversion of a Python int to float (round to nearest even), as done
    when an int meets a float in an arithmetic operation.  Python refuses an
    int beyond the range of a float; here it becomes an infinity, and the
    [int(...)] that [get_split] wraps around the product then raises in its
    place. *)
Definition py_float (z : Z) : float :=
  SF2Prim (binary_normalize prec emax z 0 false).

(** Exceptions that the modelled code raises itself or lets through;
    [Exception] stands for one whose class is not tracked (raised by an
    external call, or by a pure function modelled with [option]). *)
Inductive exn :=
| AssertionError
| AttributeError
| ValueError
| ZeroDivisionError
| Exception.

(** A computation over a mutable world [S] that may raise: the world it
    leaves behind is kept in both outcomes, as Python keeps the mutations
    made before an exception. *)
Definition M (S A : Type) : Type := S → (exn + A) * S.

Definition ret {S A} (a : A) : M S A := λ s, (inr a, s).
Definition raise {S A} (e : exn) : M S A := λ s, (inl e, s).
Definition bind {S A B} (m : M S A) (k : A → M S B) : M S B :=
  λ s, match m s with
       | (inr a, s') => k a s'
       | (inl e, s') => (inl e, s')
       end.
Definition get {S} : M S S := λ s, (inr s, s).
Definition modify {S} (f : S → S) : M S unit := λ s, (inr tt, f s).
Definition lift {S A} (e : exn) (o : option A) : M S A :=
  match o with Some a => ret a | None => raise e end.

End Py.

Declare Scope py_scope.
Delimit Scope py_scope with py.
Notation "x <- m ;; k" := (Py.bind m (λ x, k))
  (at level 100, m at next level, right associativity) : py_scope.
Notation "m ;;; k" := (Py.bind m (λ _, k))
  (at level 100, right associativity) : py_scope.

(** ** rnnmorph/char_embeddings_model.py *)

Module CharEmbeddings.

(** A character is a Unicode code point; a word is a Python [str]. *)
Abbreviation char := N (only parsing).
Abbreviation word := (list N) (only parsing).

(** Modelled from the spec: [WordVocabulary]
    (rnnmorph/data_preparation/word_vocabulary.py is not among the
    sources).  [words] lists the entries by descending frequency, [size]
    is their number, and [shrink n] keeps the [n] most frequent ones. *)
Record WordVocabulary := { words : list word }.

Definition size (v : WordVocabulary) : nat := length (words v).

Definition shrink (n : nat) (v : WordVocabulary) : WordVocabulary :=
  {| words := take n (words v) |}.

Section PrepareWords.

(** [CHAR_SET] is defined in rnnmorph/batch_generator.py, which is not
    among the sources; it is a string, taken here as a parameter. *)
Variable CHAR_SET : list char.

(** [CHAR_SET.index(ch)]: position of the first occurrence. *)
Fixpoint index (s : list char) (ch : char) : option nat :=
  match s with
  | [] => None
  | c :: s' => if decide (c = ch) then Some 0 else S <$> index s' ch
  end.

(** [CHAR_SET.index(ch) if ch in CHAR_SET else len(CHAR_SET)] *)
Definition char_index (ch : char) : Z :=
  if decide (ch ∈ CHAR_SET)
  then match index CHAR_SET ch with
       | Some i => Z.of_nat i
       | None => Z.of_nat (length CHAR_SET)
       end
  else Z.of_nat (length CHAR_SET).

(** One turn of the second loop of [prepare_words]: the slice of row [i]
    is overwritten with the indices of [word]. *)
Definition prepare_row (max_word_length : nat) (chars : list (list Z))
    (i : nat) (w : word) : option (list (list Z)) :=
  let word_char_indices :=
    Py.slice_upto (char_index <$> w) (Z.of_nat max_word_length) in
  row ← chars !! i;
  row' ← Py.np_set_from row
           (- Z.of_nat (Nat.min (length w) max_word_length))
           word_char_indices;
  Some (<[i := row']> chars).

Fixpoint prepare_loop (max_word_length : nat) (chars : list (list Z))
    (i : nat) (ws : list word) : option (list (list Z)) :=
  match ws with
  | [] => Some chars
  | w :: ws' =>
      chars' ← prepare_row max_word_length chars i w;
      prepare_loop max_word_length chars' (S i) ws'
  end.

(** [CharEmbeddingsModel.prepare_words]; [None] is the [ValueError] of a
    slice assignment whose value does not fit.  (A negative
    [max_word_length] makes [np.zeros] raise before anything else; the
    width is a [nat] here.) *)
Definition prepare_words (vocabulary : WordVocabulary)
    (max_word_length : nat) : option (list (list Z) * list Z) :=
  let chars := replicate (size vocabulary) (replicate max_word_length 0%Z) in
  let y := (λ i, Z.of_nat i) <$> seq 0 (size vocabulary) in
  chars' ← prepare_loop max_word_length chars 0 (words vocabulary);
  Some (chars', y).

(** The slice assignment of one loop turn, on a row of zeros. *)
Definition assign_row (max_word_length : nat) (w : word) : option (list Z) :=
  Py.np_set_from (replicate max_word_length 0%Z)
    (- Z.of_nat (Nat.min (length w) max_word_length))
    (Py.slice_upto (char_index <$> w) (Z.of_nat max_word_length)).

(** What one row holds after the loop, in closed form: zeros, then the
    indices of the leading [max_word_length] characters. *)
Definition encoding (max_word_length : nat) (w : word) : list Z :=
  replicate (max_word_length - length w) 0%Z
  ++ (char_index <$> take max_word_length w).

(** The row as the specification words it: zeros, then the indices of the
    trailing [max_word_length] characters. *)
Definition spec_trailing_encoding (max_word_length : nat) (w : word)
  : list Z :=
  replicate (max_word_length - length w) 0%Z
  ++ (char_index <$> drop (length w - max_word_length) w).

End PrepareWords.

(** *** [get_char_model] and the objects it touches *)

(** Vocabularies are mutable objects: a caller and a callee that hold the
    same reference see each other's [shrink].  They live in a heap. *)
Definition loc := nat.

(** The character layer handed around: either the closure returned by
    [build_dense_chars_layer], or the layer that [CharEmbeddingsModel.load]
    cuts out of a saved model. *)
Inductive layer :=
| DenseChars (max_word_length char_vocab_size char_emb_dim hidden_dim
              output_dim : nat) (dropout : float)
| LoadedChars (model_config_path model_weights_path : string).

Definition build_dense_chars_layer (max_word_length char_vocab_size
    char_emb_dim hidden_dim output_dim : nat) (dropout : float) : layer :=
  DenseChars max_word_length char_vocab_size char_emb_dim hidden_dim
    output_dim dropout.

(** The embedding matrix is only handed to Keras; the code itself reads
    its shape. *)
Record ndarray2 := { shape0 : nat; shape1 : nat }.

(** Calls into Keras and the file system, in the order they are made. *)
Inductive event :=
| KLoad (model_config_path model_weights_path : string)
| KBuild (char_layer : layer)
    (vocabulary_size word_embeddings_dimension max_word_length : nat)
| KFit (chars : list (list Z)) (y : list Z) (batch_size : Z)
    (val_part : float) (random_seed : Z)
| KWriteConfig (model_config_path : string)
| KSaveWeights (model_weights_path : string).

Record world := {
  heap : gmap loc WordVocabulary;
  files : gset string;
  log : list event
}.

Section GetCharModel.

Variable CHAR_SET : list char.

(** Whether an external call completes (otherwise it raises); nothing is
    assumed about it. *)
Variable external_ok : event → bool.

Definition external (ev : event) : Py.M world unit := λ w,
  let w' := {| heap := heap w; files := files w; log := log w ++ [ev] |} in
  if external_ok ev then (inr tt, w') else (inl Py.Exception, w').

Definition create_file (path : string) : Py.M world unit :=
  Py.modify (λ w,
    {| heap := heap w; files := {[path]} ∪ files w; log := log w |}).

(** [os.path.exists(path)] *)
Definition exists_ (path : string) : Py.M world bool := λ w,
  (inr (bool_decide (path ∈ files w)), w).

(** [copy.deepcopy(vocabulary)]: a new object with the same contents.  A
    reference always denotes a live object; the [None] case is there only
    because heap lookup is partial. *)
Definition deepcopy (vocabulary : loc) : Py.M world loc := λ w,
  match heap w !! vocabulary with
  | Some v =>
      let l := fresh (dom (heap w)) in
      (inr l, {| heap := <[l := v]> (heap w); files := files w;
                 log := log w |})
  | None => (inl Py.Exception, w)
  end.

(** [vocabulary.shrink(n)]: in place. *)
Definition shrink_at (vocabulary : loc) (n : nat) : Py.M world unit :=
  Py.modify (λ w,
    {| heap := alter (shrink n) vocabulary (heap w); files := files w;
       log := log w |}).

Definition read (vocabulary : loc) : Py.M world WordVocabulary := λ w,
  match heap w !! vocabulary with
  | Some v => (inr v, w)
  | None => (inl Py.Exception, w)
  end.

(** [CharEmbeddingsModel.load]; the result is the new [char_layer]. *)
Definition load (model_config_path model_weights_path : string)
  : Py.M world layer :=
  (external (KLoad model_config_path model_weights_path) ;;;
   Py.ret (LoadedChars model_config_path model_weights_path))%py.

(** [CharEmbeddingsModel.build]; the result is the new [char_layer]. *)
Definition build (char_layer : layer) (vocabulary_size
    word_embeddings_dimension max_word_length : nat) : Py.M world layer :=
  (external (KBuild char_layer vocabulary_size word_embeddings_dimension
               max_word_length) ;;;
   Py.ret char_layer)%py.

(** [CharEmbeddingsModel.train] *)
Definition train (vocabulary : loc) (val_part : float) (random_seed : Z)
    (batch_size : Z) (max_word_len : nat) : Py.M world unit :=
  (v <- read vocabulary ;;
   cy <- Py.lift Py.ValueError (prepare_words CHAR_SET v max_word_len) ;;
   external (KFit cy.1 cy.2 batch_size val_part random_seed))%py.

(** [CharEmbeddingsModel.save]; a write that fails is taken to leave no
    file behind. *)
Definition save (model_config_path model_weights_path : string)
  : Py.M world unit :=
  (external (KWriteConfig model_config_path) ;;;
   create_file model_config_path ;;;
   external (KSaveWeights model_weights_path) ;;;
   create_file model_weights_path)%py.

(** The [else] branch of [get_char_model]. *)
Definition train_char_model (char_layer : layer) (max_word_length : nat)
    (vocabulary : loc) (embeddings : option ndarray2)
    (model_weights_path model_config_path : option string)
    (batch_size : Z) (val_part : float) (seed : Z) : Py.M world layer :=
  (vocabulary <- deepcopy vocabulary ;;
   e <- Py.lift Py.AttributeError embeddings ;;
   shrink_at vocabulary (shape0 e) ;;;
   v <- read vocabulary ;;
   char_layer <- build char_layer (size v) (shape1 e) max_word_length ;;
   train vocabulary val_part seed batch_size max_word_length ;;;
   match model_config_path, model_weights_path with
   | Some c, Some w => save c w
   | _, _ => Py.ret tt
   end ;;;
   Py.ret char_layer)%py.

Definition get_char_model (char_layer : layer) (max_word_length : nat)
    (vocabulary : loc) (embeddings : option ndarray2)
    (model_weights_path model_config_path : option string)
    (batch_size : Z) (val_part : float) (seed : Z) : Py.M world layer :=
  let training :=
    train_char_model char_layer max_word_length vocabulary embeddings
      model_weights_path model_config_path batch_size val_part seed in
  match model_config_path with
  | Some c =>
      (config_exists <- exists_ c ;;
       if config_exists : bool then
         match model_weights_path with
         | Some w =>
             (weights_exists <- exists_ w ;;
              if weights_exists : bool then load c w
              else Py.raise Py.AssertionError)
         | None => Py.raise Py.AssertionError
         end
       else training)%py
  | None => training
  end.

End GetCharModel.

(** Computations that leave every vocabulary as it is. *)
Definition preserves_heap {A} (m : Py.M world A) : Prop :=
  ∀ w, heap (m w).2 = heap w.

End CharEmbeddings.

(** ** rnnmorph/model.py *)

Module Tagger.

Import CharEmbeddings.

(** A numpy array of rank 3.  Its first dimension is the number of entries
    of [cells]; the other two are kept beside the cells, since they cannot
    be read off an array without entries. *)
Record array3 (A : Type) := {
  dim1 : nat;
  dim2 : nat;
  cells : list (list (list A))
}.
Arguments dim1 {A}.
Arguments dim2 {A}.
Arguments cells {A}.

(** [np.zeros((n, l, g))] *)
Definition np_zeros3 {A} (zero : A) (n l g : nat) : array3 A :=
  {| dim1 := l; dim2 := g;
     cells := replicate n (replicate l (replicate g zero)) |}.

(** [self.model.predict([grammemes, chars], batch_size=...)]: the answer
    of the Keras network, an array of shape (sentences, positions,
    classes).  [batch_size] is [None] where the call leaves it out. *)
Definition predictor : Type :=
  array3 float → array3 Z → option Z → list (list (list float)).

(** *** [get_split] *)

(** [perm] is the draw of [np.random.permutation(sample_counter)]. *)
Definition get_split (perm : list nat) (sample_counter : nat)
    (val_part : float) : option (list nat * list nat) :=
  border ← Py.py_int
    (Py.py_float (Z.of_nat sample_counter) * (1 - val_part))%float;
  let train_idx := Py.slice_upto perm border in
  let val_idx := Py.slice_from perm border in
  Some (train_idx, val_idx).

(** *** [evaluate] *)

(** What [evaluate] unpacks from the batch generator.  [y] has shape
    (sentences, positions, 1); its last axis is left out. *)
Record eval_batch := {
  eb_grammemes : array3 float;
  eb_chars : array3 Z;
  eb_y : list (list Z)
}.

Record counters := {
  word_count : nat;
  word_errors : nat;
  sentence_count : nat;
  sentence_errors : nat
}.

(** The loop over [zip(real_sentence_tags, answer)]; the state is
    (word_count, word_errors, sentence_has_errors). *)
Definition compare_tags (st : nat * nat * bool) (p : Z * nat)
  : nat * nat * bool :=
  let '(wc, we, has_errors) := st in
  let '(tag, predicted_tag) := p in
  if decide (tag ≠ Z.of_nat predicted_tag) then (S wc, S we, true)
  else (S wc, we, has_errors).

(** The body of [for i, sentence in enumerate(y)]. *)
Definition evaluate_sentence (predicted_y : list (list (list float)))
    (c : counters) (i : nat) (sentence : list Z) : option counters :=
  let count_zero := length (filter (λ num, num = 0%Z) sentence) in
  let real_sentence_tags := Py.slice_from sentence (Z.of_nat count_zero) in
  probs ← predicted_y !! i;
  answer ← mapM Py.np_argmax (Py.slice_from probs (Z.of_nat count_zero));
  let '(wc, we, sentence_has_errors) :=
    fold_left compare_tags (zip real_sentence_tags answer)
      (word_count c, word_errors c, false) in
  Some {| word_count := wc; word_errors := we;
          sentence_count := S (sentence_count c);
          sentence_errors := if sentence_has_errors : bool
                             then S (sentence_errors c)
                             else sentence_errors c |}.

Fixpoint evaluate_sentences (predicted_y : list (list (list float)))
    (c : counters) (i : nat) (y : list (list Z)) : option counters :=
  match y with
  | [] => Some c
  | sentence :: y' =>
      c' ← evaluate_sentence predicted_y c i sentence;
      evaluate_sentences predicted_y c' (S i) y'
  end.

(** The body of [for epoch, (grammemes, chars, y) in ...]. *)
Definition evaluate_batch (model_predict : predictor) (num_words_in_batch : Z)
    (c : counters) (b : eval_batch) : option counters :=
  let max_sentence_length := dim1 (eb_grammemes b) in
  if decide (max_sentence_length = 0) then None
  else
    let batch_size :=
      (num_words_in_batch `div` Z.of_nat max_sentence_length)%Z in
    let predicted_y :=
      model_predict (eb_grammemes b) (eb_chars b) (Some batch_size) in
    evaluate_sentences predicted_y c 0 (eb_y b).

Fixpoint evaluate_batches (model_predict : predictor) (num_words_in_batch : Z)
    (c : counters) (bs : list eval_batch) : option counters :=
  match bs with
  | [] => Some c
  | b :: bs' =>
      c' ← evaluate_batch model_predict num_words_in_batch c b;
      evaluate_batches model_predict num_words_in_batch c' bs'
  end.

(** [1.0 - float(errors) / count] as an exact rational; the program prints
    its binary64 rounding.  A zero [count] is a [ZeroDivisionError]. *)
Definition accuracy (errors count : nat) : option Q :=
  if decide (count = 0) then None
  else Some (1 - inject_Z (Z.of_nat errors) / inject_Z (Z.of_nat count))%Q.

(** [evaluate], on the batches that its generator yields: the two numbers
    printed, word accuracy first. *)
Definition evaluate (model_predict : predictor) (num_words_in_batch : Z)
    (batches : list eval_batch) : option (Q * Q) :=
  c ← evaluate_batches model_predict num_words_in_batch
        {| word_count := 0; word_errors := 0;
           sentence_count := 0; sentence_errors := 0 |} batches;
  word_accuracy ← accuracy (word_errors c) (word_count c);
  sentence_accuracy ← accuracy (sentence_errors c) (sentence_count c);
  Some (word_accuracy, sentence_accuracy).

(** The scoring of [evaluate] in closed form. *)

(** [count_zero]: how many gold classes of the sentence are 0. *)
Definition count_zero (sentence : list Z) : nat :=
  length (filter (λ num, num = 0%Z) sentence).

(** The length of the leading run of gold class 0: the pad prefix. *)
Fixpoint leading_pad (sentence : list Z) : nat :=
  match sentence with
  | num :: rest => if decide (num = 0%Z) then S (leading_pad rest) else 0
  | [] => 0
  end.

(** A sentence whose only zeros are its pad prefix. *)
Definition left_padded (sentence : list Z) : Prop :=
  Forall (λ num, num ≠ 0%Z) (drop (leading_pad sentence) sentence).

(** The arg-max class of every position ([0] stands in for the arg-max of
    an empty distribution, which numpy refuses). *)
Definition top_classes (probs : list (list float)) : list nat :=
  (λ p, default 0 (Py.np_argmax p)) <$> probs.

(** Scored tokens whose gold class differs from the predicted one. *)
Definition mismatches (pairs : list (Z * nat)) : nat :=
  length (filter (λ p, p.1 ≠ Z.of_nat p.2) pairs).

(** The gold and predicted classes of the positions from [count_zero]
    on. *)
Definition scored (sentence : list Z) (probs : list (list float))
  : list (Z * nat) :=
  zip (drop (count_zero sentence) sentence)
      (drop (count_zero sentence) (top_classes probs)).

(** Over all sentences: scored tokens, mismatches, sentences, sentences
    with a mismatch. *)
Definition tally (sentences : list (list (Z * nat))) : counters :=
  {| word_count := sum_list_with length sentences;
     word_errors := sum_list_with mismatches sentences;
     sentence_count := length sentences;
     sentence_errors :=
       length (filter (λ pairs, mismatches pairs ≠ 0) sentences) |}.

(** The answer of the network on a batch, as [evaluate] asks for it. *)
Definition predicted (model_predict : predictor) (num_words_in_batch : Z)
    (b : eval_batch) : list (list (list float)) :=
  model_predict (eb_grammemes b) (eb_chars b)
    (Some (num_words_in_batch `div` Z.of_nat (dim1 (eb_grammemes b)))%Z).

(** The scored tokens of every sentence of every batch. *)
Definition scored_batches (model_predict : predictor)
    (num_words_in_batch : Z) (batches : list eval_batch)
  : list (list (Z * nat)) :=
  concat ((λ b, zip_with scored (eb_y b)
                  (predicted model_predict num_words_in_batch b))
          <$> batches).

(** The network answers a batch with one non-empty distribution per
    position of [y]. *)
Definition answers_batch (model_predict : predictor)
    (num_words_in_batch : Z) (b : eval_batch) : Prop :=
  Forall2 (λ (sentence : list Z) (probs : list (list float)),
             length probs = length sentence ∧ Forall (λ p, p ≠ []) probs)
          (eb_y b) (predicted model_predict num_words_in_batch b).

(** *** [predict_proba] and [predict] *)

Section Inference.

(** [self.grammeme_vectorizer_input.grammemes_count()] *)
Variable grammemes_count : nat.

(** [BatchGenerator.get_sample] with the analyser, vectorizer and
    vocabulary of [self] (rnnmorph/batch_generator.py is not among the
    sources): the grammeme vectors and the character vectors of one
    sentence, given [max_word_len] and [word_count]. *)
Variable get_sample :
  list word → nat → Z → list (list float) * list (list Z).

Variable model_predict : predictor.

(** The body of [for i, sentence in enumerate(sentences)]. *)
Definition fill_sample (max_word_len : nat) (word_max_count : Z)
    (gc : list (list (list float)) * list (list (list Z)))
    (i : nat) (sentence : list word)
  : option (list (list (list float)) * list (list (list Z))) :=
  let '(gram_vectors, char_vectors) :=
    get_sample sentence max_word_len word_max_count in
  g ← gc.1 !! i;
  g' ← Py.np_set_rows_from grammemes_count g
         (- Z.of_nat (length sentence)) gram_vectors;
  c ← gc.2 !! i;
  c' ← Py.np_set_rows_from max_word_len c
         (- Z.of_nat (length sentence)) char_vectors;
  Some (<[i := g']> gc.1, <[i := c']> gc.2).

Fixpoint fill_samples (max_word_len : nat) (word_max_count : Z)
    (gc : list (list (list float)) * list (list (list Z)))
    (i : nat) (sentences : list (list word))
  : option (list (list (list float)) * list (list (list Z))) :=
  match sentences with
  | [] => Some gc
  | sentence :: rest =>
      gc' ← fill_sample max_word_len word_max_count gc i sentence;
      fill_samples max_word_len word_max_count gc' (S i) rest
  end.

(** [max(...)] of a list of lengths; the empty list is a [ValueError]. *)
Definition py_max (l : list nat) : option nat :=
  match l with
  | [] => None
  | x :: l' => Some (foldr Nat.max x l')
  end.

Definition predict_proba (sentences : list (list word))
    (max_word_len : nat) (word_max_count : Z)
  : option (list (list (list float))) :=
  max_sentence_len ← py_max (length <$> sentences);
  let n_samples := length sentences in
  let grammemes :=
    np_zeros3 0%float n_samples max_sentence_len grammemes_count in
  let chars := np_zeros3 0%Z n_samples max_sentence_len max_word_len in
  gc ← fill_samples max_word_len word_max_count
         (cells grammemes, cells chars) 0 sentences;
  Some (model_predict
          {| dim1 := max_sentence_len; dim2 := grammemes_count; cells := gc.1 |}
          {| dim1 := max_sentence_len; dim2 := max_word_len; cells := gc.2 |}
          None).

(** The body of [for sentence, probs in zip(...)]. *)
Definition decode_sentence (p : list word * list (list float))
  : option (list nat) :=
  let '(sentence, probs) := p in
  mapM (λ grammeme_probs, Py.np_argmax (Py.slice_from grammeme_probs 1))
       (Py.slice_from probs (- Z.of_nat (length sentence))).

Definition predict (sentences : list (list word))
  : option (list (list nat)) :=
  probs ← predict_proba sentences 30 10000;
  mapM decode_sentence (zip sentences probs).

(** A sentence right-aligned in [l] positions, as the slice assignment
    leaves it on a block of zeros. *)
Definition pad_left {A} (l : nat) (zero : A) (rows : list A) : list A :=
  replicate (l - length rows) zero ++ rows.

(** [get_sample] gives one grammeme vector and one character vector per
    token, of the declared widths. *)
Definition sample_shape_ok (max_word_len : nat) (word_max_count : Z)
    (sentence : list word) : Prop :=
  let '(g, c) := get_sample sentence max_word_len word_max_count in
  length g = length sentence ∧ Forall (λ r, length r = grammemes_count) g ∧
  length c = length sentence ∧ Forall (λ r, length r = max_word_len) c.

(** The network answers an input of shape (n, l, _) with an array of shape
    (n, l, [classes]). *)
Definition keras_shape_ok (classes : nat) : Prop :=
  ∀ g c b,
    length (model_predict g c b) = length (cells g) ∧
    Forall (λ sentence_probs,
              length sentence_probs = dim1 g ∧
              Forall (λ p, length p = classes) sentence_probs)
           (model_predict g c b).

End Inference.

(** *** [count_samples] and [train] *)

(** The code points that [str.strip()] removes. *)
Definition is_space (c : char) : bool :=
  bool_decide (c ∈ [9; 10; 11; 12; 13; 28; 29; 30; 31; 32; 133; 160; 5760;
                    8192; 8193; 8194; 8195; 8196; 8197; 8198; 8199; 8200;
                    8201; 8202; 8232; 8233; 8239; 8287; 12288]%N).

(** [len(line.strip()) == 0] *)
Definition is_blank (line : list char) : bool := forallb is_space line.

(** [count_samples]; a file is the list of its lines, and a file that is
    not there makes [open] raise. *)
Fixpoint count_samples (corpus : gmap string (list (list char)))
    (file_names : list string) : option nat :=
  match file_names with
  | [] => Some 0
  | filename :: rest =>
      lines ← corpus !! filename;
      n ← count_samples corpus rest;
      Some (length (filter (λ line, is_blank line = true) lines) + n)
  end.

(** The fields of [TrainConfig] and [BuildModelConfig] that [train] reads
    (rnnmorph/config.py is not among the sources). *)
Record TrainConfig := {
  random_seed : Z;
  val_part : float;
  epochs_num : Z;
  num_words_in_batch : Z;
  dump_model_freq : Z;
  model_config_path : string;
  model_weights_path : string
}.

Record BuildModelConfig := {
  char_max_word_length : nat;
  word_max_count : Z;
  use_word_embeddings : bool;
  use_gram : bool;
  use_chars : bool
}.

(** What [train] unpacks from the batch generator. *)
Record train_batch := {
  tb_words : list (list Z);
  tb_grammemes : array3 float;
  tb_chars : array3 Z;
  tb_y : list (list Z)
}.

Inductive input :=
| Words (a : list (list Z))
| Grammemes (a : array3 float)
| Chars (a : array3 Z).

(** What [train] does to the network, the checkpoint and the console, in
    order. *)
Inductive event :=
| Fit (inputs : list input) (y : list (list Z)) (batch_size : Z)
| Save (model_config_path model_weights_path : string)
| Evaluate (word_accuracy sentence_accuracy : Q).

Section Train.

(** The corpus files, the draw of [np.random.permutation(n)] after
    [np.random.seed(seed)], the batches that a [BatchGenerator] built in a
    given big epoch over given files and indices yields (to [train] and to
    [evaluate], each with the tuples it unpacks), and the prediction
    function of the network after a given history. *)
Variable corpus : gmap string (list (list char)).
Variable permutation : Z → nat → list nat.
Variable train_generator : list string → list nat → nat → list train_batch.
Variable eval_generator : list string → list nat → nat → list eval_batch.
Variable network : list event → predictor.

Definition emit (ev : event) : Py.M (list event) unit :=
  Py.modify (λ log, log ++ [ev]).

(** The body of [for epoch, (words, grammemes, chars, y) in ...]. *)
Definition train_on_batch (train_config : TrainConfig)
    (build_config : BuildModelConfig) (epoch : nat) (b : train_batch)
  : Py.M (list event) unit :=
  let max_sentence_length := dim1 (tb_grammemes b) in
  if decide (max_sentence_length = 0) then Py.raise Py.ZeroDivisionError
  else
    let batch_size :=
      (num_words_in_batch train_config `div` Z.of_nat max_sentence_length)%Z in
    let inputs :=
      (if use_word_embeddings build_config then [Words (tb_words b)] else [])
      ++ (if use_gram build_config then [Grammemes (tb_grammemes b)] else [])
      ++ (if use_chars build_config then [Chars (tb_chars b)] else []) in
    (emit (Fit inputs (tb_y b) batch_size) ;;;
     if decide (epoch ≠ 0) then
       if decide (dump_model_freq train_config = 0%Z)
       then Py.raise Py.ZeroDivisionError
       else if decide ((Z.of_nat epoch
                          `mod` dump_model_freq train_config)%Z = 0%Z)
            then emit (Save (model_config_path train_config)
                            (model_weights_path train_config))
            else Py.ret tt
     else Py.ret tt)%py.

Fixpoint train_on_batches (train_config : TrainConfig)
    (build_config : BuildModelConfig) (epoch : nat) (bs : list train_batch)
  : Py.M (list event) unit :=
  match bs with
  | [] => Py.ret tt
  | b :: bs' =>
      (train_on_batch train_config build_config epoch b ;;;
       train_on_batches train_config build_config (S epoch) bs')%py
  end.

(** The call [self.evaluate(...)] at the end of a big epoch. *)
Definition run_evaluate (train_config : TrainConfig)
    (batches : list eval_batch) : Py.M (list event) unit := λ log,
  match evaluate (network log) (num_words_in_batch train_config) batches with
  | Some (word_accuracy, sentence_accuracy) =>
      (inr tt, log ++ [Evaluate word_accuracy sentence_accuracy])
  | None => (inl Py.Exception, log)
  end.

(** The body of [for big_epoch in range(...)], over the remaining values
    of [big_epoch]. *)
Fixpoint train_big_epochs (file_names : list string)
    (train_config : TrainConfig) (build_config : BuildModelConfig)
    (train_idx val_idx : list nat) (big_epochs : list nat)
  : Py.M (list event) unit :=
  match big_epochs with
  | [] => Py.ret tt
  | big_epoch :: rest =>
      (train_on_batches train_config build_config 0
         (train_generator file_names train_idx big_epoch) ;;;
       run_evaluate train_config
         (eval_generator file_names val_idx big_epoch) ;;;
       train_big_epochs file_names train_config build_config
         train_idx val_idx rest)%py
  end.

Definition train (file_names : list string) (train_config : TrainConfig)
    (build_config : BuildModelConfig) : Py.M (list event) unit :=
  (sample_counter <- Py.lift Py.Exception (count_samples corpus file_names) ;;
   idx <- Py.lift Py.Exception
     (get_split (permutation (random_seed train_config) sample_counter)
        sample_counter (val_part train_config)) ;;
   train_big_epochs file_names train_config build_config idx.1 idx.2
     (seq 0 (Z.to_nat (epochs_num train_config))))%py.

(** The events of one pass in closed form.  [save_due] tells whether the
    checkpoint is written after the batch numbered [epoch] (from 0) of the
    pass. *)
Definition save_due (train_config : TrainConfig) (epoch : nat) : bool :=
  bool_decide (epoch ≠ 0 ∧
               (Z.of_nat epoch `mod` dump_model_freq train_config)%Z = 0%Z).

Definition fit_event (train_config : TrainConfig)
    (build_config : BuildModelConfig) (b : train_batch) : event :=
  Fit ((if use_word_embeddings build_config then [Words (tb_words b)] else [])
       ++ (if use_gram build_config then [Grammemes (tb_grammemes b)] else [])
       ++ (if use_chars build_config then [Chars (tb_chars b)] else []))
      (tb_y b)
      (num_words_in_batch train_config
         `div` Z.of_nat (dim1 (tb_grammemes b)))%Z.

Fixpoint pass_events (train_config : TrainConfig)
    (build_config : BuildModelConfig) (epoch : nat) (bs : list train_batch)
  : list event :=
  match bs with
  | [] => []
  | b :: bs' =>
      fit_event train_config build_config b
      :: (if save_due train_config epoch
          then [Save (model_config_path train_config)
                     (model_weights_path train_config)]
          else [])
      ++ pass_events train_config build_config (S epoch) bs'
  end.

(** The events of a whole run in closed form: for each big epoch its pass,
    then its evaluation with the accuracies it printed. *)
Fixpoint run_events (train_config : TrainConfig)
    (build_config : BuildModelConfig) (file_names : list string)
    (train_idx : list nat) (big_epochs : list nat) (printed : list (Q * Q))
  : list event :=
  match big_epochs, printed with
  | big_epoch :: rest, acc :: printed' =>
      pass_events train_config build_config 0
        (train_generator file_names train_idx big_epoch)
      ++ [Evaluate acc.1 acc.2]
      ++ run_events train_config build_config file_names train_idx rest
           printed'
  | _, _ => []
  end.

Definition is_save (ev : event) : bool :=
  match ev with Save _ _ => true | _ => false end.

End Train.

(** *** [prepare] *)

Section Prepare.

(** [GrammemeVectorizer] and [Loader] are not among the sources.  A
    vectorizer is an opaque value with its [is_empty]; [load] replaces the
    state of the object by what the file holds (or raises), [save] writes
    it, and [Loader().parse_corpora] reads the corpus files. *)
Context {GrammemeVectorizer File : Type}.
Variable gv_is_empty : GrammemeVectorizer → bool.
Variable gv_load : File → option GrammemeVectorizer.
Variable gv_save : GrammemeVectorizer → File.
Variable wv_load : File → option WordVocabulary.
Variable wv_save : WordVocabulary → File.
Variable parse_corpora :
  option (list string) → gmap string File →
  option (GrammemeVectorizer * GrammemeVectorizer * WordVocabulary).

(** Modelled from the spec: [WordVocabulary.is_empty]. *)
Definition wv_is_empty (v : WordVocabulary) : bool :=
  bool_decide (words v = []).

(** The three attributes of [self] that [prepare] touches. *)
Record analysis := {
  grammeme_vectorizer_input : GrammemeVectorizer;
  grammeme_vectorizer_output : GrammemeVectorizer;
  word_vocabulary : WordVocabulary
}.

Inductive io :=
| LoadDump (path : string)
| ParseCorpora (file_names : option (list string))
| Dump (path : string).

Record state := {
  self : analysis;
  fs : gmap string File;
  trace : list io
}.

(** [if os.path.exists(path): obj.load(path)], for each of the three
    attributes. *)
Definition load_if_exists {A} (load : File → option A)
    (set : A → analysis → analysis) (path : string) : Py.M state unit :=
  λ s,
  match fs s !! path with
  | Some f =>
      match load f with
      | Some a => (inr tt, {| self := set a (self s); fs := fs s;
                              trace := trace s ++ [LoadDump path] |})
      | None => (inl Py.Exception, s)
      end
  | None => (inr tt, s)
  end.

Definition set_input (g : GrammemeVectorizer) (a : analysis) : analysis :=
  {| grammeme_vectorizer_input := g;
     grammeme_vectorizer_output := grammeme_vectorizer_output a;
     word_vocabulary := word_vocabulary a |}.

Definition set_output (g : GrammemeVectorizer) (a : analysis) : analysis :=
  {| grammeme_vectorizer_input := grammeme_vectorizer_input a;
     grammeme_vectorizer_output := g;
     word_vocabulary := word_vocabulary a |}.

Definition set_vocabulary (v : WordVocabulary) (a : analysis) : analysis :=
  {| grammeme_vectorizer_input := grammeme_vectorizer_input a;
     grammeme_vectorizer_output := grammeme_vectorizer_output a;
     word_vocabulary := v |}.

(** [self.a, self.b, self.c = Loader().parse_corpora(file_names)] *)
Definition rebuild (file_names : option (list string)) : Py.M state unit :=
  λ s,
  match parse_corpora file_names (fs s) with
  | Some (gi, go, wv) =>
      (inr tt, {| self := {| grammeme_vectorizer_input := gi;
                             grammeme_vectorizer_output := go;
                             word_vocabulary := wv |};
                  fs := fs s;
                  trace := trace s ++ [ParseCorpora file_names] |})
  | None => (inl Py.Exception, s)
  end.

(** [obj.save(path)] *)
Definition dump {A} (save : A → File) (get : analysis → A) (path : string)
  : Py.M state unit :=
  Py.modify (λ s,
    {| self := self s; fs := <[path := save (get (self s))]> (fs s);
       trace := trace s ++ [Dump path] |}).

Definition prepare (gram_dump_path_input gram_dump_path_output
    word_vocabulary_dump_path : string) (file_names : option (list string))
  : Py.M state unit :=
  (load_if_exists gv_load set_input gram_dump_path_input ;;;
   load_if_exists gv_load set_output gram_dump_path_output ;;;
   load_if_exists wv_load set_vocabulary word_vocabulary_dump_path ;;;
   s <- Py.get ;;
   if gv_is_empty (grammeme_vectorizer_input (self s))
      || gv_is_empty (grammeme_vectorizer_output (self s))
      || wv_is_empty (word_vocabulary (self s))
   then
     rebuild file_names ;;;
     dump gv_save grammeme_vectorizer_input gram_dump_path_input ;;;
     dump gv_save grammeme_vectorizer_output gram_dump_path_output ;;;
     dump wv_save word_vocabulary word_vocabulary_dump_path
   else Py.ret tt)%py.

(** The loads that [prepare] makes on a given file system. *)
Definition loads (files : gmap string File) (paths : list string) : list io :=
  LoadDump <$> filter (λ p, is_Some (files !! p)) paths.

(** A dump that is there and loads to a non-empty value. *)
Definition usable {A} (load : File → option A) (is_empty : A → bool)
    (files : gmap string File) (path : string) (a : A) : Prop :=
  ∃ f, files !! path = Some f ∧ load f = Some a ∧ is_empty a = false.

(** A dump that is not there, or loads without raising. *)
Definition loadable {A} (load : File → option A)
    (files : gmap string File) (path : string) : Prop :=
  ∀ f, files !! path = Some f → is_Some (load f).

End Prepare.

End Tagger.

(** ** Concrete inputs used in the examples below *)

Module Examples.

Import CharEmbeddings.

(** The alphabet "ab" and the alphabet "abc". *)
Definition ab : list char := [97; 98]%N.
Definition abc : list char := [97; 98; 99]%N.

Definition chars_layer : layer := build_dense_chars_layer 5 3 4 8 8 0.

(** The vocabulary "ab", "b", "a". *)
Definition vocabulary3 : WordVocabulary :=
  {| words := [[97; 98]%N; [98]%N; [97]%N] |}.

(** A world where the character model was saved before. *)
Definition cached_world : world :=
  {| heap := {[ 0 := vocabulary3 ]};
     files := {[ "char.yaml"; "char.h5" ]};
     log := [] |}.

(** A world without any saved model. *)
Definition fresh_world : world :=
  {| heap := {[ 0 := vocabulary3 ]}; files := ∅; log := [] |}.

(** A batch of two sentences, of two words and of one word. *)
Definition two_sentences : list (list word) :=
  [[[97; 98]%N; [98]%N]; [[97]%N]].

(** A sample vectorizer with one grammeme feature per token. *)
Definition one_feature_sample (sentence : list word) (max_word_len : nat)
    (word_count : Z) : list (list float) * list (list Z) :=
  ((λ _, [1%float]) <$> sentence,
   encoding ab max_word_len <$> sentence).

(** A network that puts the distribution (1/4, 1/2, 1/4) over three
    classes on every position of its input. *)
Definition fixed_network : Tagger.predictor := λ g c _,
  (λ _ : list (list float),
     replicate (Tagger.dim1 g) [0.25; 0.5; 0.25]%float) <$> Tagger.cells g.

(** A distribution over [classes] classes with all its mass on [k]. *)
Definition one_hot (classes k : nat) : list float :=
  (λ i, if i =? k then 1%float else 0%float) <$> seq 0 classes.

(** The evaluation example: gold classes [[0,0,5],[0,7,3]] in one batch,
    and a network whose top classes are [[0,0,5],[0,7,9]]. *)
Definition gold_batch : Tagger.eval_batch :=
  {| Tagger.eb_grammemes := Tagger.np_zeros3 0%float 2 3 1;
     Tagger.eb_chars := Tagger.np_zeros3 0%Z 2 3 30;
     Tagger.eb_y := [[0; 0; 5]; [0; 7; 3]]%Z |}.

Definition one_hot_network : Tagger.predictor := λ g c _,
  [[one_hot 10 0; one_hot 10 0; one_hot 10 5];
   [one_hot 10 0; one_hot 10 7; one_hot 10 9]].

(** A training run: a corpus of three sentences ("a", "b", "a", one word
    each), one big epoch of three batches, a checkpoint frequency of 5. *)
Definition corpus : gmap string (list (list char)) :=
  {[ "corpus.txt" := [[97; 10]; [10]; [98; 10]; [10]; [97; 10]; [10]]%N ]}.

Definition reversed (seed : Z) (n : nat) : list nat := reverse (seq 0 n).

Definition one_word_batch : Tagger.train_batch :=
  {| Tagger.tb_words := [[0%Z]];
     Tagger.tb_grammemes := Tagger.np_zeros3 0%float 1 1 1;
     Tagger.tb_chars := Tagger.np_zeros3 0%Z 1 1 30;
     Tagger.tb_y := [[5%Z]] |}.

Definition three_batches (file_names : list string) (indices : list nat)
    (big_epoch : nat) : list Tagger.train_batch :=
  [one_word_batch; one_word_batch; one_word_batch].

Definition gold_batches (file_names : list string) (indices : list nat)
    (big_epoch : nat) : list Tagger.eval_batch :=
  [gold_batch].

Definition train_config : Tagger.TrainConfig :=
  {| Tagger.random_seed := 42;
     Tagger.val_part := 0.5;
     Tagger.epochs_num := 1;
     Tagger.num_words_in_batch := 100;
     Tagger.dump_model_freq := 5;
     Tagger.model_config_path := "model.yaml";
     Tagger.model_weights_path := "model.h5" |}.

Definition build_config : Tagger.BuildModelConfig :=
  {| Tagger.char_max_word_length := 30;
     Tagger.word_max_count := 10000;
     Tagger.use_word_embeddings := false;
     Tagger.use_gram := true;
     Tagger.use_chars := true |}.

(** A toy instance of the preparation step: a vectorizer is the list of
    its class numbers, a file holds a list of numbers, a vocabulary is
    dumped as the code points of its one-letter words. *)
Definition toy_gv_is_empty (g : list nat) : bool := bool_decide (g = []).
Definition toy_gv_load (f : list nat) : option (list nat) := Some f.
Definition toy_gv_save (g : list nat) : list nat := g.
Definition toy_wv_load (f : list nat) : option WordVocabulary :=
  Some {| words := (λ n, [N.of_nat n]) <$> f |}.
Definition toy_wv_save (v : WordVocabulary) : list nat :=
  (λ w : word, N.to_nat (default 0%N (head w))) <$> words v.
Definition toy_parse_corpora (file_names : option (list string))
    (files : gmap string (list nat))
  : option (list nat * list nat * WordVocabulary) :=
  Some ([1], [2], {| words := [[97]%N] |}).

(** An analyser whose input vectorizer is already populated, and a disk
    that holds the output and vocabulary dumps but no input dump. *)
Definition stale_state : @Tagger.state (list nat) (list nat) :=
  {| Tagger.self :=
       {| Tagger.grammeme_vectorizer_input := [7];
          Tagger.grammeme_vectorizer_output := [];
          Tagger.word_vocabulary := {| words := [] |} |};
     Tagger.fs := {[ "out.json" := [3]; "vocab.txt" := [98] ]};
     Tagger.trace := [] |}.

(** A freshly constructed analyser on the same disk. *)
Definition new_state : @Tagger.state (list nat) (list nat) :=
  {| Tagger.self :=
       {| Tagger.grammeme_vectorizer_input := [];
          Tagger.grammeme_vectorizer_output := [];
          Tagger.word_vocabulary := {| words := [] |} |};
     Tagger.fs := {[ "out.json" := [3]; "vocab.txt" := [98] ]};
     Tagger.trace := [] |}.

End Examples.

(** ** Further definitions: closed forms and inputs for the properties
    beyond the ones above *)

From Stdlib Require Import Lqa.

Module More.

Import CharEmbeddings.

(** A word that [prepare_words] encodes without loss: it fits the width,
    and each of its characters is in the alphabet at a position other than
    0 (position 0 is shared with the padding). *)
Definition lossless (CHAR_SET : list char) (max_word_length : nat)
    (w : word) : Prop :=
  length w ≤ max_word_length ∧
  Forall (λ ch, ch ∈ CHAR_SET ∧ char_index CHAR_SET ch ≠ 0%Z) w.

(** The paths that a call of [get_char_model] may write. *)
Definition cache_paths (model_weights_path model_config_path : option string)
  : gset string :=
  match model_config_path, model_weights_path with
  | Some c, Some w => {[c; w]}
  | _, _ => ∅
  end.

(** Computations that only add files, and only among [paths]. *)
Definition writes_within {A} (paths : gset string) (m : Py.M world A)
  : Prop :=
  ∀ w, files w ⊆ files (m w).2 ∧ files (m w).2 ⊆ files w ∪ paths.

(** The two writes of [CharEmbeddingsModel.save], made when both paths are
    given. *)
Definition save_events (model_weights_path model_config_path : option string)
  : list event :=
  match model_config_path, model_weights_path with
  | Some c, Some w => [KWriteConfig c; KSaveWeights w]
  | _, _ => []
  end.

(** A world whose vocabulary has an empty word in second place. *)
Definition gapped_world : world :=
  {| heap := {[ 0 := {| words := [[97]%N; []; [98]%N] |} ]};
     files := ∅; log := [] |}.

End More.


Module MoreTagger.

Import CharEmbeddings Tagger.

(** What the four counters of [evaluate] satisfy at every point of the
    loops: errors are counted among the scored words and sentences, a
    sentence in error has a word in error, and none is in error unless a
    word is. *)
Definition coherent (c : counters) : Prop :=
  word_errors c ≤ word_count c ∧
  sentence_errors c ≤ sentence_count c ∧
  sentence_errors c ≤ word_errors c ∧
  (sentence_errors c = 0 → word_errors c = 0).

(** A batch whose gold classes are all 0. *)
Definition all_pad (b : eval_batch) : Prop :=
  Forall (Forall (λ num, num = 0%Z)) (eb_y b).

Definition is_fit (ev : event) : bool :=
  match ev with Fit _ _ _ => true | _ => false end.

Definition is_evaluate (ev : event) : bool :=
  match ev with Evaluate _ _ => true | _ => false end.

(** The fits that a whole run makes when nothing stops it: for each big
    epoch, one per batch of its generator, in the order of the batches. *)
Definition all_fits
    (train_generator : list string → list nat → nat → list train_batch)
    (train_config : TrainConfig) (build_config : BuildModelConfig)
    (file_names : list string) (train_idx : list nat)
    (big_epochs : list nat) : list event :=
  concat ((λ big_epoch,
             fit_event train_config build_config
               <$> train_generator file_names train_idx big_epoch)
          <$> big_epochs).

(** The lines of a corpus file in which every sentence is followed by an
    empty line. *)
Definition terminated (sentences : list (list (list char)))
  : list (list char) :=
  concat ((λ sentence, sentence ++ [[10%N]]) <$> sentences).

(** Two validation batches with the same gold classes as the evaluation
    example, in the two orders. *)
Definition second_batch : eval_batch :=
  {| eb_grammemes := np_zeros3 0%float 2 3 2;
     eb_chars := np_zeros3 0%Z 2 3 30;
     eb_y := [[0; 0; 5]; [0; 7; 3]]%Z |}.

(** The training example with a checkpoint frequency of 0. *)
Definition zero_freq_config : TrainConfig :=
  {| random_seed := 42;
     val_part := 0.5;
     epochs_num := 1;
     num_words_in_batch := 100;
     dump_model_freq := 0;
     model_config_path := "model.yaml";
     model_weights_path := "model.h5" |}.

(** A validation generator whose only batch is all padding. *)
Definition pad_batches (file_names : list string) (indices : list nat)
    (big_epoch : nat) : list eval_batch :=
  [{| eb_grammemes := np_zeros3 0%float 1 2 1;
      eb_chars := np_zeros3 0%Z 1 2 30;
      eb_y := [[0; 0]]%Z |}].

(** A network with the pad class as its only class. *)
Definition single_class_network : predictor := λ g c _,
  (λ _ : list (list float), replicate (dim1 g) [1%float]) <$> cells g.

(** A corpus of three sentences, the last one without its empty line. *)
Definition unterminated_corpus : gmap string (list (list char)) :=
  {[ "corpus.txt" := [[97; 10]; [10]; [98; 10]; [99; 10]; [10]; [97; 10]]%N ]}.

(** An analyser whose three attributes are all non-empty. *)
Definition populated {GrammemeVectorizer : Type}
    (gv_is_empty : GrammemeVectorizer → bool)
    (a : @analysis GrammemeVectorizer) : Prop :=
  gv_is_empty (grammeme_vectorizer_input a) = false ∧
  gv_is_empty (grammeme_vectorizer_output a) = false ∧
  wv_is_empty (word_vocabulary a) = false.

(** The state that the first call of the preparation example leaves, and
    a freshly constructed analyser on the disk of that state. *)
Definition first_run_state : @state (list nat) (list nat) :=
  (prepare Examples.toy_gv_is_empty Examples.toy_gv_load
     Examples.toy_gv_save Examples.toy_wv_load Examples.toy_wv_save
     Examples.toy_parse_corpora "in.json" "out.json" "vocab.txt" None
     Examples.new_state).2.

Definition second_run_state : @state (list nat) (list nat) :=
  {| self := {| grammeme_vectorizer_input := [];
                grammeme_vectorizer_output := [];
                word_vocabulary := {| words := [] |} |};
     fs := fs first_run_state;
     trace := [] |}.

End MoreTagger.

(** ** rnnmorph/model.py: [LSTMMorphoAnalysis.build] *)

Module Build.

Import CharEmbeddings.

(** The fields of [BuildModelConfig] that [build] reads, and
    [word_max_count], which [train] reads beside them
    (rnnmorph/config.py is not among the sources). *)
Record BuildModelConfig := {
  use_word_embeddings : bool;
  use_gram : bool;
  gram_dropout : float;
  gram_hidden_size : nat;
  use_chars : bool;
  char_max_word_length : nat;
  char_embedding_dim : nat;
  char_function_hidden_size : nat;
  char_function_output_size : nat;
  char_dropout : float;
  use_trained_char_embeddings : bool;
  char_model_config_path : option string;
  char_model_weights_path : option string;
  rnn_n_layers : Z;
  rnn_hidden_size : nat;
  rnn_dropout : float;
  dense_size : nat;
  dense_dropout : float;
  use_crf : bool;
  word_max_count : Z
}.

(** The part of the configuration that [train] looks at. *)
Definition train_view (config : BuildModelConfig) : Tagger.BuildModelConfig :=
  {| Tagger.char_max_word_length := char_max_word_length config;
     Tagger.word_max_count := word_max_count config;
     Tagger.use_word_embeddings := use_word_embeddings config;
     Tagger.use_gram := use_gram config;
     Tagger.use_chars := use_chars config |}.

(** Keras layers are not run; a tensor is the term that records how it
    was built.  [shape] is the [shape] argument of [Input] (without the
    batch axis), [i] in [BidirectionalLSTM] is the number in the layer
    name ['LSTM_' + str(i)]. *)
Inductive wrapped :=
| WDense (units : nat) (activation : option string)
| WDropout (rate : float)
| WBatchNormalization
| WActivation (activation : string).

#[local] Set Warnings "-register-all".

Inductive tensor :=
| Input (shape : list (option nat)) (name : string)
| Embedding (input_dim output_dim : nat) (name : string) (x : tensor)
| Dropout (rate : float) (x : tensor)
| Dense (units : nat) (activation : option string) (x : tensor)
| CharLayer (char_layer : layer) (x : tensor)
| Concatenate (xs : list tensor) (name : string)
| BidirectionalLSTM (units : nat) (dropout recurrent_dropout : float)
    (return_sequences : bool) (i : nat) (x : tensor)
| TimeDistributed (inner : wrapped) (x : tensor)
| CRF (units : nat) (sparse_target : bool) (name : string) (x : tensor).

(** The arguments of [self.model.compile]. *)
Inductive compiled :=
| CompileCrf (clipnorm : float)
| CompileSoftmax.

Record model := {
  inputs : list tensor;
  outputs : list tensor;
  compile : compiled
}.

Section Build.

Variable CHAR_SET : list char.
Variable external_ok : event → bool.

(** Of [self]: [grammeme_vectorizer_input.grammemes_count()],
    [grammeme_vectorizer_output.size()] and the reference held in
    [word_vocabulary]. *)
Variable grammemes_count : nat.
Variable output_size : nat.
Variable word_vocabulary : loc.

(** [word_embeddings.size.shape]: the [size] of an array is an [int], and
    an [int] has no attribute [shape]. *)
Definition size_shape (word_embeddings : ndarray2) : Py.M world (nat * nat) :=
  Py.raise Py.AttributeError.

(** The loop [for i in range(config.rnn_n_layers)]. *)
Definition stack_lstm (config : BuildModelConfig) (layer : tensor) : tensor :=
  fold_left
    (λ layer i,
       BidirectionalLSTM (rnn_hidden_size config) (rnn_dropout config)
         (rnn_dropout config) true i layer)
    (seq 0 (Z.to_nat (rnn_n_layers config))) layer.

(** [build]; the state is the pair ([inputs], [embeddings]) until the
    network is put together.  [embeddings[0]] on an empty list is an
    [IndexError], rendered as [Exception] like the other failing lookups.
    The import of [keras_contrib] in the CRF branch is taken to succeed. *)
Definition build (config : BuildModelConfig)
    (word_embeddings : option ndarray2) : Py.M world model :=
  (ie <- match word_embeddings with
         | Some we =>
             if use_word_embeddings config then
               let words := Input [None] "words" in
               shape <- size_shape we ;;
               let words_embedding :=
                 Embedding shape.1 shape.2 "word_embeddings" words in
               Py.ret ([], [words_embedding])
             else Py.ret ([], [])
         | None => Py.ret ([], [])
         end ;;
   ie <- Py.ret
           (if use_gram config then
              let grammemes_input :=
                Input [None; Some grammemes_count] "grammemes" in
              let grammemes_embedding :=
                Dropout (gram_dropout config) grammemes_input in
              let grammemes_embedding :=
                Dense (gram_hidden_size config) (Some "relu")
                  grammemes_embedding in
              (ie.1 ++ [grammemes_input], ie.2 ++ [grammemes_embedding])
            else ie) ;;
   ie <- (if use_chars config then
            let chars_input :=
              Input [None; Some (char_max_word_length config)] "chars" in
            let char_layer :=
              build_dense_chars_layer (char_max_word_length config)
                (length CHAR_SET + 1) (char_embedding_dim config)
                (char_function_hidden_size config)
                (char_function_output_size config) (char_dropout config) in
            char_layer <-
              (if use_trained_char_embeddings config then
                 get_char_model CHAR_SET external_ok char_layer
                   (char_max_word_length config) word_vocabulary
                   word_embeddings (char_model_weights_path config)
                   (char_model_config_path config)
                   128 0x1.999999999999ap-3%float 42
               else Py.ret char_layer) ;;
            let chars_embedding := CharLayer char_layer chars_input in
            Py.ret (ie.1 ++ [chars_input], ie.2 ++ [chars_embedding])
          else Py.ret ie) ;;
   layer <- (if decide (1 < length ie.2)
             then Py.ret (Concatenate ie.2 "LSTM_input")
             else Py.lift Py.Exception (ie.2 !! 0)) ;;
   let layer := stack_lstm config layer in
   let layer := TimeDistributed (WDense (dense_size config) None) layer in
   let layer := TimeDistributed (WDropout (dense_dropout config)) layer in
   let layer := TimeDistributed WBatchNormalization layer in
   let layer := TimeDistributed (WActivation "relu") layer in
   let num_of_classes := output_size + 1 in
   if use_crf config then
     Py.ret {| inputs := ie.1;
               outputs := [CRF num_of_classes true "crf" layer];
               compile := CompileCrf 5 |}
   else
     Py.ret {| inputs := ie.1;
               outputs := [TimeDistributed
                             (WDense num_of_classes (Some "softmax")) layer];
               compile := CompileSoftmax |})%py.

End Build.

(** The names under which a model declares its inputs, in order. *)
Definition input_name (x : tensor) : option string :=
  match x with Input _ name => Some name | _ => None end.

Definition declared (m : model) : list string := omap input_name (inputs m).

(** The arrays that [train] passes to [fit], by the name of the variable,
    in order. *)
Definition fed_name (a : Tagger.input) : string :=
  match a with
  | Tagger.Words _ => "words"
  | Tagger.Grammemes _ => "grammemes"
  | Tagger.Chars _ => "chars"
  end.

Definition fed (ev : Tagger.event) : list string :=
  match ev with
  | Tagger.Fit inputs _ _ => fed_name <$> inputs
  | _ => []
  end.

(** The recurrent layers under a tensor, and the width of an output
    layer. *)
Fixpoint lstm_layers (x : tensor) : nat :=
  match x with
  | BidirectionalLSTM _ _ _ _ _ x' => S (lstm_layers x')
  | TimeDistributed _ x' | CRF _ _ _ x' | Dropout _ x' | Dense _ _ x'
  | Embedding _ _ _ x' | CharLayer _ x' => lstm_layers x'
  | Input _ _ | Concatenate _ _ => 0
  end.

Definition head_units (x : tensor) : option nat :=
  match x with
  | CRF units _ _ _ => Some units
  | TimeDistributed (WDense units _) _ => Some units
  | _ => None
  end.

(** The configuration of the worked example: grammemes and characters,
    a character model trained beside the tagger, two recurrent layers. *)
Definition example_config : BuildModelConfig :=
  {| use_word_embeddings := false;
     use_gram := true;
     gram_dropout := 0.5;
     gram_hidden_size := 30;
     use_chars := true;
     char_max_word_length := 5;
     char_embedding_dim := 4;
     char_function_hidden_size := 8;
     char_function_output_size := 8;
     char_dropout := 0.5;
     use_trained_char_embeddings := true;
     char_model_config_path := Some "char.yaml";
     char_model_weights_path := Some "char.h5";
     rnn_n_layers := 2;
     rnn_hidden_size := 16;
     rnn_dropout := 0.5;
     dense_size := 16;
     dense_dropout := 0.5;
     use_crf := false;
     word_max_count := 10000 |}.

(** The same with no feature switched on. *)
Definition bare_config : BuildModelConfig :=
  {| use_word_embeddings := false;
     use_gram := false;
     gram_dropout := 0.5;
     gram_hidden_size := 30;
     use_chars := false;
     char_max_word_length := 5;
     char_embedding_dim := 4;
     char_function_hidden_size := 8;
     char_function_output_size := 8;
     char_dropout := 0.5;
     use_trained_char_embeddings := false;
     char_model_config_path := None;
     char_model_weights_path := None;
     rnn_n_layers := 2;
     rnn_hidden_size := 16;
     rnn_dropout := 0.5;
     dense_size := 16;
     dense_dropout := 0.5;
     use_crf := false;
     word_max_count := 10000 |}.

End Build.
(** * Properties *)

(** ** Slices, broadcasting and arg-max *)

Module PyFacts.

Import Py.

Lemma slice_index_le n i : slice_index n i ≤ n.
Proof. unfold slice_index. destruct (Z.ltb_spec i 0); lia. Qed.

Lemma slice_index_nonneg n (k : nat) :
  slice_index n (Z.of_nat k) = Nat.min k n.
Proof.
  unfold slice_index. destruct (Z.ltb_spec (Z.of_nat k) 0); [lia|].
  by rewrite Nat2Z.id.
Qed.

(** A negative bound [-k] with [0 < k] counts [k] cells from the end. *)
Lemma slice_index_neg n (k : nat) :
  0 < k → slice_index n (- Z.of_nat k) = n - k.
Proof. intros. unfold slice_index. destruct (Z.ltb_spec (- Z.of_nat k) 0); lia. Qed.

(** [-0] is [0]: the slice [l[-0:]] is the whole of [l]. *)
Lemma slice_from_minus_zero {A} (l : list A) :
  slice_from l (- Z.of_nat 0) = l.
Proof. reflexivity. Qed.

Lemma slice_upto_from {A} (l : list A) (b : Z) :
  slice_upto l b ++ slice_from l b = l.
Proof. apply take_drop. Qed.

Lemma slice_from_neg_length {A} (l : list A) (k : nat) :
  0 < k → k ≤ length l → length (slice_from l (- Z.of_nat k)) = k.
Proof.
  intros. unfold slice_from. rewrite slice_index_neg, length_drop by done. lia.
Qed.

Lemma np_broadcast_exact {A} (v : list A) : np_broadcast (length v) v = Some v.
Proof. unfold np_broadcast. by rewrite decide_True. Qed.

Lemma np_broadcast_length {A} k (v r : list A) :
  np_broadcast k v = Some r → length r = k.
Proof.
  unfold np_broadcast. case_decide; [naive_solver|].
  destruct v as [|x [|??]]; intros; simplify_eq. apply length_replicate.
Qed.

Lemma argmax_scan_lt mp max_ind i l :
  max_ind < i → argmax_scan mp max_ind i l < i + length l.
Proof.
  revert mp max_ind i. induction l as [|x l IH]; intros mp max_ind i Hi; simpl.
  - lia.
  - destruct (negb _).
    + destruct (is_nan x); [lia|]. specialize (IH x i (S i)). lia.
    + specialize (IH mp max_ind (S i)). lia.
Qed.

(** [np.argmax] answers with a position of its argument. *)
Lemma np_argmax_lt l k : np_argmax l = Some k → k < length l.
Proof.
  destruct l as [|x l]; simpl; [done|]. intros [= <-].
  destruct (is_nan x); [lia|].
  pose proof (argmax_scan_lt x 0 1 l). lia.
Qed.

Lemma np_argmax_is_Some l : l ≠ [] → is_Some (np_argmax l).
Proof. destruct l; [done|]. by eexists. Qed.

End PyFacts.

(** ** The character encoding of [prepare_words] *)

Module CharEmbeddingsFacts.

Import Py PyFacts CharEmbeddings.

Section PrepareWords.

Variable CHAR_SET : list char.

Lemma encoding_length W w : length (encoding CHAR_SET W w) = W.
Proof.
  unfold encoding.
  rewrite length_app, length_replicate, length_fmap, length_take. lia.
Qed.

Lemma assign_row_nonempty W w :
  w ≠ [] ∨ W = 0 → assign_row CHAR_SET W w = Some (encoding CHAR_SET W w).
Proof.
  intros Hw. unfold assign_row, np_set_from, slice_upto.
  rewrite length_replicate, length_fmap, slice_index_nonneg.
  destruct (decide (Nat.min (length w) W = 0)) as [Hm|Hm].
  - assert (W = 0) as ->.
    { destruct Hw as [Hw| ->]; [|done]. destruct w; [done|].
      cbn [length] in Hm. lia. }
    rewrite Nat.min_0_r. simpl. by unfold encoding.
  - rewrite slice_index_neg by lia.
    replace (W - (W - Nat.min (length w) W)) with (Nat.min (length w) W) by lia.
    unfold np_broadcast.
    rewrite decide_True by (rewrite length_take, length_fmap; lia).
    simpl. f_equal. unfold encoding. rewrite take_replicate, fmap_take.
    f_equal; [f_equal; lia|].
    destruct (decide (W ≤ length w)); [by rewrite Nat.min_l|].
    rewrite !take_ge; [done|rewrite length_fmap; lia..].
Qed.

Lemma assign_row_empty W : W ≠ 0 → assign_row CHAR_SET W [] = None.
Proof.
  intros. unfold assign_row, np_set_from. simpl.
  rewrite length_replicate. unfold slice_index. simpl.
  rewrite Nat.sub_0_r. unfold np_broadcast, slice_upto. simpl.
  rewrite take_nil. by rewrite decide_False by (simpl; lia).
Qed.

(** The loop with in-place updates fills the rows one by one. *)
Lemma prepare_loop_rows W (ws : list word) (pre : list (list Z)) :
  prepare_loop CHAR_SET W
    (pre ++ replicate (length ws) (replicate W 0%Z)) (length pre) ws
  = (rows ← mapM (assign_row CHAR_SET W) ws; Some (pre ++ rows)).
Proof.
  revert pre. induction ws as [|w ws IH]; intros pre; simpl.
  - done.
  - unfold prepare_row. rewrite list_lookup_middle by done. simpl.
    fold (assign_row CHAR_SET W w). destruct (assign_row CHAR_SET W w) as [row|]; simpl; [|done].
    rewrite insert_app_r_alt, Nat.sub_diag by done. simpl.
    replace (pre ++ row :: replicate (length ws) (replicate W 0%Z))
      with ((pre ++ [row]) ++ replicate (length ws) (replicate W 0%Z))
      by by rewrite <-app_assoc.
    replace (S (length pre)) with (length (pre ++ [row]))
      by (rewrite length_app; simpl; lia).
    rewrite IH. destruct (mapM _ ws); simpl; [|done].
    by rewrite <-app_assoc.
Qed.

Lemma prepare_words_rows (v : WordVocabulary) W :
  prepare_words CHAR_SET v W
  = (rows ← mapM (assign_row CHAR_SET W) (words v);
     Some (rows, (λ i, Z.of_nat i) <$> seq 0 (size v))).
Proof.
  unfold prepare_words, size.
  pose proof (prepare_loop_rows W (words v) []) as H. simpl in H.
  rewrite H. by destruct (mapM _ _).
Qed.

(** [prepare_words] returns whenever no word is empty (or the width is
    0). *)
Lemma prepare_words_returns (v : WordVocabulary) W :
  Forall (λ w, w ≠ [] ∨ W = 0) (words v) →
  prepare_words CHAR_SET v W
  = Some (encoding CHAR_SET W <$> words v, (λ i, Z.of_nat i) <$> seq 0 (size v)).
Proof.
  intros Hne. rewrite prepare_words_rows.
  assert (mapM (assign_row CHAR_SET W) (words v)
          = Some (encoding CHAR_SET W <$> words v)) as ->; [|done].
  apply mapM_Some_2. induction Hne; simpl; constructor; auto.
  by apply assign_row_nonempty.
Qed.

(** When it returns, every row is the closed form of its word. *)
Lemma prepare_words_inv (v : WordVocabulary) W chars y :
  prepare_words CHAR_SET v W = Some (chars, y) →
  chars = encoding CHAR_SET W <$> words v.
Proof.
  rewrite prepare_words_rows. intros H.
  destruct (mapM _ _) as [rows|] eqn:Hrows; simplify_eq/=.
  apply mapM_Some_1 in Hrows.
  induction Hrows as [|w row ws rows Hw _ IH]; simpl; [done|].
  f_equal; [|done].
  destruct (decide (w = [])) as [->|Hne].
  - destruct (decide (W = 0)) as [->|HW].
    + by rewrite assign_row_nonempty in Hw by (by right); simplify_eq.
    + by rewrite assign_row_empty in Hw.
  - rewrite assign_row_nonempty in Hw by (by left). by simplify_eq.
Qed.

End PrepareWords.

(** Rows are as wide as [max_word_length], and a word that fits is
    right-aligned behind zeros. *)
Lemma prepare_words_left_pads CHAR_SET (v : WordVocabulary) W chars y i w :
  prepare_words CHAR_SET v W = Some (chars, y) →
  words v !! i = Some w →
  ∃ row, chars !! i = Some row ∧ length row = W ∧
    (length w ≤ W →
     row = replicate (W - length w) 0%Z ++ (char_index CHAR_SET <$> w)).
Proof.
  intros ->%prepare_words_inv Hw. exists (encoding CHAR_SET W w).
  rewrite list_lookup_fmap, Hw. split_and!; [done|apply encoding_length|].
  intros. unfold encoding. by rewrite take_ge.
Qed.

(** The word "кот" (code points 1082, 1086, 1090) at width 5. *)
Lemma prepare_words_kot CHAR_SET :
  prepare_words CHAR_SET {| words := [[1082; 1086; 1090]%N] |} 5
  = Some ([[0%Z; 0%Z; char_index CHAR_SET 1082%N;
            char_index CHAR_SET 1086%N; char_index CHAR_SET 1090%N]],
          [0%Z]).
Proof.
  by rewrite prepare_words_returns by (constructor; [by left|constructor]).
Qed.

(** C2, as the code has it: when a word has more than [max_word_length]
    characters, its row holds the indices of its leading [max_word_length]
    characters and nothing else (the trailing characters are dropped); and
    [prepare_words] does return on a vocabulary without empty words. *)
Theorem prepare_words_keeps_leading_chars CHAR_SET (v : WordVocabulary) W :
  (Forall (λ w, w ≠ []) (words v) → is_Some (prepare_words CHAR_SET v W)) ∧
  (∀ chars y i w,
     prepare_words CHAR_SET v W = Some (chars, y) →
     words v !! i = Some w →
     W < length w →
     chars !! i = Some (char_index CHAR_SET <$> take W w) ∧
     length (char_index CHAR_SET <$> take W w) = W).
Proof.
  split.
  - intros H. rewrite prepare_words_returns; [by eexists|].
    eapply Forall_impl; [exact H|]. by left.
  - intros chars y i w ->%prepare_words_inv Hw Hlen.
    rewrite list_lookup_fmap, Hw. simpl. unfold encoding.
    replace (W - length w) with 0 by lia. simpl.
    split; [done|]. rewrite length_fmap, length_take. lia.
Qed.

Lemma prepare_words_keeps_leading_chars_witness :
  is_Some (prepare_words Examples.abc {| words := [Examples.abc] |} 2) ∧
  [[0; 1]%Z] !! 0
  = Some (char_index Examples.abc <$> take 2 Examples.abc) ∧
  length (char_index Examples.abc <$> take 2 Examples.abc) = 2.
Proof.
  split.
  - apply (prepare_words_keeps_leading_chars Examples.abc
             {| words := [Examples.abc] |} 2).
    repeat constructor. discriminate.
  - apply (proj2 (prepare_words_keeps_leading_chars Examples.abc
                    {| words := [Examples.abc] |} 2)
             [[0; 1]%Z] [0%Z] 0 Examples.abc);
      [reflexivity | reflexivity | simpl; lia].
Defined.

(** C2 as the specification states it fails: in the alphabet "abc", the
    word "abc" at width 2 is encoded as the indices of "ab", not of the
    trailing "bc". *)
Lemma prepare_words_trailing_counterexample :
  ∃ chars y,
    prepare_words Examples.abc {| words := [Examples.abc] |} 2
      = Some (chars, y) ∧
    chars !! 0 = Some [0; 1]%Z ∧
    spec_trailing_encoding Examples.abc 2 Examples.abc = [1; 2]%Z ∧
    chars !! 0 ≠ Some (spec_trailing_encoding Examples.abc 2 Examples.abc).
Proof. exists [[0; 1]%Z], [0%Z]. by vm_compute. Qed.

(** C8 at its failing input: an empty word makes the slice assignment
    [chars[i, -0:] = []] cover the whole row, and [prepare_words] raises
    instead of leaving a row of zeros.  This is the only way for it to
    raise: it does so exactly when the vocabulary holds an empty word and
    [max_word_length] is not 0. *)
Theorem prepare_words_raises_on_empty_word CHAR_SET (v : WordVocabulary) W :
  prepare_words CHAR_SET v W = None ↔ [] ∈ words v ∧ W ≠ 0.
Proof.
  split.
  - intros Hnone.
    destruct (decide ([] ∈ words v ∧ W ≠ 0)) as [|Hno]; [done|].
    rewrite prepare_words_returns in Hnone; [done|].
    apply Forall_forall. intros w Hw.
    destruct (decide (w = [])) as [->|]; [|by left].
    destruct (decide (W = 0)); [by right|]. by destruct Hno.
  - intros [Hin HW]. rewrite prepare_words_rows.
    assert (mapM (assign_row CHAR_SET W) (words v) = None) as ->; [|done].
    apply mapM_None_2, Exists_exists. exists []. split; [done|].
    by apply assign_row_empty.
Qed.

Lemma prepare_words_raises_on_empty_word_witness :
  prepare_words Examples.abc {| words := [[]] |} 5 = None.
Proof.
  apply prepare_words_raises_on_empty_word. split; [|lia].
  simpl. apply list_elem_of_here.
Defined.

(** *** [get_char_model] *)

Section GetCharModel.

Variable CHAR_SET : list char.
Variable external_ok : event → bool.

Lemma preserves_heap_ret {A} (a : A) : preserves_heap (Py.ret a).
Proof. by intros w. Qed.

Lemma preserves_heap_raise {A} e : preserves_heap (@Py.raise world A e).
Proof. by intros w. Qed.

Lemma preserves_heap_lift {A} e (o : option A) : preserves_heap (Py.lift e o).
Proof. by destruct o. Qed.

Lemma preserves_heap_bind {A B} (m : Py.M world A) (k : A → Py.M world B) :
  preserves_heap m → (∀ a, preserves_heap (k a)) → preserves_heap (Py.bind m k).
Proof.
  intros Hm Hk w. unfold Py.bind. specialize (Hm w).
  destruct (m w) as [[e|a] w1]; simpl in *; [done|].
  by rewrite Hk.
Qed.

Lemma preserves_heap_external ev : preserves_heap (external external_ok ev).
Proof. intros w. unfold external. by destruct (external_ok ev). Qed.

Lemma preserves_heap_create_file path : preserves_heap (create_file path).
Proof. by intros w. Qed.

Lemma preserves_heap_read l : preserves_heap (read l).
Proof. intros w. unfold read. by destruct (heap w !! l). Qed.

Lemma preserves_heap_exists path : preserves_heap (exists_ path).
Proof. by intros w. Qed.

Create HintDb heap_frame.
#[local] Hint Resolve preserves_heap_ret preserves_heap_raise
  preserves_heap_lift preserves_heap_external preserves_heap_create_file
  preserves_heap_read preserves_heap_exists : heap_frame.

Ltac frame :=
  repeat first
    [ apply preserves_heap_bind; [|intros ?]
    | solve [auto with heap_frame] ].

Lemma preserves_heap_load c wt : preserves_heap (load external_ok c wt).
Proof. unfold load. frame. Qed.

Lemma preserves_heap_build cl n d m : preserves_heap (build external_ok cl n d m).
Proof. unfold build. frame. Qed.

Lemma preserves_heap_train l vp seed bs m :
  preserves_heap (train CHAR_SET external_ok l vp seed bs m).
Proof. unfold train. frame. Qed.

Lemma preserves_heap_save c wt : preserves_heap (save external_ok c wt).
Proof. unfold save. frame. Qed.

#[local] Hint Resolve preserves_heap_load preserves_heap_build
  preserves_heap_train preserves_heap_save : heap_frame.

(** The training branch copies the vocabulary to a fresh object and, once
    the shape of the embedding matrix is read, shrinks the copy; no other
    object changes. *)
Lemma train_char_model_heap cl mwl l emb mwp mcp bs vp seed (w : world) v :
  heap w !! l = Some v →
  let w' := (train_char_model CHAR_SET external_ok cl mwl l emb mwp mcp
               bs vp seed w).2 in
  let l' := fresh (dom (heap w)) in
  heap w' = <[l' := from_option (λ e, shrink (shape0 e) v) v emb]> (heap w).
Proof.
  intros Hv w' l'. subst w'. unfold train_char_model.
  unfold Py.bind at 1. unfold deepcopy. rewrite Hv. fold l'.
  set (w1 := {| heap := <[l':=v]> (heap w); files := files w; log := log w |}).
  destruct emb as [e|]; simpl; [|done].
  unfold Py.bind at 1. simpl.
  unfold Py.bind at 1. simpl.
  set (w2 := {| heap := _; files := _; log := _ |}).
  assert (heap w2 = <[l' := shrink (shape0 e) v]> (heap w)) as <-.
  { subst w2. simpl. apply map_eq. intros j.
    destruct (decide (j = l')) as [->|Hne].
    - by rewrite lookup_alter_eq, !lookup_insert_eq.
    - by rewrite lookup_alter_ne, !lookup_insert_ne. }
  assert (preserves_heap
    (v0 <- read l';;
     char_layer <- build external_ok cl (size v0) (shape1 e) mwl;;
     train CHAR_SET external_ok l' vp seed bs mwl;;;
     match mcp with
     | Some c => match mwp with Some wt => save external_ok c wt
                 | None => Py.ret () end
     | None => Py.ret ()
     end;;; Py.ret char_layer)%py) as H.
  { frame. destruct mcp, mwp; auto with heap_frame. }
  apply H.
Qed.

End GetCharModel.

(** C6: [get_char_model] is gated by the presence of the config file.  When
    that file exists and the weights file exists too, the only call made is
    the load of that pair (nothing is built, fitted or written); when the
    config file exists and the weights file does not, the assertion fails at
    once and nothing has happened; only when there is no config file does the
    training branch run. *)
Theorem get_char_model_presence_gated CHAR_SET external_ok cl mwl l emb
    (mwp mcp : option string) bs vp seed (w : world) :
  (∀ c wt, mcp = Some c → c ∈ files w → mwp = Some wt → wt ∈ files w →
     get_char_model CHAR_SET external_ok cl mwl l emb mwp mcp bs vp seed w
     = (if external_ok (KLoad c wt) then inr (LoadedChars c wt)
        else inl Py.Exception,
        {| heap := heap w; files := files w;
           log := log w ++ [KLoad c wt] |})) ∧
  (∀ c, mcp = Some c → c ∈ files w →
     (∀ wt, mwp = Some wt → wt ∉ files w) →
     get_char_model CHAR_SET external_ok cl mwl l emb mwp mcp bs vp seed w
     = (inl Py.AssertionError, w)) ∧
  ((∀ c, mcp = Some c → c ∉ files w) →
     get_char_model CHAR_SET external_ok cl mwl l emb mwp mcp bs vp seed w
     = train_char_model CHAR_SET external_ok cl mwl l emb mwp mcp
         bs vp seed w).
Proof.
  unfold get_char_model, Py.bind, exists_. split_and!.
  - intros c wt -> Hc -> Hwt. rewrite !bool_decide_eq_true_2 by done.
    unfold load, Py.bind, external, Py.ret.
    by destruct (external_ok _).
  - intros c -> Hc Hno. rewrite bool_decide_eq_true_2 by done.
    destruct mwp as [wt|]; [|done].
    by rewrite bool_decide_eq_false_2 by by apply Hno.
  - intros Hno. destruct mcp as [c|]; [|done].
    by rewrite bool_decide_eq_false_2 by by apply Hno.
Qed.

Lemma get_char_model_presence_gated_witness :
  get_char_model Examples.ab (λ _, true) Examples.chars_layer 5 0 None
    (Some "char.h5") (Some "char.yaml") 128 0 42 Examples.cached_world
  = (inr (LoadedChars "char.yaml" "char.h5"),
     {| heap := heap Examples.cached_world;
        files := files Examples.cached_world;
        log := [KLoad "char.yaml" "char.h5"] |}).
Proof.
  apply (proj1 (get_char_model_presence_gated Examples.ab (λ _, true)
                  Examples.chars_layer 5 0 None (Some "char.h5")
                  (Some "char.yaml") 128 0 42 Examples.cached_world)
           "char.yaml" "char.h5" eq_refl
           ltac:(unfold Examples.cached_world; simpl; set_solver)
           eq_refl
           ltac:(unfold Examples.cached_world; simpl; set_solver)).
Defined.

(** C9: in the training branch the caller's vocabulary is left as it was,
    whatever the outcome of the call; so is every other object that was
    there; and the shrink to the row count of the embedding matrix lands on
    a copy at a fresh reference. *)
Theorem get_char_model_keeps_vocabulary CHAR_SET external_ok cl mwl l emb
    mwp mcp bs vp seed (w : world) v :
  heap w !! l = Some v →
  (∀ c, mcp = Some c → c ∉ files w) →
  let w' := (get_char_model CHAR_SET external_ok cl mwl l emb mwp mcp
               bs vp seed w).2 in
  heap w' !! l = Some v ∧
  (∀ j u, heap w !! j = Some u → heap w' !! j = Some u) ∧
  (∀ e, emb = Some e →
     ∃ l', l' ≠ l ∧ heap w !! l' = None ∧
           heap w' !! l' = Some (shrink (shape0 e) v)).
Proof.
  intros Hv Hmcp w'.
  assert (w' = (train_char_model CHAR_SET external_ok cl mwl l emb mwp mcp
                  bs vp seed w).2) as Hw'.
  { subst w'. unfold get_char_model. destruct mcp as [c|]; [|done].
    unfold Py.bind at 1. unfold exists_.
    by rewrite bool_decide_eq_false_2 by by apply Hmcp. }
  pose proof (train_char_model_heap CHAR_SET external_ok cl mwl l emb mwp
                mcp bs vp seed w v Hv) as Hheap.
  simpl in Hheap. rewrite <-Hw' in Hheap. clearbody w'.
  pose proof (is_fresh (dom (heap w))) as Hfresh.
  set (l' := fresh (dom (heap w))) in *.
  assert (heap w !! l' = None) as Hnone by by apply not_elem_of_dom.
  assert (∀ j u, heap w !! j = Some u → heap w' !! j = Some u) as Hframe.
  { intros j u Hj. rewrite Hheap, lookup_insert_ne; [done|congruence]. }
  split_and!; [by apply Hframe|done|].
  intros e ->. exists l'. split_and!; [congruence|done|].
  by rewrite Hheap, lookup_insert_eq.
Qed.

Lemma get_char_model_keeps_vocabulary_witness :
  heap (get_char_model Examples.ab (λ _, true) Examples.chars_layer
          5 0 (Some {| shape0 := 2; shape1 := 16 |})
          (Some "char.h5") (Some "char.yaml") 128 0 42
          Examples.fresh_world).2 !! 0
  = Some Examples.vocabulary3 ∧
  ∃ l', l' ≠ 0 ∧
    heap (get_char_model Examples.ab (λ _, true) Examples.chars_layer
            5 0 (Some {| shape0 := 2; shape1 := 16 |})
            (Some "char.h5") (Some "char.yaml") 128 0 42
            Examples.fresh_world).2 !! l'
    = Some {| words := [[97; 98]%N; [98]%N] |}.
Proof.
  destruct (get_char_model_keeps_vocabulary Examples.ab (λ _, true)
              Examples.chars_layer 5 0
              (Some {| shape0 := 2; shape1 := 16 |})
              (Some "char.h5") (Some "char.yaml") 128 0 42
              Examples.fresh_world Examples.vocabulary3)
    as (H1 & _ & H3).
  - reflexivity.
  - intros c _. unfold Examples.fresh_world. simpl. set_solver.
  - split; [exact H1|].
    destruct (H3 _ eq_refl) as (l' & Hne & _ & Hl').
    exists l'. split; [exact Hne | exact Hl'].
Defined.

End CharEmbeddingsFacts.

(** ** The tagger: split, evaluation, inference, training, preparation *)

Module TaggerFacts.

Import Py PyFacts CharEmbeddings Tagger.

(** *** [get_split] *)

Lemma get_split_slices perm n v border :
  py_int (py_float (Z.of_nat n) * (1 - v))%float = Some border →
  get_split perm n v = Some (slice_upto perm border, slice_from perm border).
Proof. intros H. unfold get_split. by rewrite H. Qed.

(** C7: [get_split(10, 0.2)] gives 8 training and 2 validation indices;
    and for every sample count and every fraction, whenever [int(...)] is
    defined the two index lists returned are the two sides of one cut of the
    drawn permutation, so they are disjoint and together hold each of the
    [sample_counter] indices exactly once.  (The fraction 0.2 is written as
    the binary64 number that Python reads it as.) *)
Theorem get_split_partitions :
  (∀ perm, perm ≡ₚ seq 0 10 →
     ∃ train_idx val_idx,
       get_split perm 10 0x1.999999999999ap-3%float = Some (train_idx, val_idx) ∧
       length train_idx = 8 ∧ length val_idx = 2) ∧
  (∀ perm n v, perm ≡ₚ seq 0 n →
     (get_split perm n v = None
      ↔ py_int (py_float (Z.of_nat n) * (1 - v))%float = None) ∧
     (∀ train_idx val_idx,
        get_split perm n v = Some (train_idx, val_idx) →
        train_idx ++ val_idx = perm ∧
        NoDup (train_idx ++ val_idx) ∧
        (∀ i, i ∈ train_idx → i ∉ val_idx) ∧
        (∀ i, i < n ↔ i ∈ train_idx ∨ i ∈ val_idx))).
Proof.
  split.
  - intros perm Hperm.
    assert (length perm = 10) as Hlen by by rewrite Hperm.
    eexists _, _. split.
    + apply get_split_slices with (border := 8%Z). by vm_compute.
    + unfold slice_upto, slice_from.
      change 8%Z with (Z.of_nat 8). rewrite slice_index_nonneg, Hlen.
      rewrite length_take, length_drop, Hlen. done.
  - intros perm n v Hperm. split.
    + unfold get_split. by destruct (py_int _).
    + intros train_idx val_idx. unfold get_split.
      destruct (py_int _) as [border|]; [|done]. intros [= <- <-].
      assert (NoDup perm) as Hnd by (rewrite Hperm; apply NoDup_seq).
      rewrite slice_upto_from. split_and!; [done|done| |].
      * rewrite <-(slice_upto_from perm border) in Hnd.
        apply NoDup_app in Hnd as (_ & Hdisj & _). exact Hdisj.
      * intros i. rewrite <-elem_of_app, slice_upto_from, Hperm, elem_of_seq. lia.
Qed.

Lemma get_split_partitions_witness :
  ∃ train_idx val_idx,
    get_split (reverse (seq 0 10)) 10 0x1.999999999999ap-3%float
      = Some (train_idx, val_idx) ∧
    length train_idx = 8 ∧ length val_idx = 2.
Proof.
  apply (proj1 get_split_partitions (reverse (seq 0 10))).
  apply reverse_Permutation.
Defined.

(** *** [evaluate] *)

Lemma slice_from_nonneg {A} (l : list A) (k : nat) :
  slice_from l (Z.of_nat k) = drop k l.
Proof.
  unfold slice_from. rewrite slice_index_nonneg.
  destruct (decide (k ≤ length l)); [by rewrite Nat.min_l|].
  rewrite Nat.min_r, !drop_ge by lia. done.
Qed.

Lemma mismatches_cons tag predicted_tag pairs :
  mismatches ((tag, predicted_tag) :: pairs)
  = (if decide (tag ≠ Z.of_nat predicted_tag) then 1 else 0) + mismatches pairs.
Proof. unfold mismatches. rewrite filter_cons. simpl. by case_decide. Qed.

(** The loop over the scored tokens counts them and their mismatches. *)
Lemma compare_tags_fold pairs wc we has_errors :
  fold_left compare_tags pairs (wc, we, has_errors)
  = (wc + length pairs, we + mismatches pairs,
     has_errors || bool_decide (mismatches pairs ≠ 0)).
Proof.
  revert wc we has_errors.
  induction pairs as [|[tag predicted_tag] pairs IH]; intros wc we e.
  - unfold mismatches. simpl. by rewrite !Nat.add_0_r, orb_false_r.
  - cbn [fold_left compare_tags]. rewrite mismatches_cons.
    destruct (decide (tag ≠ Z.of_nat predicted_tag)); rewrite IH; cbn [length].
    + rewrite (bool_decide_eq_true_2 (1 + mismatches pairs ≠ 0)) by lia.
      rewrite orb_true_r. f_equal. f_equal; lia.
    + simpl. f_equal. f_equal; lia.
Qed.

Lemma np_argmax_all probs :
  Forall (λ p, p ≠ []) probs → mapM np_argmax probs = Some (top_classes probs).
Proof.
  intros H. apply mapM_Some_2. unfold top_classes.
  induction H as [|p probs Hp _ IH]; simpl; constructor; [|done].
  by destruct p.
Qed.

(** One more sentence in the running counters. *)
Lemma tally_snoc sentences pairs :
  tally (sentences ++ [pairs])
  = {| word_count := word_count (tally sentences) + length pairs;
       word_errors := word_errors (tally sentences) + mismatches pairs;
       sentence_count := S (sentence_count (tally sentences));
       sentence_errors :=
         if bool_decide (mismatches pairs ≠ 0)
         then S (sentence_errors (tally sentences))
         else sentence_errors (tally sentences) |}.
Proof.
  unfold tally. simpl.
  rewrite !sum_list_with_app, filter_app, !length_app. simpl.
  f_equal; [lia..|].
  rewrite filter_cons, filter_nil. case_bool_decide; case_decide; simpl; (done || lia).
Qed.

Lemma evaluate_sentence_tally predicted_y done_ i sentence probs :
  predicted_y !! i = Some probs →
  Forall (λ p, p ≠ []) probs →
  evaluate_sentence predicted_y (tally done_) i sentence
  = Some (tally (done_ ++ [scored sentence probs])).
Proof.
  intros Hi Hprobs. unfold evaluate_sentence. rewrite Hi. simpl.
  fold (count_zero sentence). rewrite !slice_from_nonneg.
  rewrite np_argmax_all by by apply Forall_drop. simpl.
  rewrite compare_tags_fold. simpl. rewrite tally_snoc. unfold scored.
  assert (top_classes (drop (count_zero sentence) probs)
          = drop (count_zero sentence) (top_classes probs)) as ->
    by apply fmap_drop.
  by destruct (bool_decide _).
Qed.

Lemma evaluate_sentences_tally (y : list (list Z)) pre rest done_ :
  Forall2 (λ (sentence : list Z) (probs : list (list float)),
             length probs = length sentence ∧ Forall (λ p, p ≠ []) probs)
          y rest →
  evaluate_sentences (pre ++ rest) (tally done_) (length pre) y
  = Some (tally (done_ ++ zip_with scored y rest)).
Proof.
  intros H. revert pre done_.
  induction H as [|sentence probs y rest [_ Hne] _ IH]; intros pre done_; simpl.
  - by rewrite !app_nil_r.
  - rewrite (evaluate_sentence_tally _ _ _ _ probs);
      [|by apply list_lookup_middle|done].
    simpl. rewrite (cons_middle probs pre rest), app_assoc.
    replace (S (length pre)) with (length (pre ++ [probs]))
      by (rewrite length_app; simpl; lia).
    rewrite IH. by rewrite <-app_assoc.
Qed.

Lemma evaluate_batches_tally model_predict nwb batches done_ :
  Forall (λ b, dim1 (eb_grammemes b) ≠ 0) batches →
  Forall (answers_batch model_predict nwb) batches →
  evaluate_batches model_predict nwb (tally done_) batches
  = Some (tally (done_ ++ scored_batches model_predict nwb batches)).
Proof.
  intros Hdim. revert done_.
  induction Hdim as [|b batches Hb _ IH]; intros done_ Hans; simpl.
  - unfold scored_batches. simpl. by rewrite app_nil_r.
  - apply Forall_cons in Hans as [Hans1 Hans].
    unfold evaluate_batch. rewrite decide_False by done.
    pose proof (evaluate_sentences_tally (eb_y b) [] _ done_ Hans1) as H.
    simpl in H. unfold predicted in H. rewrite H. simpl.
    rewrite IH by done. unfold scored_batches. simpl.
    by rewrite app_assoc.
Qed.

(** The zeros counted are at least the pad prefix, and exactly the pad
    prefix on a left-padded sentence. *)
Lemma leading_pad_le_count_zero sentence :
  leading_pad sentence ≤ count_zero sentence.
Proof.
  unfold count_zero. induction sentence as [|num rest IH]; simpl; [done|].
  rewrite filter_cons. case_decide; simpl; lia.
Qed.

Lemma count_zero_no_zero sentence :
  Forall (λ num, num ≠ 0%Z) sentence → count_zero sentence = 0.
Proof.
  unfold count_zero. induction 1 as [|num rest Hnum _ IH]; [done|].
  by rewrite filter_cons_False.
Qed.

Lemma count_zero_left_padded sentence :
  left_padded sentence → count_zero sentence = leading_pad sentence.
Proof.
  unfold left_padded.
  induction sentence as [|num rest IH]; simpl; [done|].
  unfold count_zero in *. rewrite filter_cons.
  destruct (decide (num = 0%Z)) as [->|Hnum]; simpl.
  - intros Hrest. by rewrite IH.
  - intros [_ Hrest]%Forall_cons. by apply count_zero_no_zero.
Qed.

Lemma evaluate_tally model_predict nwb batches :
  Forall (λ b, dim1 (eb_grammemes b) ≠ 0) batches →
  Forall (answers_batch model_predict nwb) batches →
  evaluate model_predict nwb batches
  = (let c := tally (scored_batches model_predict nwb batches) in
     word_accuracy ← accuracy (word_errors c) (word_count c);
     sentence_accuracy ← accuracy (sentence_errors c) (sentence_count c);
     Some (word_accuracy, sentence_accuracy)).
Proof.
  intros Hdim Hans. unfold evaluate.
  pose proof (evaluate_batches_tally model_predict nwb batches [] Hdim Hans) as H.
  simpl in H. unfold tally at 1 in H. simpl in H. by rewrite H.
Qed.

(** A sentence that has scored tokens counts as a sentence. *)
Lemma tally_sentences sentences :
  word_count (tally sentences) ≠ 0 → sentence_count (tally sentences) ≠ 0.
Proof. by destruct sentences. Qed.

Lemma top_classes_mapM probs classes :
  mapM np_argmax probs = Some classes →
  top_classes probs = classes ∧ Forall (λ p, p ≠ []) probs.
Proof.
  intros H%mapM_Some_1. unfold top_classes.
  induction H as [|p k probs classes Hp _ [IH1 IH2]]; [done|].
  rewrite fmap_cons, Hp, IH1. simpl. split; [done|]. constructor; [|done].
  by destruct p.
Qed.

(** C4: [evaluate] scores, in every sentence, the positions from index
    [count_zero] on, where [count_zero] is the number of positions of the
    sentence whose gold class is 0; these positions lie past the leading
    pad prefix, and are exactly the positions past it when the zeros of the
    sentence are its pad prefix.  With the mismatches and the scored tokens
    summed over all sentences of all batches, the word accuracy printed is
    1 - mismatches / scored tokens and the sentence accuracy is
    1 - sentences with a mismatch / sentences (no scored token at all is a
    division by zero).  In particular gold [[0,0,5],[0,7,3]] with top
    classes [[a,b,5],[c,7,9]] gives 2/3 and 1/2. *)
Theorem evaluate_scores_past_padding :
  (∀ model_predict nwb batches,
     Forall (λ b, dim1 (eb_grammemes b) ≠ 0) batches →
     Forall (answers_batch model_predict nwb) batches →
     let c := tally (scored_batches model_predict nwb batches) in
     evaluate model_predict nwb batches
     = if decide (word_count c = 0) then None
       else Some ((1 - inject_Z (Z.of_nat (word_errors c))
                        / inject_Z (Z.of_nat (word_count c)))%Q,
                  (1 - inject_Z (Z.of_nat (sentence_errors c))
                        / inject_Z (Z.of_nat (sentence_count c)))%Q)) ∧
  (∀ sentence,
     leading_pad sentence ≤ count_zero sentence ∧
     (left_padded sentence → count_zero sentence = leading_pad sentence)) ∧
  (∀ model_predict nwb b a0 a1 a2,
     dim1 (eb_grammemes b) ≠ 0 →
     eb_y b = [[0; 0; 5]; [0; 7; 3]]%Z →
     mapM (mapM np_argmax) (predicted model_predict nwb b)
       = Some [[a0; a1; 5]; [a2; 7; 9]] →
     ∃ word_accuracy sentence_accuracy,
       evaluate model_predict nwb [b]
         = Some (word_accuracy, sentence_accuracy) ∧
       (word_accuracy == 2 # 3)%Q ∧ (sentence_accuracy == 1 # 2)%Q).
Proof.
  split_and!.
  - intros model_predict nwb batches Hdim Hans c.
    rewrite evaluate_tally by done. fold c. unfold accuracy.
    destruct (decide (word_count c = 0)) as [|Hwc]; [done|].
    rewrite decide_False by by apply tally_sentences. done.
  - intros sentence. split.
    + apply leading_pad_le_count_zero.
    + apply count_zero_left_padded.
  - intros model_predict nwb b a0 a1 a2 Hdim Hy Htop.
    apply mapM_Some_1 in Htop.
    destruct (predicted model_predict nwb b) as [|s1 [|s2 [|??]]] eqn:Hp;
      try by (repeat match goal with H : Forall2 _ _ _ |- _ =>
                       inversion H; clear H; subst end).
    apply Forall2_cons in Htop as [H1 Htop].
    apply Forall2_cons in Htop as [H2 _].
    pose proof (Forall2_length _ _ _ (mapM_Some_1 _ _ _ H1)) as Hl1.
    pose proof (Forall2_length _ _ _ (mapM_Some_1 _ _ _ H2)) as Hl2.
    apply top_classes_mapM in H1 as [Ht1 Hn1].
    apply top_classes_mapM in H2 as [Ht2 Hn2].
    rewrite evaluate_tally.
    + unfold scored_batches. simpl. rewrite Hp, Hy. simpl.
      unfold scored. rewrite Ht1, Ht2. vm_compute.
      eexists _, _. split; [reflexivity|]. by vm_compute.
    + by repeat constructor.
    + repeat constructor. unfold answers_batch. rewrite Hp, Hy.
      repeat constructor; done.
Qed.

Lemma evaluate_scores_past_padding_witness :
  ∃ word_accuracy sentence_accuracy,
    evaluate Examples.one_hot_network 100 [Examples.gold_batch]
      = Some (word_accuracy, sentence_accuracy) ∧
    (word_accuracy == 2 # 3)%Q ∧ (sentence_accuracy == 1 # 2)%Q.
Proof.
  apply (proj2 (proj2 evaluate_scores_past_padding)
           Examples.one_hot_network 100%Z Examples.gold_batch 0 0 0).
  - simpl. lia.
  - reflexivity.
  - by vm_compute.
Defined.

(** *** [predict_proba] and [predict] *)

Section Inference.

Variable grammemes_count : nat.
Variable get_sample : list word → nat → Z → list (list float) * list (list Z).
Variable model_predict : predictor.

Lemma py_max_ge (l : list nat) m x : py_max l = Some m → x ∈ l → x ≤ m.
Proof.
  destruct l as [|y l]; [done|]. intros [= <-].
  revert y. induction l as [|z l IH]; intros y Hin; simpl.
  - apply list_elem_of_singleton in Hin. lia.
  - apply elem_of_cons in Hin as [->|Hin].
    + specialize (IH y ltac:(left)). lia.
    + apply elem_of_cons in Hin as [->|Hin]; [lia|].
      specialize (IH y ltac:(by right)). lia.
Qed.

(** A value of exactly the shape of the block is stored as it is. *)
Lemma np_broadcast2_exact {A} k G (v : list (list A)) :
  0 < k → length v = k → Forall (λ r, length r = G) v →
  np_broadcast2 k G v = Some v.
Proof.
  intros Hk Hlen Hrows. unfold np_broadcast2.
  destruct v as [|r v']; [simpl in *; lia|].
  assert (forallb (λ r', length r' =? length r) (r :: v') = true) as ->.
  { apply forallb_forall. intros r' Hr'%list_elem_of_In.
    apply Nat.eqb_eq. rewrite Forall_forall in Hrows.
    rewrite (Hrows r') by done. by rewrite (Hrows r) by left. }
  rewrite <-Hlen, np_broadcast_exact.
  change (mapM (np_broadcast G) (r :: v') = Some (r :: v')).
  apply mapM_Some_2. clear Hlen.
  induction Hrows as [|r0 v0 Hr0 _ IH]; constructor; [|done].
  rewrite <-Hr0. apply np_broadcast_exact.
Qed.

Lemma np_set_rows_from_zeros {A} G l (zero : list A) (rows : list (list A)) :
  0 < length rows → length rows ≤ l → Forall (λ r, length r = G) rows →
  np_set_rows_from G (replicate l zero) (- Z.of_nat (length rows)) rows
  = Some (pad_left l zero rows).
Proof.
  intros Hpos Hle Hrows. unfold np_set_rows_from.
  rewrite length_replicate, slice_index_neg by done.
  replace (l - (l - length rows)) with (length rows) by lia.
  rewrite np_broadcast2_exact by done. simpl.
  unfold pad_left. by rewrite take_replicate, Nat.min_l by lia.
Qed.

(** The loop of [predict_proba] right-aligns every sentence in its
    block. *)
Lemma fill_samples_rows mwl wmc l (sentences : list (list word))
    (preg : list (list (list float))) (prec : list (list (list Z))) :
  length preg = length prec →
  Forall (λ s, 0 < length s ≤ l ∧
               sample_shape_ok grammemes_count get_sample mwl wmc s) sentences →
  fill_samples grammemes_count get_sample mwl wmc
    (preg ++ replicate (length sentences)
               (replicate l (replicate grammemes_count 0%float)),
     prec ++ replicate (length sentences) (replicate l (replicate mwl 0%Z)))
    (length preg) sentences
  = Some
      (preg ++ ((λ s, pad_left l (replicate grammemes_count 0%float)
                        (get_sample s mwl wmc).1) <$> sentences),
       prec ++ ((λ s, pad_left l (replicate mwl 0%Z)
                        (get_sample s mwl wmc).2) <$> sentences)).
Proof.
  intros Hpre Hall. revert preg prec Hpre.
  induction Hall as [|s ss [Hs Hshape] _ IH]; intros preg prec Hpre; simpl.
  - done.
  - unfold fill_sample. unfold sample_shape_ok in Hshape.
    destruct (get_sample s mwl wmc) as [g c] eqn:Hgc.
    destruct Hshape as (Hg & Hgw & Hc & Hcw). cbn [fst snd].
    pose proof (np_set_rows_from_zeros grammemes_count l
                  (replicate grammemes_count 0%float) g) as Eg.
    pose proof (np_set_rows_from_zeros mwl l (replicate mwl 0%Z) c) as Ec.
    rewrite Hg in Eg. rewrite Hc in Ec.
    rewrite !list_lookup_middle by done. cbn [mbind option_bind].
    rewrite Eg by (done || lia). cbn [mbind option_bind].
    rewrite Ec by (done || lia). cbn [mbind option_bind].
    rewrite insert_app_r_alt, Nat.sub_diag by done.
    rewrite (insert_app_r_alt prec), Hpre, Nat.sub_diag by lia.
    cbn [insert list_insert].
    rewrite !(cons_middle _ preg), !(cons_middle _ prec), !app_assoc.
    specialize (IH (preg ++ [pad_left l (replicate grammemes_count 0%float) g])
                   (prec ++ [pad_left l (replicate mwl 0%Z) c])).
    rewrite !length_app in IH. simpl in IH. rewrite Hpre, Nat.add_1_r in IH.
    rewrite IH by done. done.
Qed.

(** On a batch of non-empty sentences with well-shaped samples,
    [predict_proba] returns what the network answers on the left-padded
    arrays. *)
Lemma predict_proba_returns (sentences : list (list word)) mwl wmc :
  sentences ≠ [] →
  Forall (λ s, s ≠ [] ∧
               sample_shape_ok grammemes_count get_sample mwl wmc s) sentences →
  ∃ l, py_max (length <$> sentences) = Some l ∧
    predict_proba grammemes_count get_sample model_predict sentences mwl wmc
    = Some (model_predict
              {| dim1 := l; dim2 := grammemes_count;
                 cells := (λ s, pad_left l (replicate grammemes_count 0%float)
                                  (get_sample s mwl wmc).1) <$> sentences |}
              {| dim1 := l; dim2 := mwl;
                 cells := (λ s, pad_left l (replicate mwl 0%Z)
                                  (get_sample s mwl wmc).2) <$> sentences |}
              None).
Proof.
  intros Hne Hall. unfold predict_proba.
  destruct (py_max (length <$> sentences)) as [l|] eqn:Hmax;
    [|by destruct sentences].
  exists l. split; [done|]. simpl.
  pose proof (fill_samples_rows mwl wmc l sentences [] []) as H.
  simpl in H. rewrite H; [done|done|].
  apply Forall_forall. intros s Hs. rewrite Forall_forall in Hall.
  destruct (Hall s Hs) as [Hnes Hshape]. split; [|done]. split.
  - destruct s; [done|simpl; lia].
  - eapply py_max_ge; [done|]. apply list_elem_of_fmap. by exists s.
Qed.

Lemma slice_from_one {A} (l : list A) : slice_from l 1 = drop 1 l.
Proof.
  unfold slice_from. change 1%Z with (Z.of_nat 1).
  rewrite slice_index_nonneg. by destruct l.
Qed.

(** What [predict] computes for one sentence. *)
Lemma decode_sentence_inv (s : list word) sentence_probs answer :
  decode_sentence (s, sentence_probs) = Some answer →
  Forall2 (λ num grammeme_probs,
             np_argmax (drop 1 grammeme_probs) = Some num ∧
             S num < length grammeme_probs)
          answer (slice_from sentence_probs (- Z.of_nat (length s))).
Proof.
  unfold decode_sentence. intros H%mapM_Some_1. apply Forall2_flip.
  eapply Forall2_impl; [exact H|]. simpl. intros gp num Hnum.
  rewrite slice_from_one in Hnum. split; [done|].
  apply np_argmax_lt in Hnum. rewrite length_drop in Hnum. lia.
Qed.

Lemma decode_sentence_returns classes (s : list word) sentence_probs :
  2 ≤ classes → s ≠ [] → length s ≤ length sentence_probs →
  Forall (λ p, length p = classes) sentence_probs →
  ∃ answer, decode_sentence (s, sentence_probs) = Some answer ∧
            length answer = length s ∧
            Forall (λ num, num < classes - 1) answer.
Proof.
  intros Hc Hs Hlen Hall.
  assert (0 < length s) by (destruct s; [done|simpl; lia]).
  assert (Forall (λ p, length p = classes)
            (slice_from sentence_probs (- Z.of_nat (length s)))) as Hkept
    by by apply Forall_drop.
  assert (is_Some (decode_sentence (s, sentence_probs))) as [answer Hanswer].
  { unfold decode_sentence. apply mapM_is_Some_2.
    eapply Forall_impl; [exact Hkept|]. simpl. intros gp Hgp.
    apply np_argmax_is_Some. rewrite slice_from_one.
    destruct gp as [|? [|? ?]]; simpl in *; [lia..|done]. }
  exists answer. split; [done|].
  pose proof (decode_sentence_inv _ _ _ Hanswer) as Hinv.
  split.
  - rewrite (Forall2_length _ _ _ Hinv). by apply slice_from_neg_length.
  - apply Forall_forall. intros num Hnum.
    apply list_elem_of_lookup in Hnum as [j Hj].
    destruct (Forall2_lookup_l _ _ _ _ _ Hinv Hj) as (gp & Hgp & _ & Hlt).
    apply list_elem_of_lookup_2 in Hgp. rewrite Forall_forall in Hkept.
    specialize (Hkept gp Hgp). simpl in Hkept. lia.
Qed.

End Inference.

(** C3, as the code has it: on a batch of non-empty sentences,
    [predict_proba] returns the answer of the network on the left-padded
    arrays as it is, so every sentence comes back with
    [max_sentence_len] probability vectors, padding positions included;
    only the slice [probs[-len(sentence):]] that [predict] takes afterwards
    has [len(sentence)] vectors. *)
Theorem predict_proba_keeps_padding grammemes_count get_sample model_predict
    classes (sentences : list (list word)) mwl wmc :
  sentences ≠ [] →
  Forall (λ s, s ≠ [] ∧
               sample_shape_ok grammemes_count get_sample mwl wmc s) sentences →
  keras_shape_ok model_predict classes →
  ∃ l probs,
    py_max (length <$> sentences) = Some l ∧
    predict_proba grammemes_count get_sample model_predict sentences mwl wmc
      = Some probs ∧
    probs = model_predict
              {| dim1 := l; dim2 := grammemes_count;
                 cells := (λ s, pad_left l (replicate grammemes_count 0%float)
                                  (get_sample s mwl wmc).1) <$> sentences |}
              {| dim1 := l; dim2 := mwl;
                 cells := (λ s, pad_left l (replicate mwl 0%Z)
                                  (get_sample s mwl wmc).2) <$> sentences |}
              None ∧
    length probs = length sentences ∧
    Forall (λ sentence_probs, length sentence_probs = l) probs ∧
    Forall2 (λ s sentence_probs,
               length (slice_from sentence_probs (- Z.of_nat (length s)))
               = length s)
            sentences probs.
Proof.
  intros Hne Hall Hkeras.
  destruct (predict_proba_returns grammemes_count get_sample model_predict
              sentences mwl wmc Hne Hall) as (l & Hmax & Hret).
  eexists l, _. split_and!; [done|done|done| | |].
  - match goal with |- length (model_predict ?g ?c ?b) = _ =>
      destruct (Hkeras g c b) as [-> _] end.
    simpl. by rewrite length_fmap.
  - match goal with |- Forall _ (model_predict ?g ?c ?b) =>
      destruct (Hkeras g c b) as [_ H] end.
    eapply Forall_impl; [exact H|]. simpl. by intros ? [? _].
  - match goal with |- Forall2 _ _ (model_predict ?g ?c ?b) =>
      destruct (Hkeras g c b) as [Hlen H]; set (probs := model_predict g c b) in * end.
    simpl in Hlen. rewrite length_fmap in Hlen.
    apply Forall2_same_length_lookup_2; [done|].
    intros i s sp Hs Hsp.
    rewrite Forall_forall in Hall. rewrite Forall_forall in H.
    destruct (Hall s (list_elem_of_lookup_2 _ _ _ Hs)) as [Hnes _].
    destruct (H sp (list_elem_of_lookup_2 _ _ _ Hsp)) as [Hl _]. simpl in Hl.
    apply slice_from_neg_length.
    + destruct s; [done|simpl; lia].
    + rewrite Hl. eapply py_max_ge; [done|].
      apply list_elem_of_fmap. exists s. split; [done|].
      by eapply list_elem_of_lookup_2.
Qed.

Lemma fixed_network_shape : keras_shape_ok Examples.fixed_network 3.
Proof.
  intros g c b. unfold Examples.fixed_network. split.
  - by rewrite length_fmap.
  - apply Forall_fmap, Forall_forall. intros s _. simpl.
    split; [by rewrite length_replicate|].
    apply Forall_replicate. done.
Qed.

Lemma two_sentences_shape max_word_len word_max_count :
  Forall (λ s, s ≠ [] ∧
               sample_shape_ok 1 Examples.one_feature_sample
                 max_word_len word_max_count s)
         Examples.two_sentences.
Proof.
  unfold Examples.two_sentences, sample_shape_ok, Examples.one_feature_sample.
  repeat constructor; try discriminate; simpl.
  all: by rewrite CharEmbeddingsFacts.encoding_length.
Qed.

Lemma predict_proba_keeps_padding_witness :
  ∃ l probs,
    py_max (length <$> Examples.two_sentences) = Some l ∧
    predict_proba 1 Examples.one_feature_sample Examples.fixed_network
      Examples.two_sentences 30 10000 = Some probs ∧
    length probs = 2 ∧
    Forall (λ sentence_probs, length sentence_probs = l) probs.
Proof.
  destruct (predict_proba_keeps_padding 1 Examples.one_feature_sample
              Examples.fixed_network 3 Examples.two_sentences 30 10000)
    as (l & probs & Hl & Hp & _ & Hn & Hall & _).
  - discriminate.
  - apply two_sentences_shape.
  - apply fixed_network_shape.
  - exists l, probs. split_and!; [exact Hl|exact Hp|exact Hn|exact Hall].
Defined.

(** C3 as the specification states it fails: for the batch of a two-word
    and a one-word sentence, the second sentence comes back from
    [predict_proba] with two probability vectors, not one. *)
Lemma predict_proba_stripped_counterexample :
  ∃ probs sentence sentence_probs,
    predict_proba 1 Examples.one_feature_sample Examples.fixed_network
      Examples.two_sentences 30 10000 = Some probs ∧
    Examples.two_sentences !! 1 = Some sentence ∧
    probs !! 1 = Some sentence_probs ∧
    length sentence = 1 ∧
    length sentence_probs = 2.
Proof.
  eexists _, _, _. split_and!; [by vm_compute|reflexivity|reflexivity|done|done].
Qed.

(** C1, as the code has it: every number that [predict] returns is the
    arg-max position within the distribution without its entry 0, that is
    the winning class index minus one; class 0 is never considered and the
    class denoted, [num + 1], is never 0, but the number itself ranges over
    [0 .. classes - 2] and is 0 whenever class 1 wins.  On non-empty
    sentences, well-shaped samples and at least two classes, [predict] does
    return, with one number per token. *)
Theorem predict_skips_pad_class grammemes_count get_sample model_predict
    (sentences : list (list word)) :
  (∀ answers,
     predict grammemes_count get_sample model_predict sentences = Some answers →
     ∃ probs,
       predict_proba grammemes_count get_sample model_predict sentences
         30 10000 = Some probs ∧
       Forall2 (λ answer sp,
                  Forall2 (λ num grammeme_probs,
                             np_argmax (drop 1 grammeme_probs) = Some num ∧
                             S num < length grammeme_probs)
                          answer
                          (slice_from sp.2 (- Z.of_nat (length sp.1))))
               answers (zip sentences probs)) ∧
  (∀ classes,
     2 ≤ classes →
     sentences ≠ [] →
     Forall (λ s, s ≠ [] ∧
                  sample_shape_ok grammemes_count get_sample 30 10000 s)
            sentences →
     keras_shape_ok model_predict classes →
     ∃ answers,
       predict grammemes_count get_sample model_predict sentences
         = Some answers ∧
       Forall2 (λ s answer,
                  length answer = length s ∧
                  Forall (λ num, num < classes - 1) answer)
               sentences answers).
Proof.
  split.
  - intros answers. unfold predict.
    destruct (predict_proba _ _ _ _ _ _) as [probs|]; [|done]. simpl.
    intros H%mapM_Some_1. exists probs. split; [done|].
    apply Forall2_flip. eapply Forall2_impl; [exact H|].
    intros [s sp] answer Hd. simpl. by apply decode_sentence_inv.
  - intros classes Hc Hne Hall Hkeras.
    destruct (predict_proba_returns grammemes_count get_sample model_predict
                sentences 30 10000 Hne Hall) as (l & Hl & Hp).
    unfold predict. rewrite Hp. simpl.
    match goal with |- context [zip sentences (model_predict ?g ?c ?b)] =>
      destruct (Hkeras g c b) as [Hn Hshape];
      simpl in Hn, Hshape; rewrite length_fmap in Hn;
      clear Hp; revert Hn Hshape; generalize (model_predict g c b) end.
    intros probs Hn Hshape.
    assert (Forall (λ s, s ≠ [] ∧ length s ≤ l) sentences) as Hs.
    { apply Forall_forall. intros s Hin. rewrite Forall_forall in Hall.
      split; [by apply Hall|]. eapply py_max_ge; [done|].
      apply list_elem_of_fmap. by exists s. }
    clear Hall Hl Hkeras Hne.
    revert probs Hn Hshape.
    induction Hs as [|s ss [Hnes Hle] _ IH]; intros [|sp probs] Hn Hshape;
      simplify_eq/=.
    + by exists [].
    + apply Forall_cons in Hshape as [[Hsp Hcls] Hshape].
      destruct (decode_sentence_returns classes s sp) as (answer & Ha & Hal & Hab);
        [done|done|lia|done|].
      destruct (IH probs) as (answers & Has & Hall); [done|done|].
      exists (answer :: answers). split; [|by constructor].
      change (mapM decode_sentence ((s, sp) :: zip ss probs)
              = Some (answer :: answers)).
      apply mapM_Some_2. constructor; [done|]. by apply mapM_Some_1.
Qed.

Lemma predict_skips_pad_class_witness :
  ∃ answers,
    predict 1 Examples.one_feature_sample Examples.fixed_network
      Examples.two_sentences = Some answers ∧
    Forall2 (λ s answer, length answer = length s ∧
                         Forall (λ num, num < 3 - 1) answer)
            Examples.two_sentences answers.
Proof.
  apply (proj2 (predict_skips_pad_class 1 Examples.one_feature_sample
                  Examples.fixed_network Examples.two_sentences) 3).
  - lia.
  - discriminate.
  - apply two_sentences_shape.
  - apply fixed_network_shape.
Defined.

(** C1 as the specification states it fails: with the distribution
    (1/4, 1/2, 1/4) on every position, class 1 wins everywhere and
    [predict] returns 0 for every token. *)
Lemma predict_returns_zero_counterexample :
  predict 1 Examples.one_feature_sample Examples.fixed_network
    Examples.two_sentences = Some [[0; 0]; [0]].
Proof. by vm_compute. Qed.

(** *** [train] *)

Section Train.

Variable corpus : gmap string (list (list char)).
Variable permutation : Z → nat → list nat.
Variable train_generator : list string → list nat → nat → list train_batch.
Variable eval_generator : list string → list nat → nat → list eval_batch.
Variable network : list event → predictor.

Lemma train_on_batch_events tc bc epoch b (log : list event) :
  dim1 (tb_grammemes b) ≠ 0 →
  dump_model_freq tc ≠ 0%Z →
  train_on_batch tc bc epoch b log
  = (inr tt,
     log ++ fit_event tc bc b
         :: (if save_due tc epoch
             then [Save (model_config_path tc) (model_weights_path tc)]
             else [])).
Proof.
  intros Hdim Hfreq. unfold train_on_batch, save_due, fit_event.
  rewrite decide_False by done. unfold Py.bind, emit, Py.modify. simpl.
  destruct (decide (epoch ≠ 0)) as [He|He].
  - rewrite (decide_False (P := dump_model_freq tc = 0%Z)) by done.
    destruct (decide ((Z.of_nat epoch `mod` dump_model_freq tc)%Z = 0%Z)) as [Hm|Hm].
    + rewrite bool_decide_eq_true_2 by done. simpl.
      by rewrite <-app_assoc.
    + rewrite bool_decide_eq_false_2 by tauto. done.
  - rewrite bool_decide_eq_false_2 by tauto. done.
Qed.

(** One pass over the batches of a big epoch. *)
Lemma train_on_batches_events tc bc epoch bs (log : list event) :
  Forall (λ b, dim1 (tb_grammemes b) ≠ 0) bs →
  dump_model_freq tc ≠ 0%Z →
  train_on_batches tc bc epoch bs log
  = (inr tt, log ++ pass_events tc bc epoch bs).
Proof.
  intros Hdim Hfreq. revert epoch log.
  induction Hdim as [|b bs Hb _ IH]; intros epoch log; simpl.
  - unfold Py.ret. by rewrite app_nil_r.
  - unfold Py.bind. rewrite train_on_batch_events by done.
    rewrite IH. f_equal. rewrite <-!app_assoc. done.
Qed.

Lemma train_big_epochs_events fns tc bc tr va big_epochs (log : list event) :
  dump_model_freq tc ≠ 0%Z →
  Forall (λ be,
            Forall (λ b, dim1 (tb_grammemes b) ≠ 0)
                   (train_generator fns tr be) ∧
            ∀ log', is_Some (evaluate (network log') (num_words_in_batch tc)
                               (eval_generator fns va be)))
         big_epochs →
  ∃ printed,
    length printed = length big_epochs ∧
    train_big_epochs train_generator eval_generator network fns tc bc tr va
      big_epochs log
    = (inr tt,
       log ++ run_events train_generator tc bc fns tr big_epochs printed).
Proof.
  intros Hfreq Hall. revert log.
  induction Hall as [|be rest [Hdim Heval] _ IH]; intros log; simpl.
  - exists []. unfold Py.ret. by rewrite app_nil_r.
  - unfold Py.bind at 1. rewrite train_on_batches_events by done.
    unfold Py.bind at 1. unfold run_evaluate.
    destruct (Heval (log ++ pass_events tc bc 0 (train_generator fns tr be)))
      as [[wa sa] Hacc].
    rewrite Hacc.
    destruct (IH ((log ++ pass_events tc bc 0 (train_generator fns tr be))
                  ++ [Evaluate wa sa])) as (printed & Hlen & Hrun).
    exists ((wa, sa) :: printed). split; [simpl; lia|].
    rewrite Hrun. simpl. f_equal. by rewrite <-!app_assoc.
Qed.

End Train.

(** How many checkpoints one pass writes. *)
Lemma save_due_count (f : Z) (k : nat) :
  (0 < f)%Z →
  Z.of_nat (length (filter (λ e, e ≠ 0 ∧ (Z.of_nat e `mod` f)%Z = 0%Z)
                           (seq 0 (S k))))
  = (Z.of_nat k `div` f)%Z.
Proof.
  intros Hf. induction k as [|k IH].
  - change (seq 0 1) with [0]. rewrite filter_cons_False by tauto.
    rewrite filter_nil. by rewrite Z.div_0_l by lia.
  - rewrite seq_S, filter_app, length_app, Nat2Z.inj_add, IH.
    rewrite filter_cons, filter_nil. cbn [Nat.add].
    pose proof (Z.div_mod (Z.of_nat (S k)) f ltac:(lia)) as H1.
    pose proof (Z.div_mod (Z.of_nat k) f ltac:(lia)) as H2.
    pose proof (Z.mod_pos_bound (Z.of_nat (S k)) f Hf) as B1.
    pose proof (Z.mod_pos_bound (Z.of_nat k) f Hf) as B2.
    case_decide as Hc; simpl.
    + destruct Hc as [_ Hc]. rewrite Hc in H1. nia.
    + assert ((Z.of_nat (S k) `mod` f)%Z ≠ 0%Z) by (intros ?; apply Hc; split; [lia|done]).
      nia.
Qed.

Lemma pass_events_saves tc bc epoch bs :
  length (filter (λ ev, is_save ev = true) (pass_events tc bc epoch bs))
  = length (filter (λ e, e ≠ 0 ∧ (Z.of_nat e `mod` dump_model_freq tc)%Z = 0%Z)
                   (seq epoch (length bs))).
Proof.
  revert epoch. induction bs as [|b bs IH]; intros epoch; [done|].
  cbn [pass_events length seq]. unfold fit_event at 1.
  rewrite filter_cons_False by done.
  rewrite filter_app, length_app, IH, (filter_cons _ epoch).
  unfold save_due.
  destruct (decide (epoch ≠ 0 ∧
                    (Z.of_nat epoch `mod` dump_model_freq tc)%Z = 0%Z)).
  - rewrite bool_decide_eq_true_2 by done.
    rewrite filter_cons_True by done. done.
  - rewrite bool_decide_eq_false_2 by done. done.
Qed.

(** C5, as the code has it: within a pass the checkpoint is written right
    after the fit of the batch numbered [epoch] (from 0) exactly when
    [epoch != 0 and epoch % dump_model_freq == 0], which for a positive
    frequency makes [(batches - 1) div dump_model_freq] checkpoints in a
    pass; the end of a big epoch runs the evaluation and writes no
    checkpoint.  So a run that completes leaves, for each big epoch, the
    events of its pass followed by one evaluation. *)
Theorem train_saves_by_batch_counter corpus permutation train_generator
    eval_generator network fns tc bc n tr va :
  count_samples corpus fns = Some n →
  get_split (permutation (random_seed tc) n) n (val_part tc) = Some (tr, va) →
  dump_model_freq tc ≠ 0%Z →
  (∀ be, be < Z.to_nat (epochs_num tc) →
     Forall (λ b, dim1 (tb_grammemes b) ≠ 0) (train_generator fns tr be) ∧
     ∀ log, is_Some (evaluate (network log) (num_words_in_batch tc)
                       (eval_generator fns va be))) →
  (∃ printed,
     length printed = Z.to_nat (epochs_num tc) ∧
     train corpus permutation train_generator eval_generator network
       fns tc bc []
     = (inr tt,
        run_events train_generator tc bc fns tr
          (seq 0 (Z.to_nat (epochs_num tc))) printed)) ∧
  (∀ bs, (0 < dump_model_freq tc)%Z → bs ≠ [] →
     Z.of_nat (length (filter (λ ev, is_save ev = true)
                              (pass_events tc bc 0 bs)))
     = ((Z.of_nat (length bs) - 1) `div` dump_model_freq tc)%Z).
Proof.
  intros Hn Hsplit Hfreq Hall. split.
  - unfold train. rewrite Hn. simpl. unfold Py.bind at 1. simpl.
    rewrite Hsplit. simpl. unfold Py.bind at 1. simpl.
    destruct (train_big_epochs_events train_generator eval_generator network
                fns tc bc tr va (seq 0 (Z.to_nat (epochs_num tc))) [] Hfreq)
      as (printed & Hlen & Hrun).
    { apply Forall_forall. intros be Hbe%elem_of_seq. apply Hall. lia. }
    exists printed. split; [by rewrite Hlen, length_seq|]. by rewrite Hrun.
  - intros bs Hpos Hbs. rewrite pass_events_saves.
    destruct bs as [|b bs]; [done|]. cbn [length].
    rewrite save_due_count by done. f_equal. lia.
Qed.

Lemma train_saves_by_batch_counter_witness :
  ∃ printed,
    length printed = 1 ∧
    train Examples.corpus Examples.reversed Examples.three_batches
      Examples.gold_batches (λ _, Examples.one_hot_network)
      ["corpus.txt"] Examples.train_config Examples.build_config []
    = (inr tt,
       run_events Examples.three_batches Examples.train_config
         Examples.build_config ["corpus.txt"] [2] [0] printed).
Proof.
  apply (proj1 (train_saves_by_batch_counter Examples.corpus Examples.reversed
                  Examples.three_batches Examples.gold_batches
                  (λ _, Examples.one_hot_network) ["corpus.txt"]
                  Examples.train_config Examples.build_config 3 [2] [1; 0]
                  ltac:(by vm_compute) ltac:(by vm_compute)
                  ltac:(by vm_compute)
                  ltac:(intros be _; split;
                          [by repeat constructor
                          |intros log; eexists; by vm_compute]))).
Defined.

(** C5 as the specification states it fails: a run of one big epoch over
    three batches with [dump_model_freq = 5] completes, evaluation
    included, without writing the checkpoint once. *)
Lemma train_no_save_at_epoch_end_counterexample :
  ∃ log,
    train Examples.corpus Examples.reversed Examples.three_batches
      Examples.gold_batches (λ _, Examples.one_hot_network)
      ["corpus.txt"] Examples.train_config Examples.build_config []
    = (inr tt, log) ∧
    (∃ word_accuracy sentence_accuracy,
       last log = Some (Evaluate word_accuracy sentence_accuracy)) ∧
    length (filter (λ ev, is_save ev = true) log) = 0.
Proof.
  eexists. split; [by vm_compute|]. split; [by eexists _, _|done].
Qed.

(** *** [prepare] *)

Section Prepare.

Context {GrammemeVectorizer File : Type}.
Variable gv_is_empty : GrammemeVectorizer → bool.
Variable gv_load : File → option GrammemeVectorizer.
Variable gv_save : GrammemeVectorizer → File.
Variable wv_load : File → option WordVocabulary.
Variable wv_save : WordVocabulary → File.
Variable parse_corpora :
  option (list string) → gmap string File →
  option (GrammemeVectorizer * GrammemeVectorizer * WordVocabulary).

(** One presence-gated load, when the dump loads without raising. *)
Lemma load_if_exists_run {A} (load : File → option A)
    (set : A → @analysis GrammemeVectorizer → @analysis GrammemeVectorizer)
    path (s : @state GrammemeVectorizer File) :
  loadable load (fs s) path →
  ∃ a',
    load_if_exists load set path s
    = (inr tt, {| self := a'; fs := fs s;
                  trace := trace s ++ loads (fs s) [path] |}) ∧
    ((∃ f a, fs s !! path = Some f ∧ load f = Some a ∧ a' = set a (self s))
     ∨ (fs s !! path = None ∧ a' = self s)).
Proof.
  intros Hload. unfold load_if_exists, loads.
  rewrite filter_cons, filter_nil.
  destruct (fs s !! path) as [f|] eqn:Hf.
  - destruct (Hload f Hf) as [a Ha]. rewrite Ha.
    rewrite decide_True by by eexists.
    eexists. split; [done|]. left. by exists f, a.
  - rewrite decide_False by by intros [??].
    exists (self s). split; [|by right].
    simpl. rewrite app_nil_r. by destruct s.
Qed.

Lemma loads_app (files : gmap string File) ps qs :
  loads files (ps ++ qs) = loads files ps ++ loads files qs.
Proof. unfold loads. by rewrite filter_app, fmap_app. Qed.

(** The second half of [prepare], from the state that the loads leave. *)
Lemma prepare_after_loads p_in p_out p_wv file_names
    (s : @state GrammemeVectorizer File) :
  prepare gv_is_empty gv_load gv_save wv_load wv_save parse_corpora
    p_in p_out p_wv file_names s
  = match load_if_exists gv_load set_input p_in s with
    | (inl e, s1) => (inl e, s1)
    | (inr _, s1) =>
      match load_if_exists gv_load set_output p_out s1 with
      | (inl e, s2) => (inl e, s2)
      | (inr _, s2) =>
        match load_if_exists wv_load set_vocabulary p_wv s2 with
        | (inl e, s3) => (inl e, s3)
        | (inr _, s3) =>
          if gv_is_empty (grammeme_vectorizer_input (self s3))
             || gv_is_empty (grammeme_vectorizer_output (self s3))
             || wv_is_empty (word_vocabulary (self s3))
          then
            match parse_corpora file_names (fs s3) with
            | Some (gi, go, wv) =>
                (inr tt,
                 {| self := {| grammeme_vectorizer_input := gi;
                               grammeme_vectorizer_output := go;
                               word_vocabulary := wv |};
                    fs := <[p_wv := wv_save wv]>
                            (<[p_out := gv_save go]>
                               (<[p_in := gv_save gi]> (fs s3)));
                    trace := trace s3 ++ [ParseCorpora file_names; Dump p_in;
                                          Dump p_out; Dump p_wv] |})
            | None => (inl Py.Exception, s3)
            end
          else (inr tt, s3)
        end
      end
    end.
Proof.
  unfold prepare, Py.bind.
  destruct (load_if_exists gv_load set_input p_in s) as [[e|[]] s1]; [done|].
  destruct (load_if_exists gv_load set_output p_out s1) as [[e|[]] s2]; [done|].
  destruct (load_if_exists wv_load set_vocabulary p_wv s2) as [[e|[]] s3]; [done|].
  unfold Py.get. destruct (_ || _ || _); [|done].
  unfold rebuild. destruct (parse_corpora file_names (fs s3)) as [[[gi go] wv]|];
    [|done].
  unfold dump, Py.modify. simpl. by rewrite <-!app_assoc.
Qed.

(** C10, as the code has it: on an analyser whose three attributes are
    empty when [prepare] is called (as the constructor leaves them), either
    all three dumps are there and load non-empty, and then all three
    attributes are the loaded ones, nothing is parsed and nothing is
    written; or else, when the dumps that are there load without raising and
    the corpus parses, all three attributes come from that one parse and
    all three dump files are overwritten with them. *)
Theorem prepare_all_or_nothing p_in p_out p_wv file_names
    (s : @state GrammemeVectorizer File) :
  gv_is_empty (grammeme_vectorizer_input (self s)) = true →
  gv_is_empty (grammeme_vectorizer_output (self s)) = true →
  wv_is_empty (word_vocabulary (self s)) = true →
  (∀ gi go wv,
     usable gv_load gv_is_empty (fs s) p_in gi →
     usable gv_load gv_is_empty (fs s) p_out go →
     usable wv_load wv_is_empty (fs s) p_wv wv →
     prepare gv_is_empty gv_load gv_save wv_load wv_save parse_corpora
       p_in p_out p_wv file_names s
     = (inr tt,
        {| self := {| grammeme_vectorizer_input := gi;
                      grammeme_vectorizer_output := go;
                      word_vocabulary := wv |};
           fs := fs s;
           trace := trace s ++ [LoadDump p_in; LoadDump p_out;
                                LoadDump p_wv] |})) ∧
  (∀ gi go wv,
     ¬ (∃ gi' go' wv',
          usable gv_load gv_is_empty (fs s) p_in gi' ∧
          usable gv_load gv_is_empty (fs s) p_out go' ∧
          usable wv_load wv_is_empty (fs s) p_wv wv') →
     loadable gv_load (fs s) p_in →
     loadable gv_load (fs s) p_out →
     loadable wv_load (fs s) p_wv →
     parse_corpora file_names (fs s) = Some (gi, go, wv) →
     prepare gv_is_empty gv_load gv_save wv_load wv_save parse_corpora
       p_in p_out p_wv file_names s
     = (inr tt,
        {| self := {| grammeme_vectorizer_input := gi;
                      grammeme_vectorizer_output := go;
                      word_vocabulary := wv |};
           fs := <[p_wv := wv_save wv]>
                   (<[p_out := gv_save go]> (<[p_in := gv_save gi]> (fs s)));
           trace := trace s ++ loads (fs s) [p_in; p_out; p_wv]
                    ++ [ParseCorpora file_names; Dump p_in; Dump p_out;
                        Dump p_wv] |})).
Proof.
  intros Hin Hout Hwv. split.
  - intros gi go wv (f1 & Hf1 & Hl1 & He1) (f2 & Hf2 & Hl2 & He2)
      (f3 & Hf3 & Hl3 & He3).
    rewrite prepare_after_loads. unfold load_if_exists. simpl.
    rewrite Hf1, Hl1. simpl. rewrite Hf2, Hl2. simpl. rewrite Hf3, Hl3. simpl.
    rewrite He1, He2, He3. simpl. by rewrite <-!app_assoc.
  - intros gi go wv Hnot L1 L2 L3 Hparse.
    rewrite prepare_after_loads.
    destruct (load_if_exists_run gv_load set_input p_in s L1)
      as (a1 & -> & H1).
    set (s1 := {| self := a1; fs := fs s; trace := _ |}).
    destruct (load_if_exists_run gv_load set_output p_out s1 L2)
      as (a2 & -> & H2).
    set (s2 := {| self := a2; fs := fs s1; trace := _ |}).
    destruct (load_if_exists_run wv_load set_vocabulary p_wv s2 L3)
      as (a3 & -> & H3).
    simpl in *. rewrite Hparse.
    assert (gv_is_empty (grammeme_vectorizer_input a3)
            || gv_is_empty (grammeme_vectorizer_output a3)
            || wv_is_empty (word_vocabulary a3) = true) as ->.
    { destruct (gv_is_empty (grammeme_vectorizer_input a3)) eqn:E1; [done|].
      destruct (gv_is_empty (grammeme_vectorizer_output a3)) eqn:E2; [done|].
      destruct (wv_is_empty (word_vocabulary a3)) eqn:E3; [done|].
      exfalso. apply Hnot.
      destruct H1 as [(f1 & g1 & Hf1 & Hl1 & ->)|[_ ->]];
      destruct H2 as [(f2 & g2 & Hf2 & Hl2 & ->)|[_ ->]];
      destruct H3 as [(f3 & g3 & Hf3 & Hl3 & ->)|[_ ->]];
      simpl in *; try congruence.
      exists g1, g2, g3. split_and!; eexists; eauto. }
    f_equal. f_equal. rewrite <-!app_assoc. f_equal.
    rewrite (loads_app _ [p_in] [p_out; p_wv]), (loads_app _ [p_out] [p_wv]).
    by rewrite <-!app_assoc.
Qed.

End Prepare.

Lemma prepare_all_or_nothing_witness :
  prepare Examples.toy_gv_is_empty Examples.toy_gv_load Examples.toy_gv_save
    Examples.toy_wv_load Examples.toy_wv_save Examples.toy_parse_corpora
    "in.json" "out.json" "vocab.txt" None Examples.new_state
  = (inr tt,
     {| self := {| grammeme_vectorizer_input := [1];
                   grammeme_vectorizer_output := [2];
                   word_vocabulary := {| words := [[97]%N] |} |};
        fs := <["vocab.txt" := [97]]>
                (<["out.json" := [2]]>
                   (<["in.json" := [1]]> (fs Examples.new_state)));
        trace := [LoadDump "out.json"; LoadDump "vocab.txt";
                  ParseCorpora None; Dump "in.json"; Dump "out.json";
                  Dump "vocab.txt"] |}).
Proof.
  apply (proj2 (prepare_all_or_nothing Examples.toy_gv_is_empty
                  Examples.toy_gv_load Examples.toy_gv_save
                  Examples.toy_wv_load Examples.toy_wv_save
                  Examples.toy_parse_corpora "in.json" "out.json" "vocab.txt"
                  None Examples.new_state eq_refl eq_refl eq_refl)
           [1] [2] {| words := [[97]%N] |}).
  - intros (gi & _ & _ & (f & Hf & _) & _). by vm_compute in Hf.
  - intros f _. by eexists.
  - intros f _. by eexists.
  - intros f _. by eexists.
  - reflexivity.
Defined.

(** C10 as the specification states it fails: called on an analyser whose
    input vectorizer is already populated, with the input dump missing and
    the other two dumps in place, [prepare] loads those two, keeps the input
    vectorizer it had, parses nothing and writes nothing. *)
Lemma prepare_mixed_state_counterexample :
  Examples.stale_state.(fs) !! "in.json" = None ∧
  prepare Examples.toy_gv_is_empty Examples.toy_gv_load Examples.toy_gv_save
    Examples.toy_wv_load Examples.toy_wv_save Examples.toy_parse_corpora
    "in.json" "out.json" "vocab.txt" None Examples.stale_state
  = (inr tt,
     {| self := {| grammeme_vectorizer_input := [7];
                   grammeme_vectorizer_output := [3];
                   word_vocabulary := {| words := [[98]%N] |} |};
        fs := fs Examples.stale_state;
        trace := [LoadDump "out.json"; LoadDump "vocab.txt"] |}).
Proof. split; by vm_compute. Qed.

End TaggerFacts.

(** ** Running a computation step by step *)

Module PyMore.

Import Py.

Lemma bind_run {S A B} (m : M S A) (k : A → M S B) s a s1 :
  m s = (inr a, s1) → bind m k s = k a s1.
Proof. intros H. unfold bind. by rewrite H. Qed.

Lemma bind_raise {S A B} (m : M S A) (k : A → M S B) s e s1 :
  m s = (inl e, s1) → bind m k s = (inl e, s1).
Proof. intros H. unfold bind. by rewrite H. Qed.

(** A sequence that returns has run both of its parts. *)
Lemma bind_inr {S A B} (m : M S A) (k : A → M S B) s b s' :
  bind m k s = (inr b, s') →
  ∃ a s1, m s = (inr a, s1) ∧ k a s1 = (inr b, s').
Proof.
  unfold bind. destruct (m s) as [[e|a] s1]; [done|]. intros H. by exists a, s1.
Qed.

Lemma lift_inr {S A} e (o : option A) (s : S) a s' :
  lift e o s = (inr a, s') → o = Some a ∧ s' = s.
Proof. destruct o; intros [= ]; by subst. Qed.

End PyMore.

(** ** Further properties of [prepare_words] and [get_char_model] *)

Module CharEmbeddingsMore.

Import Py PyFacts CharEmbeddings CharEmbeddingsFacts More.

Lemma index_Some (s : list char) ch i :
  index s ch = Some i → s !! i = Some ch.
Proof.
  revert i. induction s as [|c s IH]; intros i; simpl; [done|].
  case_decide as Hc; [intros [= <-]; by subst|].
  destruct (index s ch) as [j|]; simpl; [|done].
  intros [= <-]. by apply IH.
Qed.

Lemma index_is_Some (s : list char) ch : ch ∈ s → is_Some (index s ch).
Proof.
  induction s as [|c s IH]; simpl; [by intros ?%elem_of_nil|].
  intros Hin. case_decide; [by eexists|].
  apply elem_of_cons in Hin as [->|Hin]; [done|].
  destruct (IH Hin) as [j ->]. by eexists.
Qed.

(** The index of a character: its position in the alphabet when it is
    there, the length of the alphabet when it is not. *)
Lemma char_index_in CHAR_SET ch :
  ch ∈ CHAR_SET →
  ∃ i, char_index CHAR_SET ch = Z.of_nat i ∧ CHAR_SET !! i = Some ch.
Proof.
  intros Hin. unfold char_index. rewrite decide_True by done.
  destruct (index_is_Some _ _ Hin) as [i Hi].
  rewrite Hi. exists i. split; [done|]. by apply index_Some.
Qed.

Lemma char_index_out CHAR_SET ch :
  ch ∉ CHAR_SET → char_index CHAR_SET ch = Z.of_nat (length CHAR_SET).
Proof. intros. unfold char_index. by rewrite decide_False. Qed.

Lemma char_index_range CHAR_SET ch :
  (0 ≤ char_index CHAR_SET ch ≤ Z.of_nat (length CHAR_SET))%Z.
Proof.
  destruct (decide (ch ∈ CHAR_SET)) as [Hin|Hout].
  - destruct (char_index_in _ _ Hin) as (i & -> & Hi).
    apply lookup_lt_Some in Hi. lia.
  - rewrite char_index_out by done. lia.
Qed.

Lemma char_index_inj CHAR_SET c1 c2 :
  c1 ∈ CHAR_SET → c2 ∈ CHAR_SET →
  char_index CHAR_SET c1 = char_index CHAR_SET c2 → c1 = c2.
Proof.
  intros H1 H2 Heq.
  destruct (char_index_in _ _ H1) as (i & Ei & Hi).
  destruct (char_index_in _ _ H2) as (j & Ej & Hj).
  assert (i = j) as -> by lia. congruence.
Qed.

(** X1: what [prepare_words] hands to the embedding layer: one row per
    word, the labels 0, 1, 2, ... in vocabulary order, and in every cell an
    index between 0 and [len(CHAR_SET)], so that a table of
    [len(CHAR_SET) + 1] rows covers them all; the index [len(CHAR_SET)]
    stands for the characters outside the alphabet and for no other. *)
Theorem prepare_words_cells_in_range CHAR_SET (v : WordVocabulary) W chars y :
  prepare_words CHAR_SET v W = Some (chars, y) →
  length chars = size v ∧
  y = (λ i, Z.of_nat i) <$> seq 0 (size v) ∧
  Forall (Forall (λ c, (0 ≤ c ≤ Z.of_nat (length CHAR_SET))%Z)) chars ∧
  (∀ ch, char_index CHAR_SET ch = Z.of_nat (length CHAR_SET) ↔ ch ∉ CHAR_SET).
Proof.
  intros H. pose proof (prepare_words_inv _ _ _ _ _ H) as ->.
  rewrite prepare_words_rows in H.
  destruct (mapM _ _) as [rows|]; simplify_eq/=.
  split_and!; [by rewrite length_fmap|done| |].
  - apply Forall_fmap, Forall_forall. intros w _. simpl. unfold encoding.
    apply Forall_app. split.
    + apply Forall_replicate. lia.
    + apply Forall_fmap, Forall_forall. intros ch _. apply char_index_range.
  - intros ch. destruct (decide (ch ∈ CHAR_SET)) as [Hin|Hout].
    + destruct (char_index_in _ _ Hin) as (i & -> & Hi).
      apply lookup_lt_Some in Hi. split; [lia|done].
    + by rewrite char_index_out.
Qed.

Lemma prepare_words_cells_in_range_witness :
  length [[0; 0; 0; 0; 1]%Z; [0; 0; 0; 1; 2]%Z] = 2 ∧
  [0; 1]%Z = (λ i, Z.of_nat i) <$> seq 0 2 ∧
  Forall (Forall (λ c, (0 ≤ c ≤ Z.of_nat (length Examples.abc))%Z))
         [[0; 0; 0; 0; 1]%Z; [0; 0; 0; 1; 2]%Z].
Proof.
  destruct (prepare_words_cells_in_range Examples.abc
              {| words := [[98]%N; [98; 99]%N] |} 5
              [[0; 0; 0; 0; 1]%Z; [0; 0; 0; 1; 2]%Z] [0; 1]%Z eq_refl)
    as (H1 & H2 & H3 & _).
  split_and!; [exact H1|exact H2|exact H3].
Defined.

Lemma encoding_fits CHAR_SET W (w : word) :
  length w ≤ W →
  encoding CHAR_SET W w
  = replicate (W - length w) 0%Z ++ (char_index CHAR_SET <$> w).
Proof. intros. unfold encoding. by rewrite take_ge. Qed.

(** Two lossless words with the same row are the same word. *)
Lemma encoding_inj CHAR_SET W (w1 w2 : word) :
  lossless CHAR_SET W w1 → lossless CHAR_SET W w2 →
  encoding CHAR_SET W w1 = encoding CHAR_SET W w2 → w1 = w2.
Proof.
  intros [Hl1 Hc1] [Hl2 Hc2]. rewrite !encoding_fits by done.
  assert (∀ (u v : word),
            Forall (λ ch, ch ∈ CHAR_SET ∧ char_index CHAR_SET ch ≠ 0%Z) v →
            length u < length v → length v ≤ W →
            replicate (W - length u) 0%Z ++ (char_index CHAR_SET <$> u)
            ≠ replicate (W - length v) 0%Z ++ (char_index CHAR_SET <$> v))
    as Hshort.
  { intros u v Hv Hlt HW Heq.
    apply (f_equal (λ l, l !! (W - length v))) in Heq.
    rewrite lookup_app_l in Heq by (rewrite length_replicate; lia).
    rewrite lookup_replicate_2 in Heq by lia.
    rewrite lookup_app_r in Heq by (rewrite length_replicate; lia).
    rewrite length_replicate, Nat.sub_diag, list_lookup_fmap in Heq.
    destruct v as [|ch v]; [simpl in *; lia|].
    apply Forall_cons in Hv as [[_ Hch] _]. simpl in Heq. congruence. }
  intros Heq.
  destruct (Nat.lt_trichotomy (length w1) (length w2)) as [Hlt|[Hlen|Hlt]].
  - by destruct (Hshort w1 w2).
  - rewrite Hlen in Heq. apply app_inv_head in Heq.
    clear Hl1 Hl2 Hshort. revert w2 Hc2 Hlen Heq.
    induction Hc1 as [|c1 w1 [Hin1 _] _ IH]; intros [|c2 w2] Hc2 Hlen Heq;
      simplify_eq/=; [done|].
    apply Forall_cons in Hc2 as [[Hin2 _] Hc2].
    f_equal; [by eapply char_index_inj|by apply IH].
  - by destruct (Hshort w2 w1).
Qed.

(** X2: [prepare_words] is injective on the words it encodes without loss:
    two entries of the vocabulary that fit the width and are spelled in the
    alphabet without its first character get the same row only if they are
    the same word. *)
Theorem prepare_words_distinguishes_words CHAR_SET (v : WordVocabulary) W
    chars y i j (wi wj : word) :
  prepare_words CHAR_SET v W = Some (chars, y) →
  words v !! i = Some wi → words v !! j = Some wj →
  lossless CHAR_SET W wi → lossless CHAR_SET W wj →
  chars !! i = chars !! j →
  wi = wj.
Proof.
  intros ->%prepare_words_inv Hi Hj Li Lj.
  rewrite !list_lookup_fmap, Hi, Hj. simpl. intros [=].
  by eapply encoding_inj.
Qed.

Lemma prepare_words_distinguishes_words_witness :
  lossless Examples.abc 5 [98]%N ∧ [98]%N = [98]%N.
Proof.
  assert (lossless Examples.abc 5 [98]%N) as L.
  { split; [simpl; lia|]. apply Forall_cons. split; [|by apply Forall_nil].
    split; [unfold Examples.abc; set_solver|by vm_compute]. }
  split; [exact L|].
  exact (prepare_words_distinguishes_words Examples.abc
           {| words := [[98]%N; [98]%N] |} 5
           [[0; 0; 0; 0; 1]%Z; [0; 0; 0; 0; 1]%Z] [0; 1]%Z 0 1
           [98]%N [98]%N eq_refl eq_refl eq_refl L L eq_refl).
Defined.

(** X3: the first character of the alphabet has index 0, the value of the
    padding: a word and the same word with that character put in front get
    the same row, so the rows do not tell them apart. *)
Theorem prepare_words_first_char_is_padding c0 rest (v : WordVocabulary) W
    chars y i j (w : word) :
  prepare_words (c0 :: rest) v W = Some (chars, y) →
  words v !! i = Some w → words v !! j = Some (c0 :: w) →
  length w < W →
  char_index (c0 :: rest) c0 = 0%Z ∧ chars !! i = chars !! j.
Proof.
  intros ->%prepare_words_inv Hi Hj Hlen.
  assert (char_index (c0 :: rest) c0 = 0%Z) as H0.
  { unfold char_index. rewrite decide_True by left. simpl.
    by rewrite decide_True. }
  split; [done|].
  rewrite !list_lookup_fmap, Hi, Hj. simpl. f_equal.
  rewrite !encoding_fits by (simpl; lia). simpl. rewrite H0.
  replace (W - length w) with (S (W - S (length w))) by lia.
  by rewrite replicate_S_end, <-app_assoc.
Qed.

Lemma prepare_words_first_char_is_padding_witness :
  char_index Examples.abc 97%N = 0%Z ∧
  [[0; 0; 0; 0; 1]%Z; [0; 0; 0; 0; 1]%Z] !! 0
  = [[0; 0; 0; 0; 1]%Z; [0; 0; 0; 0; 1]%Z] !! 1.
Proof.
  apply (prepare_words_first_char_is_padding 97%N [98; 99]%N
           {| words := [[98]%N; [97; 98]%N] |} 5
           [[0; 0; 0; 0; 1]%Z; [0; 0; 0; 0; 1]%Z] [0; 1]%Z 0 1 [98]%N
           eq_refl eq_refl eq_refl).
  simpl. lia.
Defined.

End CharEmbeddingsMore.

(** ** Further properties of [get_char_model] *)

Module GetCharModelMore.

Import Py PyMore CharEmbeddings CharEmbeddingsFacts More.

Lemma writes_within_bind {A B} paths (m : M world A) (k : A → M world B) :
  writes_within paths m → (∀ a, writes_within paths (k a)) →
  writes_within paths (bind m k).
Proof.
  intros Hm Hk w. unfold bind. specialize (Hm w).
  destruct (m w) as [[e|a] w1]; simpl in *; [done|].
  destruct Hm as [Hm1 Hm2], (Hk a w1) as [Hk1 Hk2].
  split; [by etrans|]. etrans; [done|].
  apply union_least; [done|apply union_subseteq_r].
Qed.

(** A step that leaves the files as they are. *)
Lemma writes_within_keeps {A} paths (m : M world A) :
  (∀ w, files (m w).2 = files w) → writes_within paths m.
Proof. intros H w. rewrite H. split; [done|apply union_subseteq_l]. Qed.

Lemma writes_within_create_file paths path :
  path ∈ paths → writes_within paths (create_file path).
Proof.
  intros H w. simpl. split; [apply union_subseteq_r|].
  apply union_least; [|apply union_subseteq_l].
  etrans; [by apply singleton_subseteq_l|apply union_subseteq_r].
Qed.

Lemma external_files external_ok ev w : files (external external_ok ev w).2 = files w.
Proof. unfold external. by destruct (external_ok ev). Qed.

Lemma deepcopy_files l w : files (deepcopy l w).2 = files w.
Proof. unfold deepcopy. by destruct (heap w !! l). Qed.

Lemma read_files l w : files (read l w).2 = files w.
Proof. unfold read. by destruct (heap w !! l). Qed.

Lemma lift_files {A} e (o : option A) (w : world) :
  files (lift e o w).2 = files w.
Proof. by destruct o. Qed.

Ltac files_frame :=
  repeat first
    [ apply writes_within_bind; [|intros ?]
    | apply writes_within_keeps; intros ?;
      first [ apply external_files | apply deepcopy_files | apply read_files
            | apply lift_files | reflexivity ] ].

(** X4: [get_char_model] never removes a file, and the only files it can
    create are the config file and the weights file, and those only when
    both paths are given. *)
Theorem get_char_model_writes_only_cache CHAR_SET external_ok cl mwl l emb mwp mcp bs vp seed :
  writes_within (cache_paths mwp mcp)
    (get_char_model CHAR_SET external_ok cl mwl l emb mwp mcp bs vp seed).
Proof.
  assert (writes_within (cache_paths mwp mcp)
            (train_char_model CHAR_SET external_ok cl mwl l emb mwp mcp
               bs vp seed)) as Htrain.
  { unfold train_char_model, build, train. files_frame.
    destruct mcp as [c|], mwp as [wt|]; simpl; files_frame.
    unfold save. files_frame.
    - apply writes_within_create_file. set_solver.
    - apply writes_within_create_file. set_solver. }
  unfold get_char_model. destruct mcp as [c|]; [|done].
  apply writes_within_bind; [by apply writes_within_keeps|].
  intros [|]; [|done].
  destruct mwp as [wt|]; [|by apply writes_within_keeps].
  apply writes_within_bind; [by apply writes_within_keeps|].
  intros [|]; [|by apply writes_within_keeps].
  unfold load. files_frame.
Qed.

Lemma external_inr external_ok ev (w : world) u w' :
  external external_ok ev w = (inr u, w') →
  external_ok ev = true ∧
  w' = {| heap := heap w; files := files w; log := log w ++ [ev] |}.
Proof. unfold external. destruct (external_ok ev); intros [=]; by subst. Qed.

Lemma read_inr l (w : world) v w' :
  read l w = (inr v, w') → heap w !! l = Some v ∧ w' = w.
Proof. unfold read. destruct (heap w !! l); intros [=]; by subst. Qed.

Lemma save_inr external_ok c wt (w : world) u w' :
  save external_ok c wt w = (inr u, w') →
  external_ok (KWriteConfig c) = true ∧
  external_ok (KSaveWeights wt) = true ∧
  w' = {| heap := heap w; files := {[wt]} ∪ ({[c]} ∪ files w);
          log := log w ++ [KWriteConfig c; KSaveWeights wt] |}.
Proof.
  unfold save. intros H.
  apply bind_inr in H as (? & w1 & [Hc ->]%external_inr & H1).
  apply bind_inr in H1 as (? & w2 & Hfile & H2).
  cbv [create_file modify] in Hfile. simplify_eq.
  apply bind_inr in H2 as (? & w3 & [Hw ->]%external_inr & Hfile2).
  cbv [create_file modify] in Hfile2. simplify_eq.
  simpl. by rewrite <-app_assoc.
Qed.

(** What a run of the training branch that returns has done. *)
Lemma train_char_model_inr CHAR_SET external_ok cl mwl l emb mwp mcp bs vp
    seed (w : world) r w' :
  train_char_model CHAR_SET external_ok cl mwl l emb mwp mcp bs vp seed w
  = (inr r, w') →
  ∃ e v chars y,
    emb = Some e ∧ heap w !! l = Some v ∧
    prepare_words CHAR_SET (shrink (shape0 e) v) mwl = Some (chars, y) ∧
    r = cl ∧
    files w' = cache_paths mwp mcp ∪ files w ∧
    log w' = log w
             ++ [KBuild cl (size (shrink (shape0 e) v)) (shape1 e) mwl;
                 KFit chars y bs vp seed]
             ++ save_events mwp mcp.
Proof.
  unfold train_char_model. intros H.
  apply bind_inr in H as (l' & w1 & Hcopy & H).
  unfold deepcopy in Hcopy. destruct (heap w !! l) as [v|] eqn:Hv; [|done].
  injection Hcopy as <- <-.
  apply bind_inr in H as (e & w2 & He & H).
  apply lift_inr in He as [-> ->].
  apply bind_inr in H as (? & w3 & Hshrink & H3).
  cbv [shrink_at modify] in Hshrink. simplify_eq.
  apply bind_inr in H3 as (v' & w4 & [Hv' ->]%read_inr & H4).
  simpl in Hv'. rewrite lookup_alter_eq, lookup_insert_eq in Hv'.
  injection Hv' as <-.
  apply bind_inr in H4 as (cl' & w5 & Hbuild & H5).
  unfold build in Hbuild.
  apply bind_inr in Hbuild as (? & w6 & [Hb ->]%external_inr & Hret).
  cbv [ret] in Hret. simplify_eq.
  apply bind_inr in H5 as (? & w7 & Htrain & H7).
  unfold train in Htrain.
  apply bind_inr in Htrain as (v' & w8 & [Hv' ->]%read_inr & Htrain).
  simpl in Hv'. rewrite lookup_alter_eq, lookup_insert_eq in Hv'.
  injection Hv' as <-.
  apply bind_inr in Htrain as ([chars y] & w9 & [Hcy ->]%lift_inr & Htrain).
  apply external_inr in Htrain as [Hfit ->].
  apply bind_inr in H7 as (? & w10 & Hsave & Hret2).
  cbv [ret] in Hret2. simplify_eq.
  exists e, v, chars, y. split_and!; [done..| |].
  - destruct mcp as [c|], mwp as [wt|]; simpl;
      [apply save_inr in Hsave as (_ & _ & ->); simpl
      |cbv [ret] in Hsave; simplify_eq; simpl; by rewrite (left_id_L ∅ (∪))..].
    by rewrite (assoc_L (∪)), (comm_L (∪) {[wt]}).
  - destruct mcp as [c|], mwp as [wt|]; simpl;
      [apply save_inr in Hsave as (_ & _ & ->); simpl
      |cbv [ret] in Hsave; simplify_eq; simpl; by rewrite <-?app_assoc, ?app_nil_r..].
    by rewrite <-!app_assoc.
Qed.

Lemma get_char_model_trains CHAR_SET external_ok cl mwl l emb mwp mcp bs vp
    seed (w : world) :
  (∀ c, mcp = Some c → c ∉ files w) →
  get_char_model CHAR_SET external_ok cl mwl l emb mwp mcp bs vp seed w
  = train_char_model CHAR_SET external_ok cl mwl l emb mwp mcp bs vp seed w.
Proof.
  intros Hno. unfold get_char_model. destruct mcp as [c|]; [|done].
  unfold bind at 1. unfold exists_.
  by rewrite bool_decide_eq_false_2 by by apply Hno.
Qed.

Lemma shrink_copy (h : gmap loc WordVocabulary) l' n v :
  alter (shrink n) l' (<[l' := v]> h) = <[l' := shrink n v]> h.
Proof.
  apply map_eq. intros j. destruct (decide (j = l')) as [->|Hne].
  - by rewrite lookup_alter_eq, !lookup_insert_eq.
  - by rewrite lookup_alter_ne, !lookup_insert_ne.
Qed.

(** X5: a run of [get_char_model] that trains and returns.  It was given
    an embedding matrix; it hands back the very layer it was given; Keras
    saw one build and one fit, in that order, then the two writes when both
    paths are given.  The classifier is built with as many outputs as the
    shrunk vocabulary has words, min(rows of the matrix, words), and is
    fitted on one left-padded row per such word with the labels 0, 1, ...,
    each below the number of outputs. *)
Theorem get_char_model_training_trace CHAR_SET external_ok cl mwl l emb mwp
    mcp bs vp seed (w : world) r w' :
  (∀ c, mcp = Some c → c ∉ files w) →
  get_char_model CHAR_SET external_ok cl mwl l emb mwp mcp bs vp seed w
  = (inr r, w') →
  ∃ e v,
    emb = Some e ∧ heap w !! l = Some v ∧ r = cl ∧
    log w'
    = log w
      ++ [KBuild cl (Nat.min (shape0 e) (size v)) (shape1 e) mwl;
          KFit (encoding CHAR_SET mwl <$> take (shape0 e) (words v))
               ((λ i, Z.of_nat i) <$> seq 0 (Nat.min (shape0 e) (size v)))
               bs vp seed]
      ++ save_events mwp mcp ∧
    files w' = cache_paths mwp mcp ∪ files w.
Proof.
  intros Hno H. rewrite get_char_model_trains in H by done.
  apply train_char_model_inr in H
    as (e & v & chars & y & -> & Hv & Hcy & -> & Hfiles & Hlog).
  exists e, v. split_and!; [done..| |done].
  rewrite Hlog. pose proof (prepare_words_inv _ _ _ _ _ Hcy) as ->.
  rewrite prepare_words_rows in Hcy.
  destruct (mapM _ _) as [rows|]; [|done]. injection Hcy as _ <-.
  unfold size, shrink. simpl. by rewrite length_take.
Qed.

Lemma get_char_model_training_trace_witness :
  log (get_char_model Examples.ab (λ _, true) Examples.chars_layer 5 0
         (Some {| shape0 := 2; shape1 := 16 |})
         (Some "char.h5") (Some "char.yaml") 128 0 42
         Examples.fresh_world).2
  = [KBuild Examples.chars_layer 2 16 5;
     KFit [[0; 0; 0; 0; 1]; [0; 0; 0; 0; 1]]%Z [0; 1]%Z 128 0 42;
     KWriteConfig "char.yaml"; KSaveWeights "char.h5"].
Proof.
  destruct (get_char_model_training_trace Examples.ab (λ _, true)
              Examples.chars_layer 5 0
              (Some {| shape0 := 2; shape1 := 16 |})
              (Some "char.h5") (Some "char.yaml") 128 0 42
              Examples.fresh_world Examples.chars_layer
              (get_char_model Examples.ab (λ _, true) Examples.chars_layer
                 5 0 (Some {| shape0 := 2; shape1 := 16 |})
                 (Some "char.h5") (Some "char.yaml") 128 0 42
                 Examples.fresh_world).2)
    as (e & v & He & Hv & _ & Hlog & _).
  - intros c _. unfold Examples.fresh_world. simpl. apply not_elem_of_empty.
  - reflexivity.
  - injection He as <-. injection Hv as <-. exact Hlog.
Defined.

(** X6: the cache round trip.  After any call with both paths that
    returns, both files are there; so the next call with these paths,
    whatever layer, vocabulary, matrix and settings it is given, makes one
    load and nothing else, and hands back the layer cut out of the saved
    model and not the layer it was given. *)
Theorem get_char_model_second_call_loads CHAR_SET external_ok cl mwl l emb
    wt c bs vp seed (w : world) r w' :
  get_char_model CHAR_SET external_ok cl mwl l emb (Some wt) (Some c)
    bs vp seed w = (inr r, w') →
  c ∈ files w' ∧ wt ∈ files w' ∧
  ∀ cl2 mwl2 l2 emb2 bs2 vp2 seed2,
    get_char_model CHAR_SET external_ok cl2 mwl2 l2 emb2 (Some wt) (Some c)
      bs2 vp2 seed2 w'
    = (if external_ok (KLoad c wt) then inr (LoadedChars c wt)
       else inl Exception,
       {| heap := heap w'; files := files w';
          log := log w' ++ [KLoad c wt] |}).
Proof.
  intros H.
  assert (c ∈ files w' ∧ wt ∈ files w') as [Hc Hwt].
  { destruct (decide (c ∈ files w)) as [Hin|Hout].
    - unfold get_char_model in H.
      unfold bind at 1 in H. unfold exists_ at 1 in H.
      rewrite bool_decide_eq_true_2 in H by done.
      unfold bind at 1 in H. unfold exists_ at 1 in H.
      destruct (decide (wt ∈ files w)) as [Hin'|Hout'].
      + rewrite bool_decide_eq_true_2 in H by done.
        unfold load in H.
        apply bind_inr in H as (? & w2 & [_ ->]%external_inr & Hret).
        cbv [ret] in Hret. by simplify_eq.
      + by rewrite bool_decide_eq_false_2 in H by done.
    - rewrite get_char_model_trains in H by (by intros ? [= <-]).
      apply train_char_model_inr in H as (_ & _ & _ & _ & _ & _ & _ & _ & -> & _).
      simpl. split; apply elem_of_union_l.
      + apply elem_of_union_l. by apply elem_of_singleton.
      + apply elem_of_union_r. by apply elem_of_singleton. }
  split_and!; [done..|]. intros.
  unfold get_char_model, bind, exists_.
  rewrite !bool_decide_eq_true_2 by done.
  unfold load, bind, external, ret. by destruct (external_ok _).
Qed.

Lemma get_char_model_second_call_loads_witness :
  get_char_model Examples.ab (λ _, true)
    (build_dense_chars_layer 7 3 2 2 2 0) 7 0 None
    (Some "char.h5") (Some "char.yaml") 1 0 0
    (get_char_model Examples.ab (λ _, true) Examples.chars_layer 5 0
       (Some {| shape0 := 2; shape1 := 16 |})
       (Some "char.h5") (Some "char.yaml") 128 0 42
       Examples.fresh_world).2
  = (inr (LoadedChars "char.yaml" "char.h5"),
     {| heap := heap (get_char_model Examples.ab (λ _, true)
                        Examples.chars_layer 5 0
                        (Some {| shape0 := 2; shape1 := 16 |})
                        (Some "char.h5") (Some "char.yaml") 128 0 42
                        Examples.fresh_world).2;
        files := files (get_char_model Examples.ab (λ _, true)
                          Examples.chars_layer 5 0
                          (Some {| shape0 := 2; shape1 := 16 |})
                          (Some "char.h5") (Some "char.yaml") 128 0 42
                          Examples.fresh_world).2;
        log := log (get_char_model Examples.ab (λ _, true)
                      Examples.chars_layer 5 0
                      (Some {| shape0 := 2; shape1 := 16 |})
                      (Some "char.h5") (Some "char.yaml") 128 0 42
                      Examples.fresh_world).2
               ++ [KLoad "char.yaml" "char.h5"] |}).
Proof.
  apply (get_char_model_second_call_loads Examples.ab (λ _, true)
           Examples.chars_layer 5 0 (Some {| shape0 := 2; shape1 := 16 |})
           "char.h5" "char.yaml" 128 0 42 Examples.fresh_world
           Examples.chars_layer _ eq_refl).
Defined.

(** X7: the training branch reads the shape of the embedding matrix before
    anything is built: without a matrix the call ends in an
    [AttributeError]; by then the vocabulary has been copied, and Keras and
    the disk have not been touched. *)
Theorem get_char_model_needs_embeddings CHAR_SET external_ok cl mwl l mwp
    mcp bs vp seed (w : world) v :
  (∀ c, mcp = Some c → c ∉ files w) →
  heap w !! l = Some v →
  get_char_model CHAR_SET external_ok cl mwl l None mwp mcp bs vp seed w
  = (inl AttributeError,
     {| heap := <[fresh (dom (heap w)) := v]> (heap w);
        files := files w; log := log w |}).
Proof.
  intros Hno Hv. rewrite get_char_model_trains by done.
  unfold train_char_model, bind, deepcopy. by rewrite Hv.
Qed.

Lemma get_char_model_needs_embeddings_witness :
  get_char_model Examples.ab (λ _, true) Examples.chars_layer 5 0 None
    (Some "char.h5") (Some "char.yaml") 128 0 42 Examples.fresh_world
  = (inl AttributeError,
     {| heap := <[fresh (dom (heap Examples.fresh_world))
                  := Examples.vocabulary3]> (heap Examples.fresh_world);
        files := files Examples.fresh_world;
        log := log Examples.fresh_world |}).
Proof.
  apply (get_char_model_needs_embeddings Examples.ab (λ _, true)
           Examples.chars_layer 5 0 (Some "char.h5") (Some "char.yaml")
           128 0 42 Examples.fresh_world Examples.vocabulary3).
  - intros c _. unfold Examples.fresh_world. simpl. apply not_elem_of_empty.
  - reflexivity.
Defined.

(** X8: an empty word among the words kept by the shrink stops the
    training branch between the build and the fit: the classifier has been
    built, the slice assignment of [prepare_words] raises [ValueError],
    nothing is fitted and nothing is written. *)
Theorem get_char_model_empty_word_aborts CHAR_SET external_ok cl mwl l e mwp
    mcp bs vp seed (w : world) v :
  (∀ c, mcp = Some c → c ∉ files w) →
  heap w !! l = Some v →
  [] ∈ take (shape0 e) (words v) →
  mwl ≠ 0 →
  external_ok (KBuild cl (Nat.min (shape0 e) (size v)) (shape1 e) mwl) = true →
  get_char_model CHAR_SET external_ok cl mwl l (Some e) mwp mcp bs vp seed w
  = (inl ValueError,
     {| heap := <[fresh (dom (heap w)) := shrink (shape0 e) v]> (heap w);
        files := files w;
        log := log w
               ++ [KBuild cl (Nat.min (shape0 e) (size v)) (shape1 e) mwl] |}).
Proof.
  intros Hno Hv Hin Hmwl Hok. rewrite get_char_model_trains by done.
  assert (prepare_words CHAR_SET (shrink (shape0 e) v) mwl = None) as Hnone.
  { rewrite prepare_words_rows.
    assert (mapM (assign_row CHAR_SET mwl) (words (shrink (shape0 e) v))
            = None) as ->; [|done].
    apply mapM_None_2, Exists_exists. exists []. split; [done|].
    by apply assign_row_empty. }
  assert (size (shrink (shape0 e) v) = Nat.min (shape0 e) (size v)) as Hsize.
  { unfold size, shrink. simpl. by rewrite length_take. }
  unfold train_char_model.
  erewrite bind_run by (unfold deepcopy; by rewrite Hv).
  erewrite bind_run by reflexivity.
  erewrite bind_run by reflexivity.
  cbn [heap files log]. rewrite shrink_copy.
  erewrite bind_run
    by (unfold read; cbn [heap]; by rewrite lookup_insert_eq).
  erewrite bind_run
    by (unfold build, bind, external; by rewrite Hsize, Hok).
  apply bind_raise. unfold train.
  erewrite bind_run
    by (unfold read; cbn [heap]; by rewrite lookup_insert_eq).
  apply bind_raise. by rewrite Hnone.
Qed.

Lemma get_char_model_empty_word_aborts_witness :
  get_char_model Examples.ab (λ _, true) Examples.chars_layer 5 0
    (Some {| shape0 := 2; shape1 := 16 |})
    (Some "char.h5") (Some "char.yaml") 128 0 42 gapped_world
  = (inl ValueError,
     {| heap := <[fresh (dom (heap gapped_world))
                  := {| words := [[97]%N; []] |}]>
                  (heap gapped_world);
        files := files gapped_world;
        log := [KBuild Examples.chars_layer 2 16 5] |}).
Proof.
  apply (get_char_model_empty_word_aborts Examples.ab (λ _, true)
           Examples.chars_layer 5 0 {| shape0 := 2; shape1 := 16 |}
           (Some "char.h5") (Some "char.yaml") 128 0 42
           gapped_world
           {| words := [[97]%N; []; [98]%N] |}).
  - intros c _. unfold gapped_world. simpl. apply not_elem_of_empty.
  - reflexivity.
  - simpl. apply list_elem_of_further, list_elem_of_here.
  - lia.
  - reflexivity.
Defined.

End GetCharModelMore.

(** ** Further properties of [evaluate] *)

Module EvaluateMore.

Import Py PyFacts CharEmbeddings Tagger TaggerFacts MoreTagger.

Lemma mismatches_le pairs : mismatches pairs ≤ length pairs.
Proof. apply length_filter. Qed.

Lemma evaluate_sentence_coherent predicted_y c i sentence c' :
  coherent c → evaluate_sentence predicted_y c i sentence = Some c' →
  coherent c'.
Proof.
  intros (H1 & H2 & H3 & H4). unfold evaluate_sentence.
  destruct (predicted_y !! i) as [probs|]; [|done]. cbn [mbind option_bind].
  destruct (mapM _ _) as [answer|]; [|done]. cbn [mbind option_bind].
  rewrite compare_tags_fold. intros [= <-].
  pose proof (mismatches_le
    (zip (slice_from sentence
            (Z.of_nat (length (filter (λ num, num = 0%Z) sentence))))
         answer)) as Hle.
  unfold coherent. cbn [word_count word_errors sentence_count sentence_errors].
  destruct (decide (mismatches
    (zip (slice_from sentence
            (Z.of_nat (length (filter (λ num, num = 0%Z) sentence))))
         answer) ≠ 0)) as [Hne|Heq].
  - rewrite bool_decide_eq_true_2 by done. simpl. lia.
  - rewrite bool_decide_eq_false_2 by done. simpl. lia.
Qed.

Lemma evaluate_sentences_coherent predicted_y c i y c' :
  coherent c → evaluate_sentences predicted_y c i y = Some c' → coherent c'.
Proof.
  revert c i. induction y as [|sentence y IH]; intros c i Hc; simpl.
  - by intros [= <-].
  - destruct (evaluate_sentence predicted_y c i sentence) as [c1|] eqn:H1;
      [|done].
    cbn [mbind option_bind]. apply IH. by eapply evaluate_sentence_coherent.
Qed.

Lemma evaluate_batches_coherent model_predict nwb c bs c' :
  coherent c → evaluate_batches model_predict nwb c bs = Some c' →
  coherent c'.
Proof.
  revert c. induction bs as [|b bs IH]; intros c Hc; simpl.
  - by intros [= <-].
  - destruct (evaluate_batch model_predict nwb c b) as [c1|] eqn:H1; [|done].
    cbn [mbind option_bind]. apply IH.
    unfold evaluate_batch in H1. case_decide; [done|].
    by eapply evaluate_sentences_coherent.
Qed.

Lemma accuracy_range errors count a :
  errors ≤ count → accuracy errors count = Some a →
  (0 <= a)%Q ∧ (a <= 1)%Q ∧ ((a == 1)%Q ↔ errors = 0).
Proof.
  intros Hle. unfold accuracy. case_decide as Hc; [done|]. intros [= <-].
  assert (0 < inject_Z (Z.of_nat count))%Q as Hpos.
  { unfold Qlt, inject_Z. simpl. lia. }
  assert (0 <= inject_Z (Z.of_nat errors) / inject_Z (Z.of_nat count))%Q
    as H0.
  { apply Qle_shift_div_l; [done|]. unfold Qle, inject_Z. simpl. lia. }
  assert (inject_Z (Z.of_nat errors) / inject_Z (Z.of_nat count) <= 1)%Q
    as H1.
  { apply Qle_shift_div_r; [done|]. unfold Qle, inject_Z. simpl. lia. }
  split_and!; [lra|lra|]. split.
  - intros Heq.
    assert (inject_Z (Z.of_nat errors) / inject_Z (Z.of_nat count) == 0)%Q
      as Hz by lra.
    apply (Qmult_inj_r _ _ (inject_Z (Z.of_nat count))) in Hz; [|lra].
    rewrite Qmult_0_l in Hz. unfold Qdiv in Hz.
    rewrite <-Qmult_assoc, (Qmult_comm (/ _)), Qmult_inv_r, Qmult_1_r in Hz
      by lra.
    unfold Qeq, inject_Z in Hz. simpl in Hz. lia.
  - intros ->. simpl. unfold Qdiv. rewrite Qmult_0_l. lra.
Qed.

(** X9: whenever [evaluate] prints its two numbers, both lie between 0 and
    1, and one of them is 1 exactly when the other is: the word accuracy
    is perfect if and only if the sentence accuracy is. *)
Theorem evaluate_accuracies_in_unit_interval model_predict nwb batches
    word_accuracy sentence_accuracy :
  evaluate model_predict nwb batches
  = Some (word_accuracy, sentence_accuracy) →
  (0 <= word_accuracy)%Q ∧ (word_accuracy <= 1)%Q ∧
  (0 <= sentence_accuracy)%Q ∧ (sentence_accuracy <= 1)%Q ∧
  ((word_accuracy == 1)%Q ↔ (sentence_accuracy == 1)%Q).
Proof.
  unfold evaluate.
  destruct (evaluate_batches _ _ _ _) as [c|] eqn:Hc; [|done].
  cbn [mbind option_bind].
  apply evaluate_batches_coherent in Hc as (H1 & H2 & H3 & H4);
    [|unfold coherent; simpl; lia].
  destruct (accuracy (word_errors c) (word_count c)) as [wa|] eqn:Hwa;
    [|done].
  cbn [mbind option_bind].
  destruct (accuracy (sentence_errors c) (sentence_count c)) as [sa|] eqn:Hsa;
    [|done].
  cbn [mbind option_bind]. intros [= <- <-].
  apply accuracy_range in Hwa as (? & ? & Hw); [|done].
  apply accuracy_range in Hsa as (? & ? & Hs); [|done].
  split_and!; [done..|]. rewrite Hw, Hs. lia.
Qed.

Lemma evaluate_accuracies_in_unit_interval_witness :
  (0 <= 2 # 3)%Q ∧ (2 # 3 <= 1)%Q ∧ (0 <= 1 # 2)%Q ∧ (1 # 2 <= 1)%Q ∧
  ((2 # 3 == 1)%Q ↔ (1 # 2 == 1)%Q).
Proof.
  apply (evaluate_accuracies_in_unit_interval Examples.one_hot_network 100
           [Examples.gold_batch]).
  vm_compute. reflexivity.
Defined.

Lemma count_all_zero (sentence : list Z) :
  Forall (λ num, num = 0%Z) sentence →
  length (filter (λ num, num = 0%Z) sentence) = length sentence.
Proof.
  induction 1 as [|num sentence Hnum _ IH]; [done|].
  rewrite filter_cons, decide_True by done. simpl. by rewrite IH.
Qed.

Lemma evaluate_sentences_all_pad predicted_y c i y c' :
  Forall (Forall (λ num, num = 0%Z)) y →
  evaluate_sentences predicted_y c i y = Some c' →
  word_count c' = word_count c.
Proof.
  intros Hy. revert c i.
  induction Hy as [|sentence y Hs _ IH]; intros c i; simpl.
  - by intros [= <-].
  - unfold evaluate_sentence at 1.
    destruct (predicted_y !! i) as [probs|]; [|done]. cbn [mbind option_bind].
    destruct (mapM _ _) as [answer|]; [|done]. cbn [mbind option_bind].
    rewrite count_all_zero, slice_from_nonneg, drop_all by done.
    simpl. intros H. by apply IH in H.
Qed.

Lemma evaluate_batches_all_pad model_predict nwb c bs c' :
  Forall all_pad bs →
  evaluate_batches model_predict nwb c bs = Some c' →
  word_count c' = word_count c.
Proof.
  intros Hbs. revert c.
  induction Hbs as [|b bs Hb _ IH]; intros c; simpl.
  - by intros [= <-].
  - destruct (evaluate_batch model_predict nwb c b) as [c1|] eqn:H1; [|done].
    cbn [mbind option_bind]. intros H. apply IH in H. rewrite H.
    unfold evaluate_batch in H1. case_decide; [done|].
    by eapply evaluate_sentences_all_pad.
Qed.

(** X10: [evaluate] divides by the number of scored words.  When the
    validation batches hold no gold class other than 0 (in particular when
    there is no batch, or no sentence) that number is 0 and the call
    raises instead of printing, whatever the network answers. *)
Theorem evaluate_raises_without_scored_words model_predict nwb batches :
  Forall all_pad batches →
  evaluate model_predict nwb batches = None.
Proof.
  intros Hpad. unfold evaluate.
  destruct (evaluate_batches _ _ _ _) as [c|] eqn:Hc; [|done].
  cbn [mbind option_bind].
  apply evaluate_batches_all_pad in Hc; [|done]. simpl in Hc.
  rewrite Hc. unfold accuracy at 1. by destruct (decide (0 = 0)).
Qed.

Lemma evaluate_raises_without_scored_words_witness :
  evaluate Examples.one_hot_network 100
    [{| eb_grammemes := np_zeros3 0%float 2 3 1;
        eb_chars := np_zeros3 0%Z 2 3 30;
        eb_y := [[0; 0; 0]; [0; 0; 0]]%Z |}] = None.
Proof.
  apply evaluate_raises_without_scored_words.
  repeat constructor.
Defined.

Lemma concat_Permutation {A} (ls ks : list (list A)) :
  ls ≡ₚ ks → concat ls ≡ₚ concat ks.
Proof.
  induction 1 as [|x ls ks _ IH|x y ls|ls ks ms _ IH1 _ IH2]; simpl.
  - done.
  - by rewrite IH.
  - rewrite !app_assoc. f_equiv. apply Permutation_app_comm.
  - by etrans.
Qed.

Lemma tally_Permutation sentences sentences' :
  sentences ≡ₚ sentences' → tally sentences = tally sentences'.
Proof. intros H. unfold tally. by rewrite H. Qed.

(** X11: the two accuracies do not depend on the order in which the
    generator yields the validation batches, as long as the network answers
    every batch with one distribution per position. *)
Theorem evaluate_ignores_batch_order model_predict nwb batches batches' :
  batches ≡ₚ batches' →
  Forall (λ b, dim1 (eb_grammemes b) ≠ 0) batches →
  Forall (answers_batch model_predict nwb) batches →
  evaluate model_predict nwb batches' = evaluate model_predict nwb batches.
Proof.
  intros Hperm Hdim Hans.
  rewrite (evaluate_tally _ _ batches) by done.
  rewrite (evaluate_tally _ _ batches') by by rewrite <-Hperm.
  assert (tally (scored_batches model_predict nwb batches')
          = tally (scored_batches model_predict nwb batches)) as ->; [|done].
  apply tally_Permutation. unfold scored_batches.
  apply concat_Permutation. by rewrite Hperm.
Qed.

Lemma evaluate_ignores_batch_order_witness :
  evaluate Examples.one_hot_network 100 [second_batch; Examples.gold_batch]
  = evaluate Examples.one_hot_network 100 [Examples.gold_batch; second_batch].
Proof.
  apply evaluate_ignores_batch_order.
  - apply perm_swap.
  - repeat constructor; by vm_compute.
  - repeat constructor; by vm_compute.
Defined.

End EvaluateMore.

(** ** Further properties of [train] *)

Module TrainMore.

Import Py PyMore PyFacts CharEmbeddings Tagger TaggerFacts MoreTagger.
Import EvaluateMore.

Section Train.

Variable corpus : gmap string (list (list char)).
Variable permutation : Z → nat → list nat.
Variable train_generator : list string → list nat → nat → list train_batch.
Variable eval_generator : list string → list nat → nat → list eval_batch.
Variable network : list event → predictor.

#[local] Abbreviation fits log := (filter (λ ev, is_fit ev = true) log).
#[local] Abbreviation evaluations log := (filter (λ ev, is_evaluate ev = true) log).

Lemma fits_snoc_fit log inputs y batch_size :
  fits (log ++ [Fit inputs y batch_size]) = fits log ++ [Fit inputs y batch_size].
Proof. by rewrite filter_app. Qed.

Lemma fits_snoc_save log c wt : fits (log ++ [Save c wt]) = fits log.
Proof. rewrite filter_app. simpl. apply app_nil_r. Qed.

Lemma evaluations_snoc_fit log inputs y batch_size :
  evaluations (log ++ [Fit inputs y batch_size]) = evaluations log.
Proof. rewrite filter_app. simpl. apply app_nil_r. Qed.

Lemma evaluations_snoc_save log c wt :
  evaluations (log ++ [Save c wt]) = evaluations log.
Proof. rewrite filter_app. simpl. apply app_nil_r. Qed.

(** One turn of the inner loop: at most one fit, no evaluation; a fit
    whenever the turn completes. *)
Lemma train_on_batch_fits tc bc epoch b (log : list event) r log' :
  train_on_batch tc bc epoch b log = (r, log') →
  evaluations log' = evaluations log ∧
  (fits log' = fits log ∧ r ≠ inr tt
   ∨ fits log' = fits log ++ [fit_event tc bc b]).
Proof.
  unfold train_on_batch. case_decide as Hdim.
  { intros [= <- <-]. split; [done|]. by left. }
  unfold bind, emit, modify, ret, raise.
  repeat case_decide; intros [= <- <-];
    rewrite ?evaluations_snoc_save, ?fits_snoc_save, evaluations_snoc_fit,
      fits_snoc_fit;
    (split; [done|by right]).
Qed.

Lemma train_on_batches_fits tc bc epoch bs (log : list event) r log' :
  train_on_batches tc bc epoch bs log = (r, log') →
  evaluations log' = evaluations log ∧
  ∃ done_, fits log' = fits log ++ done_ ∧
           done_ `prefix_of` (fit_event tc bc <$> bs) ∧
           (r = inr tt → done_ = fit_event tc bc <$> bs).
Proof.
  revert epoch log. induction bs as [|b bs IH]; intros epoch log; simpl.
  - intros [= <- <-]. split; [done|]. exists [].
    by rewrite app_nil_r.
  - unfold bind at 1.
    destruct (train_on_batch tc bc epoch b log) as [[e|[]] log1] eqn:H1.
    + intros [= <- <-]. apply train_on_batch_fits in H1 as [He Hf].
      split; [done|]. destruct Hf as [[Hf _]|Hf].
      * exists []. rewrite app_nil_r. split_and!; [done|apply prefix_nil|done].
      * exists [fit_event tc bc b]. split_and!; [done| |done].
        apply (prefix_cons _ []), prefix_nil.
    + intros H. apply IH in H as (He & done_ & Hf & Hpre & Hall).
      apply train_on_batch_fits in H1 as [He1 [[_ Hr]|Hf1]]; [done|].
      split; [congruence|]. exists (fit_event tc bc b :: done_).
      split_and!.
      * by rewrite Hf, Hf1, <-app_assoc.
      * by apply prefix_cons.
      * intros Hr. by rewrite Hall.
Qed.

Lemma run_evaluate_events tc batches (log : list event) r log' :
  run_evaluate network tc batches log = (r, log') →
  fits log' = fits log ∧
  (r ≠ inr tt ∧ log' = log
   ∨ r = inr tt ∧ length (evaluations log') = S (length (evaluations log))).
Proof.
  unfold run_evaluate.
  destruct (evaluate _ _ _) as [[wa sa]|]; intros [= <- <-].
  - rewrite !filter_app. simpl. rewrite app_nil_r. split; [done|]. right.
    split; [done|]. rewrite length_app. simpl. lia.
  - split; [done|]. by left.
Qed.

Lemma train_big_epochs_fits fns tc bc tr va big_epochs (log : list event)
    r log' :
  train_big_epochs train_generator eval_generator network fns tc bc tr va
    big_epochs log = (r, log') →
  ∃ done_, fits log' = fits log ++ done_ ∧
           done_ `prefix_of` all_fits train_generator tc bc fns tr big_epochs ∧
           length (evaluations log') ≤ length (evaluations log) + length big_epochs ∧
           (r = inr tt →
            done_ = all_fits train_generator tc bc fns tr big_epochs ∧
            length (evaluations log')
            = length (evaluations log) + length big_epochs).
Proof.
  revert log. induction big_epochs as [|be rest IH]; intros log; simpl.
  - intros [= <- <-]. exists []. rewrite app_nil_r.
    split_and!; [done|done|lia|]. intros _. split; [done|lia].
  - unfold all_fits. simpl. fold (all_fits train_generator tc bc fns tr rest).
    unfold bind at 1.
    destruct (train_on_batches tc bc 0 (train_generator fns tr be) log)
      as [[e|[]] log1] eqn:H1.
    + intros [= <- <-].
      apply train_on_batches_fits in H1 as (He & done_ & Hf & Hpre & _).
      exists done_. rewrite He.
      split_and!; [done|by apply prefix_app_r|lia|done].
    + apply train_on_batches_fits in H1 as (He1 & done1 & Hf1 & _ & Hall1).
      rewrite Hall1 in Hf1 by done. clear Hall1.
      unfold bind at 1.
      destruct (run_evaluate network tc (eval_generator fns va be) log1)
        as [[e|[]] log2] eqn:H2.
      * intros [= <- <-].
        apply run_evaluate_events in H2 as [Hf2 [[_ ->]|[? _]]]; [|done].
        eexists. rewrite He1.
        split_and!; [by rewrite Hf1|by apply prefix_app_r|lia|done].
      * apply run_evaluate_events in H2 as [Hf2 [[? _]|[_ He2]]]; [done|].
        rewrite He1 in He2.
        intros H. apply IH in H as (done_ & Hf & Hpre & Hle & Hall).
        exists ((fit_event tc bc <$> train_generator fns tr be) ++ done_).
        split_and!.
        -- by rewrite Hf, Hf2, Hf1, <-app_assoc.
        -- by apply prefix_app.
        -- lia.
        -- intros Hr. destruct (Hall Hr) as [-> Hn]. split; [done|lia].
Qed.

(** X12: [train] takes [epoch % dump_model_freq] from the second batch of
    a pass on.  With a frequency of 0 the run ends in a
    [ZeroDivisionError] right after the second fit of the first big
    epoch; nothing is saved or evaluated. *)
Theorem train_divides_by_dump_model_freq fns tc bc n tr va b0 b1 rest :
  count_samples corpus fns = Some n →
  get_split (permutation (random_seed tc) n) n (val_part tc) = Some (tr, va) →
  (0 < epochs_num tc)%Z →
  train_generator fns tr 0 = b0 :: b1 :: rest →
  dim1 (tb_grammemes b0) ≠ 0 → dim1 (tb_grammemes b1) ≠ 0 →
  dump_model_freq tc = 0%Z →
  train corpus permutation train_generator eval_generator network
    fns tc bc []
  = (inl ZeroDivisionError, [fit_event tc bc b0; fit_event tc bc b1]).
Proof.
  intros Hn Hsplit Hep Hgen Hd0 Hd1 Hfreq. unfold train.
  rewrite Hn. erewrite bind_run by reflexivity.
  rewrite Hsplit. erewrite bind_run by reflexivity. simpl.
  destruct (Z.to_nat (epochs_num tc)) as [|k] eqn:Hk; [lia|].
  simpl. rewrite Hgen. apply bind_raise. simpl.
  unfold bind at 1. unfold train_on_batch at 1.
  rewrite decide_False by done.
  unfold bind at 1. unfold emit at 1, modify at 1.
  rewrite decide_False by (intros ?; done). unfold ret at 1.
  apply bind_raise. unfold train_on_batch.
  rewrite decide_False by done.
  unfold bind, emit, modify.
  rewrite decide_True by done. by rewrite decide_True by done.
Qed.

(** X13: every run of [train], however it ends, has fitted a prefix of
    the batches that the generators of the big epochs yield, each once and
    in order, and has evaluated at most once per big epoch; a run that
    returns has fitted all of them and evaluated exactly once per big
    epoch. *)
Theorem train_fits_each_batch_once fns tc bc n tr va r (log : list event) :
  count_samples corpus fns = Some n →
  get_split (permutation (random_seed tc) n) n (val_part tc) = Some (tr, va) →
  train corpus permutation train_generator eval_generator network
    fns tc bc [] = (r, log) →
  fits log `prefix_of`
    all_fits train_generator tc bc fns tr (seq 0 (Z.to_nat (epochs_num tc))) ∧
  length (evaluations log) ≤ Z.to_nat (epochs_num tc) ∧
  (r = inr tt →
   fits log
   = all_fits train_generator tc bc fns tr (seq 0 (Z.to_nat (epochs_num tc))) ∧
   length (evaluations log) = Z.to_nat (epochs_num tc)).
Proof.
  intros Hn Hsplit. unfold train.
  rewrite Hn. erewrite bind_run by reflexivity.
  rewrite Hsplit. erewrite bind_run by reflexivity. simpl.
  intros H. apply train_big_epochs_fits in H as (done_ & Hf & Hpre & Hle & Hall).
  simpl in *. rewrite length_seq in *. subst done_.
  split_and!; [done..|]. intros Hr. by destruct (Hall Hr).
Qed.

(** X14: when the validation batches of the first big epoch hold no gold
    class other than 0 (no validation sentence at all, for instance), a
    run of at least one big epoch never returns: it raises during the
    first big epoch, before any evaluation is printed. *)
Theorem train_stops_without_scored_words fns tc bc n tr va :
  count_samples corpus fns = Some n →
  get_split (permutation (random_seed tc) n) n (val_part tc) = Some (tr, va) →
  (0 < epochs_num tc)%Z →
  Forall all_pad (eval_generator fns va 0) →
  ∃ e log,
    train corpus permutation train_generator eval_generator network
      fns tc bc [] = (inl e, log) ∧
    evaluations log = [] ∧
    fits log `prefix_of` (fit_event tc bc <$> train_generator fns tr 0).
Proof.
  intros Hn Hsplit Hep Hpad. unfold train.
  rewrite Hn. erewrite bind_run by reflexivity.
  rewrite Hsplit. erewrite bind_run by reflexivity. simpl.
  destruct (Z.to_nat (epochs_num tc)) as [|k] eqn:Hk; [lia|].
  simpl. unfold bind at 1.
  destruct (train_on_batches tc bc 0 (train_generator fns tr 0) [])
    as [[e|[]] log1] eqn:H1;
    apply train_on_batches_fits in H1 as (He & done_ & Hf & Hpre & Hall);
    simpl in He, Hf; subst done_.
  - by exists e, log1.
  - unfold bind at 1, run_evaluate at 1.
    assert (evaluate (network log1) (num_words_in_batch tc)
              (eval_generator fns va 0) = None) as ->.
    { unfold evaluate.
      destruct (evaluate_batches _ _ _ _) as [c|] eqn:Hc; [|done].
      cbn [mbind option_bind].
      apply evaluate_batches_all_pad in Hc; [|done]. simpl in Hc.
      rewrite Hc. unfold accuracy at 1. by destruct (decide (0 = 0)). }
    exists Exception, log1. split_and!; [done..|]. by rewrite Hall.
Qed.

End Train.

Lemma train_divides_by_dump_model_freq_witness :
  train Examples.corpus Examples.reversed Examples.three_batches
    Examples.gold_batches (λ _, Examples.one_hot_network)
    ["corpus.txt"] zero_freq_config Examples.build_config []
  = (inl ZeroDivisionError,
     [fit_event zero_freq_config Examples.build_config
        Examples.one_word_batch;
      fit_event zero_freq_config Examples.build_config
        Examples.one_word_batch]).
Proof.
  apply (train_divides_by_dump_model_freq Examples.corpus Examples.reversed
           Examples.three_batches Examples.gold_batches
           (λ _, Examples.one_hot_network) ["corpus.txt"] zero_freq_config
           Examples.build_config 3 [2] [1; 0] Examples.one_word_batch
           Examples.one_word_batch [Examples.one_word_batch]).
  - reflexivity.
  - reflexivity.
  - reflexivity.
  - reflexivity.
  - by vm_compute.
  - by vm_compute.
  - reflexivity.
Defined.

Lemma train_fits_each_batch_once_witness :
  filter (λ ev, is_fit ev = true)
    (train Examples.corpus Examples.reversed Examples.three_batches
       Examples.gold_batches (λ _, Examples.one_hot_network)
       ["corpus.txt"] Examples.train_config Examples.build_config []).2
  = all_fits Examples.three_batches Examples.train_config
      Examples.build_config ["corpus.txt"] [2] [0] ∧
  length (filter (λ ev, is_evaluate ev = true)
            (train Examples.corpus Examples.reversed Examples.three_batches
               Examples.gold_batches (λ _, Examples.one_hot_network)
               ["corpus.txt"] Examples.train_config Examples.build_config
               []).2) = 1.
Proof.
  destruct (train_fits_each_batch_once Examples.corpus Examples.reversed
              Examples.three_batches Examples.gold_batches
              (λ _, Examples.one_hot_network) ["corpus.txt"]
              Examples.train_config Examples.build_config 3 [2] [1; 0]
              (inr tt)
              (train Examples.corpus Examples.reversed Examples.three_batches
                 Examples.gold_batches (λ _, Examples.one_hot_network)
                 ["corpus.txt"] Examples.train_config Examples.build_config
                 []).2 eq_refl eq_refl) as (_ & _ & H).
  - reflexivity.
  - exact (H eq_refl).
Defined.

Lemma train_stops_without_scored_words_witness :
  ∃ e log,
    train Examples.corpus Examples.reversed Examples.three_batches
      pad_batches (λ _, Examples.one_hot_network)
      ["corpus.txt"] Examples.train_config Examples.build_config []
    = (inl e, log) ∧
    filter (λ ev, is_evaluate ev = true) log = [] ∧
    filter (λ ev, is_fit ev = true) log
    `prefix_of` (fit_event Examples.train_config Examples.build_config
                   <$> Examples.three_batches ["corpus.txt"] [2] 0).
Proof.
  apply (train_stops_without_scored_words Examples.corpus Examples.reversed
           Examples.three_batches pad_batches
           (λ _, Examples.one_hot_network) ["corpus.txt"]
           Examples.train_config Examples.build_config 3 [2] [1; 0]).
  - reflexivity.
  - reflexivity.
  - reflexivity.
  - repeat constructor.
Defined.

End TrainMore.

(** ** Further properties of [predict_proba] and [predict] *)

Module InferenceMore.

Import Py PyFacts CharEmbeddings Tagger TaggerFacts MoreTagger.

(** Assigning no rows to a slice of a block whose rows have cells cannot
    be broadcast. *)
Lemma np_set_rows_from_nothing {A} G (block : list (list A)) a :
  G ≠ 0 → np_set_rows_from G block a [] = None.
Proof.
  intros HG. unfold np_set_rows_from, np_broadcast2.
  by rewrite decide_False.
Qed.

Lemma fill_sample_empty grammemes_count get_sample mwl wmc gc i :
  sample_shape_ok grammemes_count get_sample mwl wmc [] →
  grammemes_count ≠ 0 ∨ mwl ≠ 0 →
  fill_sample grammemes_count get_sample mwl wmc gc i [] = None.
Proof.
  unfold sample_shape_ok, fill_sample.
  destruct (get_sample [] mwl wmc) as [g c].
  intros (Hg & _ & Hc & _) Hwidth.
  apply nil_length_inv in Hg as ->. apply nil_length_inv in Hc as ->.
  destruct (gc.1 !! i) as [g0|]; [|done]. cbn [mbind option_bind].
  destruct (decide (grammemes_count = 0)) as [HG|HG].
  - destruct Hwidth as [|Hm]; [done|].
    destruct (np_set_rows_from _ _ _ _); [|done]. cbn [mbind option_bind].
    destruct (gc.2 !! i) as [c0|]; [|done]. cbn [mbind option_bind].
    by rewrite np_set_rows_from_nothing.
  - by rewrite np_set_rows_from_nothing.
Qed.

Lemma fill_samples_empty grammemes_count get_sample mwl wmc gc i
    (sentences : list (list word)) :
  sample_shape_ok grammemes_count get_sample mwl wmc [] →
  grammemes_count ≠ 0 ∨ mwl ≠ 0 →
  [] ∈ sentences →
  fill_samples grammemes_count get_sample mwl wmc gc i sentences = None.
Proof.
  intros Hshape Hwidth Hin. revert gc i.
  induction sentences as [|s sentences IH]; intros gc i;
    [by apply elem_of_nil in Hin|].
  simpl. apply elem_of_cons in Hin as [<-|Hin].
  - by rewrite fill_sample_empty.
  - destruct (fill_sample _ _ _ _ _ _ _) as [gc'|]; [|done].
    cbn [mbind option_bind]. by apply IH.
Qed.

(** X15: [predict_proba] returns exactly on the batches that have a
    sentence and no sentence without words: the maximum of no lengths and
    the slice assignment [x[i, -0:] = []] both raise.  The sample of every
    sentence has the declared shape, and one of the two arrays has cells. *)
Theorem predict_proba_needs_words grammemes_count get_sample model_predict
    (sentences : list (list word)) mwl wmc :
  Forall (sample_shape_ok grammemes_count get_sample mwl wmc) sentences →
  grammemes_count ≠ 0 ∨ mwl ≠ 0 →
  is_Some (predict_proba grammemes_count get_sample model_predict
             sentences mwl wmc)
  ↔ sentences ≠ [] ∧ [] ∉ sentences.
Proof.
  intros Hshape Hwidth. split.
  - intros Hsome. split.
    + intros ->. by destruct Hsome.
    + intros Hin. rewrite Forall_forall in Hshape.
      unfold predict_proba in Hsome.
      destruct (py_max _) as [l|]; [|by destruct Hsome].
      cbn [mbind option_bind] in Hsome.
      rewrite fill_samples_empty in Hsome by auto. by destruct Hsome.
  - intros [Hne Hno].
    destruct (predict_proba_returns grammemes_count get_sample model_predict
                sentences mwl wmc Hne) as (l & _ & ->); [|done].
    apply Forall_forall. intros s Hs. rewrite Forall_forall in Hshape.
    split; [|by apply Hshape]. by intros ->.
Qed.

Lemma predict_proba_needs_words_witness :
  is_Some (predict_proba 1 Examples.one_feature_sample Examples.fixed_network
             [[[97]%N]; []] 30 10000)
  ↔ [[[97]%N]; []] ≠ [] ∧ [] ∉ [[[97]%N]; []].
Proof.
  apply predict_proba_needs_words.
  - repeat constructor.
  - left. lia.
Defined.

(** X16: a network with a single output class leaves [predict] nothing to
    choose from: [grammeme_probs[1:]] is empty and [np.argmax] raises, on
    every batch that [predict_proba] answers. *)
Theorem predict_needs_two_classes grammemes_count get_sample model_predict
    classes (sentences : list (list word)) :
  classes ≤ 1 →
  sentences ≠ [] →
  Forall (λ s, s ≠ [] ∧
               sample_shape_ok grammemes_count get_sample 30 10000 s)
         sentences →
  keras_shape_ok model_predict classes →
  is_Some (predict_proba grammemes_count get_sample model_predict
             sentences 30 10000) ∧
  predict grammemes_count get_sample model_predict sentences = None.
Proof.
  intros Hc Hne Hall Hkeras.
  destruct (predict_proba_returns grammemes_count get_sample model_predict
              sentences 30 10000 Hne Hall) as (l & Hl & Hp).
  split; [by rewrite Hp|].
  unfold predict. rewrite Hp. cbn [mbind option_bind].
  match goal with |- context [zip sentences (model_predict ?g ?c ?b)] =>
    destruct (Hkeras g c b) as [Hn Hshape];
    cbn [cells dim1] in Hn, Hshape; rewrite length_fmap in Hn;
    clear Hp; revert Hn Hshape; generalize (model_predict g c b) end.
  intros probs Hn Hshape.
  destruct sentences as [|s ss]; [done|].
  destruct probs as [|sp probs]; [simpl in Hn; lia|].
  apply Forall_cons in Hall as [[Hs _] _].
  apply Forall_cons in Hshape as [[Hsp Hcls] _].
  assert (length s ≤ l) as Hle.
  { eapply (py_max_ge _ _ _ Hl). simpl. left. }
  apply mapM_None_2. apply Exists_cons_hd. unfold decode_sentence.
  apply mapM_None_2.
  assert (Forall (λ p, length p = classes)
            (slice_from sp (- Z.of_nat (length s)))) as Hkept
    by by apply Forall_drop.
  assert (0 < length s) as Hpos by (destruct s; [done|simpl; lia]).
  assert (length (slice_from sp (- Z.of_nat (length s))) = length s) as Hlen
    by (apply slice_from_neg_length; lia).
  destruct (slice_from sp (- Z.of_nat (length s))) as [|gp kept].
  { simpl in Hlen. lia. }
  apply Exists_cons_hd. apply Forall_cons in Hkept as [Hgp _].
  rewrite slice_from_one.
  destruct gp as [|? [|? ?]]; simpl in *; [done|done|lia].
Qed.

Lemma single_class_network_shape : keras_shape_ok single_class_network 1.
Proof.
  intros g c b. unfold single_class_network. split.
  - by rewrite length_fmap.
  - apply Forall_fmap, Forall_forall. intros s _. simpl.
    split; [by rewrite length_replicate|].
    apply Forall_replicate. done.
Qed.

Lemma predict_needs_two_classes_witness :
  is_Some (predict_proba 1 Examples.one_feature_sample single_class_network
             Examples.two_sentences 30 10000) ∧
  predict 1 Examples.one_feature_sample single_class_network
    Examples.two_sentences = None.
Proof.
  apply (predict_needs_two_classes 1 Examples.one_feature_sample
           single_class_network 1).
  - lia.
  - discriminate.
  - apply two_sentences_shape.
  - apply single_class_network_shape.
Defined.

End InferenceMore.

(** ** Further properties of [count_samples] *)

Module CountSamplesMore.

Import Py PyMore CharEmbeddings Tagger MoreTagger.

Lemma filter_none {A} (P : A → Prop) `{∀ x, Decision (P x)} (l : list A) :
  Forall (λ x, ¬ P x) l → filter P l = [].
Proof.
  induction 1 as [|x l Hx _ IH]; [done|].
  by rewrite filter_cons, decide_False.
Qed.

Lemma not_blank line : is_blank line = false → ¬ is_blank line = true.
Proof. by intros ->. Qed.

Lemma blank_lines_terminated (sentences : list (list (list char))) :
  Forall (Forall (λ line, is_blank line = false)) sentences →
  length (filter (λ line, is_blank line = true) (terminated sentences))
  = length sentences.
Proof.
  induction 1 as [|s sentences Hs _ IH]; [done|].
  unfold terminated. rewrite fmap_cons. simpl concat.
  fold (terminated sentences). rewrite !filter_app, !length_app, IH.
  rewrite filter_none by (eapply Forall_impl; [done|apply not_blank]).
  done.
Qed.

(** X17: [count_samples] counts the blank lines.  On a file in which every
    sentence is followed by an empty line it returns the number of
    sentences; lines after the last empty line (a last sentence without
    its empty line) are not counted. *)
Theorem count_samples_counts_terminated_sentences
    (corpus : gmap string (list (list char))) filename sentences rest :
  corpus !! filename = Some (terminated sentences ++ rest) →
  Forall (Forall (λ line, is_blank line = false)) sentences →
  Forall (λ line, is_blank line = false) rest →
  count_samples corpus [filename] = Some (length sentences).
Proof.
  intros Hfile Hs Hrest. simpl. rewrite Hfile. cbn [mbind option_bind].
  rewrite filter_app, length_app, blank_lines_terminated by done.
  rewrite (filter_none _ rest) by (eapply Forall_impl; [done|apply not_blank]).
  simpl. f_equal. lia.
Qed.

Lemma count_samples_counts_terminated_sentences_witness :
  count_samples unterminated_corpus ["corpus.txt"] = Some 2.
Proof.
  apply (count_samples_counts_terminated_sentences unterminated_corpus
           "corpus.txt" [[[97; 10]%N]; [[98; 10]%N; [99; 10]%N]] [[97; 10]%N]).
  - reflexivity.
  - repeat constructor.
  - repeat constructor.
Defined.



End CountSamplesMore.

(** ** Further properties of [prepare] *)

Module PrepareMore.

Import Py PyMore CharEmbeddings Tagger TaggerFacts MoreTagger.

Section Prepare.

Context {GrammemeVectorizer File : Type}.
Variable gv_is_empty : GrammemeVectorizer → bool.
Variable gv_load : File → option GrammemeVectorizer.
Variable gv_save : GrammemeVectorizer → File.
Variable wv_load : File → option WordVocabulary.
Variable wv_save : WordVocabulary → File.
Variable parse_corpora :
  option (list string) → gmap string File →
  option (GrammemeVectorizer * GrammemeVectorizer * WordVocabulary).

(** A presence-gated load never writes. *)
Lemma load_if_exists_fs {A} (load : File → option A)
    (set : A → @analysis GrammemeVectorizer → @analysis GrammemeVectorizer)
    path (s : @state GrammemeVectorizer File) :
  fs (load_if_exists load set path s).2 = fs s.
Proof.
  unfold load_if_exists. destruct (fs s !! path) as [f|]; [|done].
  by destruct (load f).
Qed.

(** A presence-gated load that returns. *)
Lemma load_if_exists_inr {A} (load : File → option A)
    (set : A → @analysis GrammemeVectorizer → @analysis GrammemeVectorizer)
    path (s s' : @state GrammemeVectorizer File) u :
  load_if_exists load set path s = (inr u, s') →
  fs s' = fs s ∧
  trace s' = trace s ++ loads (fs s) [path] ∧
  ((∃ f a, fs s !! path = Some f ∧ load f = Some a ∧ self s' = set a (self s))
   ∨ (fs s !! path = None ∧ self s' = self s)).
Proof.
  unfold load_if_exists, loads. rewrite filter_cons, filter_nil.
  destruct (fs s !! path) as [f|] eqn:Hf.
  - destruct (load f) as [a|] eqn:Ha; [|done]. intros [= <- <-].
    rewrite decide_True by by eexists.
    split_and!; [done..|]. left. by exists f, a.
  - intros [= <- <-]. rewrite decide_False by by intros [??].
    simpl. rewrite app_nil_r. split_and!; [done..|]. by right.
Qed.

(** What a call of [prepare] that returns has done. *)
Lemma prepare_inr p_in p_out p_wv file_names
    (s s1 : @state GrammemeVectorizer File) u :
  prepare gv_is_empty gv_load gv_save wv_load wv_save parse_corpora
    p_in p_out p_wv file_names s = (inr u, s1) →
  (populated gv_is_empty (self s1) ∧ fs s1 = fs s ∧
   trace s1 = trace s ++ loads (fs s) [p_in; p_out; p_wv])
  ∨ (∃ gi go wv,
       parse_corpora file_names (fs s) = Some (gi, go, wv) ∧
       self s1 = {| grammeme_vectorizer_input := gi;
                    grammeme_vectorizer_output := go;
                    word_vocabulary := wv |} ∧
       fs s1 = <[p_wv := wv_save wv]>
                 (<[p_out := gv_save go]> (<[p_in := gv_save gi]> (fs s))) ∧
       trace s1 = trace s ++ loads (fs s) [p_in; p_out; p_wv]
                  ++ [ParseCorpora file_names; Dump p_in; Dump p_out;
                      Dump p_wv]).
Proof.
  rewrite prepare_after_loads.
  destruct (load_if_exists gv_load set_input p_in s) as [[e|[]] sa] eqn:Ha;
    [done|].
  apply load_if_exists_inr in Ha as (Hfa & Hta & _).
  destruct (load_if_exists gv_load set_output p_out sa) as [[e|[]] sb] eqn:Hb;
    [done|].
  apply load_if_exists_inr in Hb as (Hfb & Htb & _).
  destruct (load_if_exists wv_load set_vocabulary p_wv sb) as [[e|[]] sc]
    eqn:Hc; [done|].
  apply load_if_exists_inr in Hc as (Hfc & Htc & _).
  assert (fs sc = fs s) as Hfs by congruence.
  assert (trace sc = trace s ++ loads (fs s) [p_in; p_out; p_wv]) as Htr.
  { rewrite Htc, Htb, Hta, Hfb, Hfa.
    change [p_in; p_out; p_wv] with ([p_in] ++ [p_out] ++ [p_wv]).
    by rewrite !loads_app, <-!app_assoc. }
  destruct (gv_is_empty (grammeme_vectorizer_input (self sc))) eqn:E1;
    [|destruct (gv_is_empty (grammeme_vectorizer_output (self sc))) eqn:E2;
      [|destruct (wv_is_empty (word_vocabulary (self sc))) eqn:E3]];
    cbn [orb].
  4: { intros [= <- <-]. by left. }
  all: rewrite Hfs;
    destruct (parse_corpora file_names (fs s)) as [[[gi go] wv]|]; [|done];
    intros [= <- <-]; right; exists gi, go, wv; cbn [self fs trace];
    by rewrite Htr, <-app_assoc.
Qed.

(** X19: [prepare] leaves every file other than the three dumps as it
    was, and removes none, however it ends. *)
Theorem prepare_touches_only_its_dumps p_in p_out p_wv file_names
    (s : @state GrammemeVectorizer File) path :
  (path ∉ [p_in; p_out; p_wv] →
   fs (prepare gv_is_empty gv_load gv_save wv_load wv_save parse_corpora
         p_in p_out p_wv file_names s).2 !! path = fs s !! path) ∧
  (is_Some (fs s !! path) →
   is_Some (fs (prepare gv_is_empty gv_load gv_save wv_load wv_save
                  parse_corpora p_in p_out p_wv file_names s).2 !! path)).
Proof.
  rewrite prepare_after_loads.
  pose proof (load_if_exists_fs gv_load set_input p_in s) as Ha.
  destruct (load_if_exists gv_load set_input p_in s) as [[e|[]] sa];
    simpl in Ha; [simpl; by rewrite Ha|].
  pose proof (load_if_exists_fs gv_load set_output p_out sa) as Hb.
  destruct (load_if_exists gv_load set_output p_out sa) as [[e|[]] sb];
    simpl in Hb; [simpl; by rewrite Hb, Ha|].
  pose proof (load_if_exists_fs wv_load set_vocabulary p_wv sb) as Hc.
  destruct (load_if_exists wv_load set_vocabulary p_wv sb) as [[e|[]] sc];
    simpl in Hc; [simpl; by rewrite Hc, Hb, Ha|].
  assert (fs sc = fs s) as Hfs by congruence.
  destruct (_ || _); [|simpl; by rewrite Hfs].
  destruct (parse_corpora file_names (fs sc)) as [[[gi go] wv]|];
    [|simpl; by rewrite Hfs].
  simpl. rewrite Hfs. split.
  - intros Hout. rewrite !lookup_insert_ne; [done|..];
      intros <-; apply Hout; repeat constructor.
  - intros Hsome.
    destruct (decide (p_wv = path)) as [<-|?];
      [by rewrite lookup_insert_eq|rewrite lookup_insert_ne by done].
    destruct (decide (p_out = path)) as [<-|?];
      [by rewrite lookup_insert_eq|rewrite lookup_insert_ne by done].
    destruct (decide (p_in = path)) as [<-|?];
      [by rewrite lookup_insert_eq|by rewrite lookup_insert_ne by done].
Qed.

(** X20: after a call of [prepare] that returns, the analyser is fully
    populated, with the disk as it was, or it holds exactly what
    [parse_corpora] gave on that disk, and the three dumps of that have
    been written.  So a call never returns with an attribute empty unless
    the corpus itself gave it empty. *)
Theorem prepare_populates_or_parses p_in p_out p_wv file_names
    (s s1 : @state GrammemeVectorizer File) :
  prepare gv_is_empty gv_load gv_save wv_load wv_save parse_corpora
    p_in p_out p_wv file_names s = (inr tt, s1) →
  (populated gv_is_empty (self s1) ∧ fs s1 = fs s)
  ∨ (∃ gi go wv,
       parse_corpora file_names (fs s) = Some (gi, go, wv) ∧
       self s1 = {| grammeme_vectorizer_input := gi;
                    grammeme_vectorizer_output := go;
                    word_vocabulary := wv |} ∧
       fs s1 = <[p_wv := wv_save wv]>
                 (<[p_out := gv_save go]> (<[p_in := gv_save gi]> (fs s)))).
Proof.
  intros [(? & ? & _)|(gi & go & wv & ? & ? & ? & _)]%prepare_inr.
  - by left.
  - right. by exists gi, go, wv.
Qed.

(** X21: the dumps are a cache.  Take a call that parsed the corpus and
    returned with the three attributes non-empty, dumps that load back to
    what was saved, and three different paths.  Then any later call on
    that disk, by any analyser and with any corpus files, makes the three
    loads, does not parse, writes nothing, and ends with the same three
    attributes. *)
Theorem prepare_second_call_loads p_in p_out p_wv file_names file_names'
    (s s1 s2 : @state GrammemeVectorizer File) :
  prepare gv_is_empty gv_load gv_save wv_load wv_save parse_corpora
    p_in p_out p_wv file_names s = (inr tt, s1) →
  ParseCorpora file_names ∈ drop (length (trace s)) (trace s1) →
  populated gv_is_empty (self s1) →
  gv_load (gv_save (grammeme_vectorizer_input (self s1)))
  = Some (grammeme_vectorizer_input (self s1)) →
  gv_load (gv_save (grammeme_vectorizer_output (self s1)))
  = Some (grammeme_vectorizer_output (self s1)) →
  wv_load (wv_save (word_vocabulary (self s1)))
  = Some (word_vocabulary (self s1)) →
  p_in ≠ p_out → p_in ≠ p_wv → p_out ≠ p_wv →
  fs s2 = fs s1 →
  prepare gv_is_empty gv_load gv_save wv_load wv_save parse_corpora
    p_in p_out p_wv file_names' s2
  = (inr tt,
     {| self := self s1; fs := fs s1;
        trace := trace s2 ++ [LoadDump p_in; LoadDump p_out;
                              LoadDump p_wv] |}).
Proof.
  intros H Hparsed (E1 & E2 & E3) Li Lo Lw Hio Hiw How Hfs.
  apply prepare_inr in H
    as [(_ & _ & Htr)|(gi & go & wv & _ & Hself & Hfs1 & _)].
  { exfalso. rewrite Htr, drop_app_length in Hparsed.
    unfold loads in Hparsed.
    apply list_elem_of_fmap in Hparsed as (? & [=] & _). }
  rewrite Hself in *. cbn [grammeme_vectorizer_input
    grammeme_vectorizer_output word_vocabulary] in *.
  assert (fs s2 !! p_in = Some (gv_save gi)) as Fi.
  { rewrite Hfs, Hfs1. do 2 rewrite lookup_insert_ne by done.
    by rewrite lookup_insert_eq. }
  assert (fs s2 !! p_out = Some (gv_save go)) as Fo.
  { rewrite Hfs, Hfs1. rewrite lookup_insert_ne by done.
    by rewrite lookup_insert_eq. }
  assert (fs s2 !! p_wv = Some (wv_save wv)) as Fw.
  { by rewrite Hfs, Hfs1, lookup_insert_eq. }
  rewrite prepare_after_loads.
  unfold load_if_exists at 1. rewrite Fi, Li.
  unfold load_if_exists at 1. cbn [fs self trace]. rewrite Fo, Lo.
  unfold load_if_exists at 1. cbn [fs self trace]. rewrite Fw, Lw.
  cbn [fs self trace set_input set_output set_vocabulary
       grammeme_vectorizer_input grammeme_vectorizer_output word_vocabulary].
  rewrite E1, E2, E3. cbn [orb]. rewrite <-!app_assoc. by rewrite Hfs.
Qed.

End Prepare.

Lemma prepare_populates_or_parses_witness :
  (populated Examples.toy_gv_is_empty (self first_run_state) ∧
   fs first_run_state = fs Examples.new_state)
  ∨ (∃ gi go wv,
       Examples.toy_parse_corpora None (fs Examples.new_state)
       = Some (gi, go, wv) ∧
       self first_run_state
       = {| grammeme_vectorizer_input := gi;
            grammeme_vectorizer_output := go;
            word_vocabulary := wv |} ∧
       fs first_run_state
       = <["vocab.txt" := Examples.toy_wv_save wv]>
           (<["out.json" := Examples.toy_gv_save go]>
              (<["in.json" := Examples.toy_gv_save gi]>
                 (fs Examples.new_state)))).
Proof.
  apply (prepare_populates_or_parses Examples.toy_gv_is_empty
           Examples.toy_gv_load Examples.toy_gv_save Examples.toy_wv_load
           Examples.toy_wv_save Examples.toy_parse_corpora
           "in.json" "out.json" "vocab.txt" None Examples.new_state
           first_run_state).
  reflexivity.
Defined.

Lemma prepare_second_call_loads_witness :
  prepare Examples.toy_gv_is_empty Examples.toy_gv_load Examples.toy_gv_save
    Examples.toy_wv_load Examples.toy_wv_save Examples.toy_parse_corpora
    "in.json" "out.json" "vocab.txt" (Some ["other.txt"]) second_run_state
  = (inr tt,
     {| self := self first_run_state; fs := fs first_run_state;
        trace := [LoadDump "in.json"; LoadDump "out.json";
                  LoadDump "vocab.txt"] |}).
Proof.
  apply (prepare_second_call_loads Examples.toy_gv_is_empty
           Examples.toy_gv_load Examples.toy_gv_save Examples.toy_wv_load
           Examples.toy_wv_save Examples.toy_parse_corpora
           "in.json" "out.json" "vocab.txt" None (Some ["other.txt"])
           Examples.new_state first_run_state second_run_state).
  - reflexivity.
  - vm_compute. repeat constructor.
  - by split_and!.
  - reflexivity.
  - reflexivity.
  - reflexivity.
  - discriminate.
  - discriminate.
  - discriminate.
  - reflexivity.
Defined.

End PrepareMore.

(** ** Properties of [LSTMMorphoAnalysis.build] *)

Module BuildMore.

Import Py PyMore CharEmbeddings CharEmbeddingsFacts More GetCharModelMore.
Import Build.

Lemma lstm_layers_fold units dropout (idx : list nat) x :
  lstm_layers
    (fold_left (λ layer i, BidirectionalLSTM units dropout dropout true i layer)
       idx x)
  = length idx + lstm_layers x.
Proof.
  revert x. induction idx as [|i idx IH]; intros x; simpl; [done|].
  rewrite IH. simpl. lia.
Qed.

Lemma lstm_layers_stack config x :
  lstm_layers (stack_lstm config x)
  = Z.to_nat (rnn_n_layers config) + lstm_layers x.
Proof. unfold stack_lstm. by rewrite lstm_layers_fold, length_seq. Qed.

Section Build.

Variable CHAR_SET : list char.
Variable external_ok : event → bool.
Variable grammemes_count : nat.
Variable output_size : nat.
Variable word_vocabulary : loc.

(** The call of [get_char_model] that [build] makes. *)
#[local] Abbreviation char_model config emb :=
  (get_char_model CHAR_SET external_ok
     (build_dense_chars_layer (char_max_word_length config)
        (length CHAR_SET + 1) (char_embedding_dim config)
        (char_function_hidden_size config)
        (char_function_output_size config) (char_dropout config))
     (char_max_word_length config) word_vocabulary emb
     (char_model_weights_path config) (char_model_config_path config)
     128 0x1.999999999999ap-3%float 42).

(** What a call of [build] that returns has done, and the network it
    has put together. *)
Lemma build_inr config emb (w : world) m w' :
  Build.build CHAR_SET external_ok grammemes_count output_size
    word_vocabulary config emb w = (inr m, w') →
  (use_word_embeddings config = true → emb = None) ∧
  use_gram config || use_chars config = true ∧
  (if use_chars config && use_trained_char_embeddings config
   then ∃ char_layer, char_model config emb w = (inr char_layer, w')
   else w' = w) ∧
  ∃ layer,
    lstm_layers layer = 0 ∧
    inputs m
    = (if use_gram config
       then [Input [None; Some grammemes_count] "grammemes"] else [])
      ++ (if use_chars config
          then [Input [None; Some (char_max_word_length config)] "chars"]
          else []) ∧
    outputs m
    = [(if use_crf config
        then CRF (output_size + 1) true "crf"
        else TimeDistributed (WDense (output_size + 1) (Some "softmax")))
         (TimeDistributed (WActivation "relu")
            (TimeDistributed WBatchNormalization
               (TimeDistributed (WDropout (dense_dropout config))
                  (TimeDistributed (WDense (dense_size config) None)
                     (stack_lstm config layer)))))] ∧
    compile m = (if use_crf config then CompileCrf 5 else CompileSoftmax).
Proof.
  unfold Build.build. intros H.
  apply bind_inr in H as (ie1 & w1 & H1 & H).
  assert (ie1 = ([], []) ∧ w1 = w ∧
          (use_word_embeddings config = true → emb = None))
    as (-> & -> & Hwe).
  { destruct emb as [e|]; [destruct (use_word_embeddings config)|].
    - by apply bind_inr in H1 as (? & ? & ? & _).
    - cbv [ret] in H1. by simplify_eq.
    - cbv [ret] in H1. by simplify_eq. }
  split; [done|].
  apply bind_inr in H as (ie2 & w2 & H2 & H). cbv [ret] in H2.
  injection H2 as <- <-.
  apply bind_inr in H as (ie3 & w3 & H3 & H).
  apply bind_inr in H as (layer & w4 & H4 & H).
  assert (w4 = w3 ∧ lstm_layers layer = 0 ∧
          ie3.1
          = (if use_gram config
             then [Input [None; Some grammemes_count] "grammemes"] else [])
            ++ (if use_chars config
                then [Input [None; Some (char_max_word_length config)]
                        "chars"]
                else []) ∧
          (use_gram config || use_chars config = true) ∧
          (if use_chars config && use_trained_char_embeddings config
           then ∃ char_layer, char_model config emb w = (inr char_layer, w3)
           else w3 = w))
    as (-> & Hlayer & Hinputs & Hsome & Hworld).
  { destruct (use_gram config), (use_chars config); cbn [orb andb] in *.
    - apply bind_inr in H3 as (cl & w5 & Hcl & Hret).
      cbv [ret] in Hret. injection Hret as <- <-.
      cbn [fst snd app length] in *. rewrite decide_True in H4 by lia.
      cbv [ret] in H4. injection H4 as <- <-.
      split_and!; [done..|].
      destruct (use_trained_char_embeddings config); [by exists cl|].
      cbv [ret] in Hcl. by injection Hcl as _ <-.
    - cbv [ret] in H3. injection H3 as <- <-.
      cbn [fst snd app length] in *. rewrite decide_False in H4 by lia.
      cbv [lift ret] in H4. cbn [lookup list_lookup] in H4.
      by injection H4 as <- <-.
    - apply bind_inr in H3 as (cl & w5 & Hcl & Hret).
      cbv [ret] in Hret. injection Hret as <- <-.
      cbn [fst snd app length] in *. rewrite decide_False in H4 by lia.
      cbv [lift ret] in H4. cbn [lookup list_lookup] in H4.
      injection H4 as <- <-.
      split_and!; [done..|].
      destruct (use_trained_char_embeddings config); [by exists cl|].
      cbv [ret] in Hcl. by injection Hcl as _ <-.
    - cbv [ret] in H3. injection H3 as <- <-.
      cbn [fst snd app length] in *. by rewrite decide_False in H4 by lia. }
  assert (w' = w3) as ->.
  { destruct (use_crf config); cbv [ret] in H; congruence. }
  split_and!; [done..|]. exists layer. rewrite <-Hinputs.
  destruct (use_crf config); cbv [ret] in H; by simplify_eq.
Qed.

(** X22: a network that [build] returns declares the grammeme input and
    the character input, each iff its switch is on, in this order, and
    never an input for the word indices: with the word embeddings switched
    on, [build] returns only when no embedding matrix is given, and then
    it leaves the words out. *)
Theorem build_declares_no_words_input config emb (w : world) m w' :
  Build.build CHAR_SET external_ok grammemes_count output_size
    word_vocabulary config emb w = (inr m, w') →
  declared m
  = (if use_gram config then ["grammemes"] else [])
    ++ (if use_chars config then ["chars"] else []) ∧
  ("words" ∉ declared m) ∧
  (use_word_embeddings config = true → emb = None).
Proof.
  intros (Hwe & _ & _ & layer & _ & Hin & _)%build_inr.
  assert (declared m
          = (if use_gram config then ["grammemes"] else [])
            ++ (if use_chars config then ["chars"] else [])) as Hdecl.
  { unfold declared. rewrite Hin.
    by destruct (use_gram config), (use_chars config). }
  split_and!; [done| |done]. rewrite Hdecl.
  destruct (use_gram config), (use_chars config); simpl;
    intros Hno; repeat (apply elem_of_cons in Hno as [[=]|Hno]);
    by apply elem_of_nil in Hno.
Qed.

(** X23: what [train] feeds and what [build] declared.  [train] passes
    the word indices to [fit] whenever the word embeddings are switched on,
    so its list of arrays is the list of inputs of the network exactly
    when they are switched off; and the two arrays that [evaluate] and
    [predict_proba] pass are the inputs of the network exactly when the
    grammemes and the characters are both switched on. *)
Theorem build_inputs_match_train_without_words config emb (w : world) m w'
    tc b :
  Build.build CHAR_SET external_ok grammemes_count output_size
    word_vocabulary config emb w = (inr m, w') →
  (fed (Tagger.fit_event tc (train_view config) b) = declared m
   ↔ use_word_embeddings config = false) ∧
  (declared m = ["grammemes"; "chars"]
   ↔ use_gram config = true ∧ use_chars config = true).
Proof.
  intros (_ & _ & _ & layer & _ & Hin & _)%build_inr.
  unfold declared. rewrite Hin.
  unfold Tagger.fit_event, fed, train_view. simpl.
  destruct (use_word_embeddings config), (use_gram config),
    (use_chars config); simpl; split; split; try done;
    try (by intros [??]).
Qed.

(** X24: with the grammemes and the characters both switched off, [build]
    never returns and touches nothing: it raises on
    [word_embeddings.size.shape] when the word embeddings are switched on
    and given, and on [embeddings[0]] otherwise. *)
Theorem build_without_features_raises config emb (w : world) :
  use_gram config = false →
  use_chars config = false →
  Build.build CHAR_SET external_ok grammemes_count output_size
    word_vocabulary config emb w
  = (inl (if use_word_embeddings config && bool_decide (is_Some emb)
          then AttributeError else Exception), w).
Proof.
  intros Hg Hc. unfold Build.build. rewrite Hg, Hc.
  destruct emb as [e|]; [destruct (use_word_embeddings config)|];
    cbn [andb]; rewrite ?andb_false_r; try done.
Qed.

(** X25: the network that [build] returns has one output, of width
    [grammeme_vectorizer_output.size() + 1] (a class for the padding
    beside the tags), over [rnn_n_layers] recurrent layers (none when the
    number is negative); it is compiled for the CRF exactly when
    [use_crf] is on. *)
Theorem build_stack_and_head config emb (w : world) m w' :
  Build.build CHAR_SET external_ok grammemes_count output_size
    word_vocabulary config emb w = (inr m, w') →
  ∃ out,
    outputs m = [out] ∧
    head_units out = Some (output_size + 1) ∧
    lstm_layers out = Z.to_nat (rnn_n_layers config) ∧
    (compile m = CompileCrf 5 ↔ use_crf config = true).
Proof.
  intros (_ & _ & _ & layer & Hlayer & _ & Hout & Hcompile)%build_inr.
  eexists. split; [exact Hout|]. rewrite Hcompile.
  destruct (use_crf config); cbn [head_units lstm_layers];
    rewrite lstm_layers_stack, Hlayer, Nat.add_0_r;
    split_and!; done.
Qed.

(** X26: the character model trained beside the tagger and the word
    embeddings exclude each other.  When [build] has to train the
    character model (characters and [use_trained_char_embeddings] on, no
    saved config file) it returns only if the embedding matrix is given
    and the word embeddings are switched off; and then the vocabulary of
    the analyser is left as it was. *)
Theorem build_trained_chars_needs_matrix config emb (w : world) m w' v :
  use_chars config = true →
  use_trained_char_embeddings config = true →
  (∀ c, char_model_config_path config = Some c → c ∉ files w) →
  heap w !! word_vocabulary = Some v →
  Build.build CHAR_SET external_ok grammemes_count output_size
    word_vocabulary config emb w = (inr m, w') →
  is_Some emb ∧ use_word_embeddings config = false ∧
  heap w' !! word_vocabulary = Some v.
Proof.
  intros Hc Ht Hno Hv (Hwe & _ & Hcl & _)%build_inr.
  rewrite Hc, Ht in Hcl. cbn [andb] in Hcl. destruct Hcl as [cl Hcl].
  rewrite get_char_model_trains in Hcl by done.
  epose proof (train_char_model_heap CHAR_SET external_ok _ _ _ _ _ _ _ _ _
                 w v Hv) as Hheap.
  cbv zeta in Hheap. erewrite Hcl in Hheap. cbn [snd] in Hheap.
  apply train_char_model_inr in Hcl as (e & _ & _ & _ & -> & _).
  split_and!; [done| |].
  - destruct (use_word_embeddings config); [|done]. by specialize (Hwe eq_refl).
  - rewrite Hheap, lookup_insert_ne; [done|].
    intros Heq. pose proof (is_fresh (dom (heap w))) as Hfresh.
    rewrite Heq in Hfresh. apply Hfresh. by apply elem_of_dom.
Qed.

Lemma encoding_cells (W : nat) (w0 : word) :
  length (encoding CHAR_SET W w0) = W ∧
  Forall (λ c, (0 ≤ c < Z.of_nat (length CHAR_SET + 1))%Z)
         (encoding CHAR_SET W w0).
Proof.
  split; [apply encoding_length|]. unfold encoding.
  apply Forall_app. split.
  - apply Forall_replicate. lia.
  - apply Forall_fmap, Forall_forall. intros ch _. simpl.
    pose proof (CharEmbeddingsMore.char_index_range CHAR_SET ch). lia.
Qed.

(** X27: the character table is large enough.  When [build] trains the
    character model, the dense character layer it hands to Keras has an
    embedding table of [len(CHAR_SET) + 1] rows and expects
    [char_max_word_length] characters per word; the array that the model
    is then fitted on has rows of exactly that width, and every cell is a
    valid row of the table. *)
Theorem build_char_table_covers_indices config emb (w : world) m w' :
  use_chars config = true →
  use_trained_char_embeddings config = true →
  (∀ c, char_model_config_path config = Some c → c ∉ files w) →
  Build.build CHAR_SET external_ok grammemes_count output_size
    word_vocabulary config emb w = (inr m, w') →
  ∃ vocabulary_size dim chars y,
    log w'
    = log w
      ++ [KBuild (DenseChars (char_max_word_length config)
                    (length CHAR_SET + 1) (char_embedding_dim config)
                    (char_function_hidden_size config)
                    (char_function_output_size config) (char_dropout config))
            vocabulary_size dim (char_max_word_length config);
          KFit chars y 128 0x1.999999999999ap-3%float 42]
      ++ save_events (char_model_weights_path config)
           (char_model_config_path config) ∧
    length chars = vocabulary_size ∧
    Forall (λ row,
              length row = char_max_word_length config ∧
              Forall (λ c, (0 ≤ c < Z.of_nat (length CHAR_SET + 1))%Z) row)
           chars.
Proof.
  intros Hc Ht Hno (_ & _ & Hcl & _)%build_inr.
  rewrite Hc, Ht in Hcl. cbn [andb] in Hcl. destruct Hcl as [cl Hcl].
  rewrite get_char_model_trains in Hcl by done.
  apply train_char_model_inr in Hcl
    as (e & v & chars & y & _ & _ & Hcy & _ & _ & Hlog).
  exists (size (shrink (shape0 e) v)), (shape1 e), chars, y.
  split; [exact Hlog|].
  pose proof (prepare_words_inv _ _ _ _ _ Hcy) as ->.
  split; [by rewrite length_fmap|].
  apply Forall_fmap, Forall_forall. intros w0 _. apply encoding_cells.
Qed.

End Build.

Lemma build_declares_no_words_input_witness :
  ∃ m w',
    Build.build Examples.ab (λ _, true) 3 9 0 example_config
      (Some {| shape0 := 2; shape1 := 16 |}) Examples.fresh_world
    = (inr m, w') ∧
    declared m = ["grammemes"; "chars"] ∧
    ("words" ∉ declared m).
Proof.
  eexists _, _. split; [vm_compute; reflexivity|].
  destruct (build_declares_no_words_input Examples.ab (λ _, true) 3 9 0
              example_config (Some {| shape0 := 2; shape1 := 16 |})
              Examples.fresh_world _ _ eq_refl) as (H1 & H2 & _).
  split; [exact H1|exact H2].
Defined.

Lemma build_inputs_match_train_without_words_witness :
  ∃ m w',
    Build.build Examples.ab (λ _, true) 3 9 0 example_config
      (Some {| shape0 := 2; shape1 := 16 |}) Examples.fresh_world
    = (inr m, w') ∧
    (fed (Tagger.fit_event Examples.train_config (train_view example_config)
            Examples.one_word_batch) = declared m
     ↔ use_word_embeddings example_config = false) ∧
    (declared m = ["grammemes"; "chars"]
     ↔ use_gram example_config = true ∧ use_chars example_config = true).
Proof.
  eexists _, _. split; [vm_compute; reflexivity|].
  eapply (build_inputs_match_train_without_words Examples.ab (λ _, true)
            3 9 0 example_config (Some {| shape0 := 2; shape1 := 16 |})
            Examples.fresh_world).
  vm_compute; reflexivity.
Defined.

Lemma build_without_features_raises_witness :
  Build.build Examples.ab (λ _, true) 3 9 0 bare_config None
    Examples.fresh_world
  = (inl Exception, Examples.fresh_world).
Proof.
  apply (build_without_features_raises Examples.ab (λ _, true) 3 9 0
           bare_config None Examples.fresh_world eq_refl eq_refl).
Defined.

Lemma build_stack_and_head_witness :
  ∃ m w',
    Build.build Examples.ab (λ _, true) 3 9 0 example_config
      (Some {| shape0 := 2; shape1 := 16 |}) Examples.fresh_world
    = (inr m, w') ∧
    ∃ out,
      outputs m = [out] ∧
      head_units out = Some (9 + 1) ∧
      lstm_layers out = Z.to_nat (rnn_n_layers example_config) ∧
      (compile m = CompileCrf 5 ↔ use_crf example_config = true).
Proof.
  eexists _, _. split; [vm_compute; reflexivity|].
  eapply (build_stack_and_head Examples.ab (λ _, true) 3 9 0 example_config
            (Some {| shape0 := 2; shape1 := 16 |}) Examples.fresh_world).
  vm_compute; reflexivity.
Defined.

Lemma build_trained_chars_needs_matrix_witness :
  ∃ m w',
    Build.build Examples.ab (λ _, true) 3 9 0 example_config
      (Some {| shape0 := 2; shape1 := 16 |}) Examples.fresh_world
    = (inr m, w') ∧
    is_Some (Some {| shape0 := 2; shape1 := 16 |}) ∧
    use_word_embeddings example_config = false ∧
    heap w' !! 0 = Some Examples.vocabulary3.
Proof.
  eexists _, _. split; [vm_compute; reflexivity|].
  eapply (build_trained_chars_needs_matrix Examples.ab (λ _, true) 3 9 0
            example_config (Some {| shape0 := 2; shape1 := 16 |})
            Examples.fresh_world).
  - reflexivity.
  - reflexivity.
  - intros c _. unfold Examples.fresh_world. simpl. apply not_elem_of_empty.
  - reflexivity.
  - vm_compute; reflexivity.
Defined.

Lemma build_char_table_covers_indices_witness :
  ∃ m w',
    Build.build Examples.ab (λ _, true) 3 9 0 example_config
      (Some {| shape0 := 2; shape1 := 16 |}) Examples.fresh_world
    = (inr m, w') ∧
    ∃ vocabulary_size dim chars y,
      log w'
      = log Examples.fresh_world
        ++ [KBuild (DenseChars (char_max_word_length example_config)
                      (length Examples.ab + 1)
                      (char_embedding_dim example_config)
                      (char_function_hidden_size example_config)
                      (char_function_output_size example_config)
                      (char_dropout example_config))
              vocabulary_size dim (char_max_word_length example_config);
            KFit chars y 128 0x1.999999999999ap-3%float 42]
        ++ save_events (char_model_weights_path example_config)
             (char_model_config_path example_config) ∧
      length chars = vocabulary_size ∧
      Forall (λ row,
                length row = char_max_word_length example_config ∧
                Forall (λ c, (0 ≤ c < Z.of_nat (length Examples.ab + 1))%Z)
                       row)
             chars.
Proof.
  eexists _, _. split; [vm_compute; reflexivity|].
  eapply (build_char_table_covers_indices Examples.ab (λ _, true) 3 9 0
            example_config (Some {| shape0 := 2; shape1 := 16 |})
            Examples.fresh_world).
  - reflexivity.
  - reflexivity.
  - intros c _. unfold Examples.fresh_world. simpl. apply not_elem_of_empty.
  - vm_compute; reflexivity.
Defined.

End BuildMore.
